(** * The docking-layout engine of doclab

    A shallow embedding of the dock manager: the layout tree
    ([CDockLayoutItem], [CDockPanel], [CDockSplitter], [CDockForm]), the
    locate operations ([_findForm], [_findLayoutItem]), the free-space
    reclamation pass ([_occupyFreeSpace], [_replace]) and the two
    front ends, the static class [CDockManager] ([splitPanel], [dockForm],
    [clone]) and the hook [useDockManager] ([split], [stack], [clone]).

    The source mutates JavaScript objects in place.  Here the object graph
    reachable from the root is a tree value, an object is addressed by the
    path ([Ref]) that leads to it from the root, and an assignment to a field
    of an object is [assign] at that path.  This is exact as long as no
    object is referenced from two places, which is the case for the trees of
    the data model (every node has one parent) and is kept by every operation
    on a tree whose node ids are unique. *)

From Stdlib Require Import String Ascii List ZArith Lia Bool Arith Permutation.
From Stdlib Require Import DecimalString DecimalNat.
Import ListNotations.
Open Scope string_scope.
Open Scope list_scope.

(** ** JavaScript values

    The payload of a form ([children], [icon]) is a [ReactNode], which the
    engine never inspects; [JSON.stringify] does.  [JNumber z] is the
    number of integer value [z], which JavaScript has, and holds exactly, for
    [z] of magnitude below 2^53; NaN and the infinities are one constructor,
    and numbers with a fraction and the negative zero have none. *)

#[local] Unset Elimination Schemes.
Inductive JSValue : Type :=
| JUndefined
| JNull
| JBool (b : bool)
| JNumber (z : Z)
| JNonFinite
| JString (s : string)
| JArray (elements : list JSValue)
| JObject (fields : list (string * JSValue))
| JFunction
| JSymbol.

#[local] Set Elimination Schemes.

Definition ReactNode := JSValue.

(** ** Data model *)

Record CDockForm : Type := mkCDockForm {
  form_id : string;
  title : string;
  children : ReactNode;
  icon : ReactNode
}.

Inductive DockLayoutDirection : Type := Horizontal | Vertical.

Inductive DockLayoutItemType : Type := Splitter | Panel.

(** [size] is a JavaScript number, 50 unless the caller of
    [createSplitter] gives another; the embedding has the sizes of integer
    value only. *)
Inductive CDockLayoutItem : Type :=
| CDockPanel (id : string) (forms : list CDockForm)
| CDockSplitter (id : string) (primary secondary : CDockLayoutItem)
                (direction : DockLayoutDirection) (size : Z).

Definition item_id (item : CDockLayoutItem) : string :=
  match item with
  | CDockPanel id _ => id
  | CDockSplitter id _ _ _ _ => id
  end.

Definition item_type (item : CDockLayoutItem) : DockLayoutItemType :=
  match item with
  | CDockPanel _ _ => Panel
  | CDockSplitter _ _ _ _ _ => Splitter
  end.

(** ** Object references

    A reference is the sequence of child slots followed from the root. *)

Inductive Slot : Type := Primary | Secondary.

Definition Ref := list Slot.

Fixpoint deref (root : CDockLayoutItem) (r : Ref) {struct r}
  : option CDockLayoutItem :=
  match r with
  | [] => Some root
  | slot :: r' =>
      match root with
      | CDockPanel _ _ => None
      | CDockSplitter _ p s _ _ =>
          match slot with
          | Primary => deref p r'
          | Secondary => deref s r'
          end
      end
  end.

(** [assign root r v]: the object at [r] becomes [v]. *)
Fixpoint assign (root : CDockLayoutItem) (r : Ref) (v : CDockLayoutItem)
    {struct r} : CDockLayoutItem :=
  match r with
  | [] => v
  | slot :: r' =>
      match root with
      | CDockPanel _ _ => root
      | CDockSplitter id p s d z =>
          match slot with
          | Primary => CDockSplitter id (assign p r' v) s d z
          | Secondary => CDockSplitter id p (assign s r' v) d z
          end
      end
  end.

(** [child.primary] and [child.secondary] of the object at [r]. *)
Definition primary_of (r : Ref) : Ref := r ++ [Primary].
Definition secondary_of (r : Ref) : Ref := r ++ [Secondary].

(** [panel.forms = fs] for the panel at [r]. *)
Definition set_forms (root : CDockLayoutItem) (r : Ref) (fs : list CDockForm)
  : CDockLayoutItem :=
  match deref root r with
  | Some (CDockPanel id _) => assign root r (CDockPanel id fs)
  | _ => root
  end.

(** ** Array methods used by the engine *)

(** [forms.findIndex(f => f.id === formId)], -1 when there is none. *)
Fixpoint findIndex (formId : string) (forms : list CDockForm) : Z :=
  match forms with
  | [] => (-1)%Z
  | f :: rest =>
      if String.eqb (form_id f) formId then 0%Z
      else let i := findIndex formId rest in
           if (i <? 0)%Z then (-1)%Z else (i + 1)%Z
  end.

Fixpoint remove_nth (n : nat) (forms : list CDockForm) : list CDockForm :=
  match forms, n with
  | [], _ => []
  | _ :: rest, O => rest
  | f :: rest, S n' => f :: remove_nth n' rest
  end.

(** [forms.splice(index, 1)]: a negative index counts from the end. *)
Definition splice1 (index : Z) (forms : list CDockForm) : list CDockForm :=
  let len := Z.of_nat (length forms) in
  let start := if (index <? 0)%Z then Z.max (len + index) 0 else Z.min index len in
  remove_nth (Z.to_nat start) forms.

(** [forms.push(form)]. *)
Definition push (forms : list CDockForm) (form : CDockForm) : list CDockForm :=
  forms ++ [form].

(** ** The id factory: [`${prefix}-${++counter}`] *)

Definition string_of_nat (n : nat) : string :=
  NilEmpty.string_of_uint (Nat.to_uint n).

Definition _hash (counter : nat) (prefix : string) : string * nat :=
  ((prefix ++ "-" ++ string_of_nat (S counter))%string, S counter).

Definition createForm (counter : nat) (title : string) (children icon : ReactNode)
  : CDockForm * nat :=
  let '(id, counter) := _hash counter "dmf" in
  (mkCDockForm id title children icon, counter).

Definition createPanel (counter : nat) (forms : list CDockForm)
  : CDockLayoutItem * nat :=
  let '(id, counter) := _hash counter "dmp" in
  (CDockPanel id forms, counter).

(** [direction] and [size] are optional, with defaults [Horizontal] and 50. *)
Definition createSplitter (counter : nat) (primary secondary : CDockLayoutItem)
    (direction : option DockLayoutDirection) (size : option Z)
  : CDockLayoutItem * nat :=
  let direction := match direction with Some d => d | None => Horizontal end in
  let size := match size with Some z => z | None => 50%Z end in
  let '(id, counter) := _hash counter "dms" in
  (CDockSplitter id primary secondary direction size, counter).

(** ** Locate operations

    The helpers below are written twice in the source, once as private static
    methods of [CDockManager] and once as closures of [useDockManager], with
    the same bodies up to the order of the arguments; one embedding serves
    both.  [here] is the reference of [layoutItem]. *)

Fixpoint _findForm (formId : string) (layoutItem : CDockLayoutItem) (here : Ref)
  : option CDockForm * option Ref :=
  match layoutItem with
  | CDockPanel _ forms =>
      match find (fun f => String.eqb (form_id f) formId) forms with
      | Some form => (Some form, Some here)
      | None => (None, None)
      end
  | CDockSplitter _ p s _ _ =>
      let '(form, panel) := _findForm formId p (primary_of here) in
      match form with
      | Some _ => (form, panel)
      | None =>
          let '(form, panel) := _findForm formId s (secondary_of here) in
          match form with
          | Some _ => (form, panel)
          | None => (None, None)
          end
      end
  end.

Fixpoint _findLayoutItem (searchId : string) (layoutItem : CDockLayoutItem)
    (here : Ref) (parent grandparent : option Ref)
  : option Ref * option Ref * option Ref :=
  if String.eqb searchId (item_id layoutItem) then (Some here, parent, grandparent)
  else
    match layoutItem with
    | CDockSplitter _ p s _ _ =>
        let '(_found, _parent, _grandparent) :=
          _findLayoutItem searchId p (primary_of here) (Some here) parent in
        match _found with
        | Some _ => (_found, _parent, _grandparent)
        | None =>
            let '(_found, _parent, _grandparent) :=
              _findLayoutItem searchId s (secondary_of here) (Some here) parent in
            match _found with
            | Some _ => (_found, _parent, _grandparent)
            | None => (None, None, None)
            end
        end
    | CDockPanel _ _ => (None, None, None)
    end.

(** ** Free-space reclamation

    [_replace] and [_occupyFreeSpace] return the object the source returns
    (the root, or the surviving child) and, before it, the tree reachable
    from the root after their assignments: the callers that drop the returned
    object still see the assignments. *)

Definition _replace (root remove replace : CDockLayoutItem)
  : CDockLayoutItem * CDockLayoutItem :=
  let '(found, parent, grandparent) :=
    _findLayoutItem (item_id remove) root [] None None in
  match found, parent with
  | Some found, Some parent =>
      match deref root found, deref root parent with
      | Some found_obj, Some (CDockSplitter _ parent_primary parent_secondary _ _) =>
          if String.eqb (item_id found_obj) (item_id parent_primary) then
            let root := assign root (primary_of parent) replace in (root, root)
          else if String.eqb (item_id found_obj) (item_id parent_secondary) then
            let root := assign root (secondary_of parent) replace in (root, root)
          else (root, root)
      | _, _ => (root, root)
      end
  | _, _ => (root, replace)
  end.

(** The recursion follows the children of [start] as they are when they are
    read, after the assignments of the calls before; [fuel] bounds its depth
    and [None] says that the bound was too small, or that the object of
    [start] is no longer where [start] points. *)
Fixpoint _occupyFreeSpace (fuel : nat) (root : CDockLayoutItem) (start : Ref)
  : option (CDockLayoutItem * CDockLayoutItem) :=
  match fuel with
  | O => None
  | S fuel =>
      match deref root start with
      | Some (CDockSplitter _ p _ _ _) =>
          let after_primary :=
            match item_type p with
            | Splitter => option_map fst (_occupyFreeSpace fuel root (primary_of start))
            | Panel => Some root
            end in
          match after_primary with
          | Some root =>
              match deref root start with
              | Some (CDockSplitter _ _ s _ _) =>
                  let after_secondary :=
                    match item_type s with
                    | Splitter =>
                        option_map fst (_occupyFreeSpace fuel root (secondary_of start))
                    | Panel => Some root
                    end in
                  match after_secondary with
                  | Some root =>
                      match deref root start with
                      | Some (CDockSplitter _ p s _ _ as splitter) =>
                          match p, s with
                          | CDockPanel _ [], _ => Some (_replace root splitter s)
                          | _, CDockPanel _ [] => Some (_replace root splitter p)
                          | _, _ => Some (root, root)
                          end
                      | _ => None
                      end
                  | None => None
                  end
              | _ => None
              end
          | None => None
          end
      | Some (CDockPanel _ _) => Some (root, root)
      | None => None
      end
  end.

Fixpoint height (item : CDockLayoutItem) : nat :=
  match item with
  | CDockPanel _ _ => 0
  | CDockSplitter _ p s _ _ => S (Nat.max (height p) (height s))
  end.

(** [_occupyFreeSpace(root, root)], with fuel for every level of the tree. *)
Definition reclaim_from_root (root : CDockLayoutItem) : option CDockLayoutItem :=
  option_map snd (_occupyFreeSpace (S (height root)) root []).

(** How a call ends: it returns, or [forms.push] is applied to a splitter,
    which has no [forms], and throws a TypeError; [heap] is then the tree as
    the assignments before the throw left it. *)
Inductive Completion (A : Type) : Type :=
| Return (value : A)
| ThrowTypeError (heap : A).
Arguments Return {A} value.
Arguments ThrowTypeError {A} heap.

(** [parent.primary = newItem] or [parent.secondary = newItem], whichever
    slot of [parent] holds the id of the object at [child]. *)
Definition graft (root : CDockLayoutItem) (parent child : Ref)
    (newItem : CDockLayoutItem) : CDockLayoutItem :=
  match deref root parent, deref root child with
  | Some (CDockSplitter _ parent_primary parent_secondary _ _), Some child_obj =>
      if String.eqb (item_id parent_primary) (item_id child_obj) then
        assign root (primary_of parent) newItem
      else if String.eqb (item_id parent_secondary) (item_id child_obj) then
        assign root (secondary_of parent) newItem
      else root
  | _, _ => root
  end.

(** ** JSON

    [JSON.stringify] as a function to JSON documents and [JSON.parse] back:
    a property whose value is undefined, a function or a symbol is left out
    of an object and written null in an array, NaN and the infinities are
    written null, and at top level such a value has no JSON text (the result
    is undefined, on which [JSON.parse] throws a SyntaxError). *)

#[local] Unset Elimination Schemes.
Inductive JSONText : Type :=
| TNull
| TBool (b : bool)
| TNumber (z : Z)
| TString (s : string)
| TArray (elements : list JSONText)
| TObject (members : list (string * JSONText)).
#[local] Set Elimination Schemes.

Fixpoint JSON_stringify (v : JSValue) : option JSONText :=
  match v with
  | JUndefined | JFunction | JSymbol => None
  | JNull | JNonFinite => Some TNull
  | JBool b => Some (TBool b)
  | JNumber z => Some (TNumber z)
  | JString s => Some (TString s)
  | JArray elements =>
      Some (TArray (map (fun e => match JSON_stringify e with
                                  | Some t => t
                                  | None => TNull
                                  end) elements))
  | JObject fields =>
      Some (TObject ((fix members (fs : list (string * JSValue)) :=
                        match fs with
                        | [] => []
                        | (k, e) :: rest =>
                            match JSON_stringify e with
                            | Some t => (k, t) :: members rest
                            | None => members rest
                            end
                        end) fields))
  end.

Fixpoint JSON_parse (t : JSONText) : JSValue :=
  match t with
  | TNull => JNull
  | TBool b => JBool b
  | TNumber z => JNumber z
  | TString s => JString s
  | TArray elements => JArray (map JSON_parse elements)
  | TObject members =>
      JObject ((fix fields (ms : list (string * JSONText)) :=
                  match ms with
                  | [] => []
                  | (k, e) :: rest => (k, JSON_parse e) :: fields rest
                  end) members)
  end.

(** The objects the constructors build, with their properties in the order
    in which the constructors assign them. *)

Definition js_of_direction (d : DockLayoutDirection) : JSValue :=
  match d with
  | Horizontal => JString "Horizontal"
  | Vertical => JString "Vertical"
  end.

Definition js_of_type (t : DockLayoutItemType) : JSValue :=
  match t with
  | Splitter => JString "Splitter"
  | Panel => JString "Panel"
  end.

Definition js_of_form (f : CDockForm) : JSValue :=
  JObject [("id", JString (form_id f)); ("title", JString (title f));
           ("children", children f); ("icon", icon f)].

Fixpoint js_of_item (item : CDockLayoutItem) : JSValue :=
  match item with
  | CDockPanel id forms =>
      JObject [("id", JString id); ("type", js_of_type Panel);
               ("forms", JArray (map js_of_form forms))]
  | CDockSplitter id p s d z =>
      JObject [("id", JString id); ("type", js_of_type Splitter);
               ("primary", js_of_item p); ("secondary", js_of_item s);
               ("direction", js_of_direction d); ("size", JNumber z)]
  end.

(** [o[key]]: undefined when the object has no such property. *)
Definition js_get (key : string) (o : JSValue) : JSValue :=
  match o with
  | JObject fields =>
      match find (fun kv => String.eqb (fst kv) key) fields with
      | Some kv => snd kv
      | None => JUndefined
      end
  | _ => JUndefined
  end.

(** ** The static class *)

Module CDockManager.

(** [console.log(JSON.stringify(layout)); return JSON.parse('{}')]. *)
Definition clone (layout : CDockLayoutItem) : JSValue :=
  JSON_parse (TObject []).

(** Removes the form from the layout and returns it, with the panel it was
    in and the tree after the removal. *)
Definition _extractForm (root : CDockLayoutItem) (formId : string)
  : option (option CDockForm * option Ref * CDockLayoutItem) :=
  let '(form, source) := _findForm formId root [] in
  match form, source with
  | Some _, Some source_ref =>
      match deref root source_ref with
      | Some (CDockPanel _ forms) =>
          let index := findIndex formId forms in
          Some (form, source, set_forms root source_ref (splice1 index forms))
      | _ => None
      end
  | _, _ => Some (form, source, root)
  end.

Definition splitPanel (_counter : nat) (root : CDockLayoutItem)
    (formId destPanelId : string) (direction : DockLayoutDirection)
  : option (Completion (CDockLayoutItem * nat)) :=
  match _extractForm root formId with
  | Some (Some form, _, root) =>
      let '(panel, parent, grandparent) :=
        _findLayoutItem destPanelId root [] None None in
      let grafted :=
        match panel with
        | Some panel =>
            match deref root panel with
            | Some panel_obj =>
                let '(newPanel, _counter) := createPanel _counter [form] in
                let '(newSplitter, _counter) :=
                  createSplitter _counter panel_obj newPanel (Some direction) None in
                match parent with
                | Some parent => Some (graft root parent panel newSplitter, _counter)
                | None => Some (newSplitter, _counter)
                end
            | None => None
            end
        | None => Some (root, _counter)
        end in
      match grafted with
      | Some (root, _counter) =>
          option_map (fun root => Return (root, _counter)) (reclaim_from_root root)
      | None => None
      end
  | Some (None, _, root) => Some (Return (root, _counter))
  | None => None
  end.

Definition dockForm (root : CDockLayoutItem) (formId panelId : string)
  : option (Completion CDockLayoutItem) :=
  match _extractForm root formId with
  | Some (form, _, root) =>
      let '(destination, _, _) := _findLayoutItem panelId root [] None None in
      match form, destination with
      | Some form, Some destination =>
          match deref root destination with
          | Some (CDockPanel _ forms) =>
              let root := set_forms root destination (push forms form) in
              option_map Return (reclaim_from_root root)
          | Some (CDockSplitter _ _ _ _ _) => Some (ThrowTypeError root)
          | None => None
          end
      | _, _ => Some (Return root)
      end
  | None => None
  end.

End CDockManager.

(** ** The hook

    The state of the hook is the layout held by [useState] and the counter
    held by [useRef].  [split] and [stack] pass an updater to [setLayout];
    the embedding is the updater applied once to the current layout.  The
    spread [{ ...layout }] copies the root object and shares its children,
    which leaves the tree value as it is.

    Two limits of the embedding.  The updater of [stack] reads the layout
    twice: as its argument [prev] and, for [_findForm] and
    [_occupyFreeSpace], as the [layout] of the render that made the closure.
    The embedding takes the two to be the same object, which is so when the
    call is the first one since the render that shows the current state, and
    is not so for a second call made before that render.  And
    [ThrowTypeError] is the outcome of the updater itself: [setLayout]
    belongs to React, which may run an updater more than once, so what the
    caller of [stack] sees when the updater throws is not stated here. *)

Record DockStore : Type := mkDockStore {
  layout : CDockLayoutItem;
  counter : nat
}.

Module useDockManager.

(** [JSON.parse(JSON.stringify(layout))]; [None] is the SyntaxError of
    [JSON.parse] on undefined. *)
Definition clone (layout : CDockLayoutItem) : option JSValue :=
  option_map JSON_parse (JSON_stringify (js_of_item layout)).

Definition split (st : DockStore) (formId destPanelId : string)
    (direction : DockLayoutDirection) : option (Completion DockStore) :=
  let layout0 := layout st in
  let '(form, panel) := _findForm formId layout0 [] in
  match form, panel with
  | Some form, Some panel =>
      match deref layout0 panel with
      | Some (CDockPanel panel_id panel_forms) =>
          if String.eqb panel_id destPanelId && (length panel_forms <=? 1)%nat
          then Some (Return st)
          else
            let index := findIndex formId panel_forms in
            let layout1 := set_forms layout0 panel (splice1 index panel_forms) in
            let '(destPanel, parent, grandparent) :=
              _findLayoutItem destPanelId layout1 [] None None in
            let grafted :=
              match destPanel with
              | Some destPanel =>
                  match deref layout1 destPanel with
                  | Some dest_obj =>
                      let '(newPanel, c) := createPanel (counter st) [form] in
                      let '(newSplitter, c) :=
                        createSplitter c dest_obj newPanel (Some direction) None in
                      match parent with
                      | Some parent =>
                          Some (graft layout1 parent destPanel newSplitter, c)
                      | None => Some (newSplitter, c)
                      end
                  | None => None
                  end
              | None => Some (layout1, counter st)
              end in
            match grafted with
            | Some (layout2, c) =>
                option_map (fun l => Return (mkDockStore l c))
                           (reclaim_from_root layout2)
            | None => None
            end
      | _ => None
      end
  | _, _ => Some (Return st)
  end.

Definition stack (st : DockStore) (formId panelId : string)
  : option (Completion DockStore) :=
  let layout0 := layout st in
  let '(form, panel) := _findForm formId layout0 [] in
  let extracted :=
    match form, panel with
    | Some _, Some panel =>
        match deref layout0 panel with
        | Some (CDockPanel _ panel_forms) =>
            let index := findIndex formId panel_forms in
            Some (set_forms layout0 panel (splice1 index panel_forms))
        | _ => None
        end
    | _, _ => Some layout0
    end in
  match extracted with
  | Some prev =>
      let '(destination, _, _) := _findLayoutItem panelId prev [] None None in
      match form, destination with
      | Some form, Some destination =>
          match deref prev destination with
          | Some (CDockPanel _ forms) =>
              let prev := set_forms prev destination (push forms form) in
              option_map (fun l => Return (mkDockStore l (counter st)))
                         (reclaim_from_root prev)
          | Some (CDockSplitter _ _ _ _ _) =>
              Some (ThrowTypeError (mkDockStore prev (counter st)))
          | None => None
          end
      | _, _ => Some (Return (mkDockStore prev (counter st)))
      end
  | None => None
  end.

End useDockManager.

(** ** Node ids, panels and forms of a tree, in traversal order *)

Fixpoint ids (t : CDockLayoutItem) : list string :=
  match t with
  | CDockPanel id _ => [id]
  | CDockSplitter id p s _ _ => id :: ids p ++ ids s
  end.

Fixpoint panels (t : CDockLayoutItem) : list (string * list CDockForm) :=
  match t with
  | CDockPanel id forms => [(id, forms)]
  | CDockSplitter _ p s _ _ => panels p ++ panels s
  end.

Definition all_forms (t : CDockLayoutItem) : list CDockForm :=
  concat (map snd (panels t)).

Definition is_empty_panel (t : CDockLayoutItem) : bool :=
  match t with
  | CDockPanel _ [] => true
  | _ => false
  end.

Definition has_forms (p : string * list CDockForm) : bool :=
  match snd p with
  | [] => false
  | _ :: _ => true
  end.


(** Invariant 4: no panel is empty, unless it is the root itself. *)
Definition no_empty_panel (t : CDockLayoutItem) : bool :=
  match t with
  | CDockPanel _ _ => true
  | CDockSplitter _ _ _ _ _ => forallb has_forms (panels t)
  end.

(** ** Functions used to state the properties *)

(** The parent of the object at [here ++ r], for a search started at [here]
    with [parent] as the parent of [here]. *)
Definition parent_ref (here : Ref) (parent : option Ref) (r : Ref) : option Ref :=
  match r with
  | [] => parent
  | _ :: _ => Some (here ++ removelast r)
  end.

(** [f => f.id === formId]. *)
Definition has_id (formId : string) (f : CDockForm) : bool :=
  String.eqb (form_id f) formId.

(** The forms without the first one that has id [formId]. *)
Fixpoint without (formId : string) (forms : list CDockForm) : list CDockForm :=
  match forms with
  | [] => []
  | f :: rest => if has_id formId f then rest else f :: without formId rest
  end.

(** [f] applied to the forms of the panel with id [id]. *)
Definition on_panel (id : string) (f : list CDockForm -> list CDockForm)
    (p : string * list CDockForm) : string * list CDockForm :=
  if String.eqb (fst p) id then (fst p, f (snd p)) else p.

(** A call ends by returning. *)
Definition returns_normally {A : Type} (o : option (Completion A)) : Prop :=
  exists v, o = Some (Return v).

(** Free-space reclamation as the design words it: bottom-up, a splitter
    whose primary child is an empty panel gives way to its secondary child,
    otherwise one whose secondary child is an empty panel gives way to its
    primary child.  [reclaim_from_root] is compared with it below. *)
Fixpoint collapse (t : CDockLayoutItem) : CDockLayoutItem :=
  match t with
  | CDockPanel _ _ => t
  | CDockSplitter i p s d z =>
      let p' := collapse p in
      let s' := collapse s in
      if is_empty_panel p' then s'
      else if is_empty_panel s' then p'
      else CDockSplitter i p' s' d z
  end.

(** No splitter of the tree has an empty panel as a child. *)
Fixpoint settled (t : CDockLayoutItem) : bool :=
  match t with
  | CDockPanel _ _ => true
  | CDockSplitter _ p s _ _ =>
      negb (is_empty_panel p) && negb (is_empty_panel s) && settled p && settled s
  end.

(** ** Sequences of calls *)

Fixpoint strip_prefix (prefix s : string) : option string :=
  match prefix, s with
  | EmptyString, _ => Some s
  | String a prefix', String b s' =>
      if Ascii.eqb a b then strip_prefix prefix' s' else None
  | String _ _, EmptyString => None
  end.

(** The number in an id that the factory can give to a panel or a splitter. *)
Definition generated_number (id : string) : option nat :=
  match strip_prefix "dmp-" id with
  | Some digits => option_map Nat.of_uint (NilEmpty.uint_of_string digits)
  | None =>
      match strip_prefix "dms-" id with
      | Some digits => option_map Nat.of_uint (NilEmpty.uint_of_string digits)
      | None => None
      end
  end.

(** No id of the layout is one that the counter has yet to reach. *)
Definition counter_ahead (st : DockStore) : bool :=
  forallb (fun id => match generated_number id with
                     | Some n => (n <=? counter st)%nat
                     | None => true
                     end) (ids (layout st)).

Inductive Call : Type :=
| CallSplit (formId destPanelId : string) (direction : DockLayoutDirection)
| CallStack (formId panelId : string).

Definition run_call (st : DockStore) (c : Call) : option (Completion DockStore) :=
  match c with
  | CallSplit formId destPanelId direction =>
      useDockManager.split st formId destPanelId direction
  | CallStack formId panelId => useDockManager.stack st formId panelId
  end.

Definition form_resolves (formId : string) (t : CDockLayoutItem) : bool :=
  match fst (_findForm formId t []) with
  | Some _ => true
  | None => false
  end.

Definition node_resolves (id : string) (t : CDockLayoutItem) : bool :=
  match fst (fst (_findLayoutItem id t [] None None)) with
  | Some _ => true
  | None => false
  end.

Definition panel_resolves (id : string) (t : CDockLayoutItem) : bool :=
  match fst (fst (_findLayoutItem id t [] None None)) with
  | Some r =>
      match deref t r with
      | Some (CDockPanel _ _) => true
      | _ => false
      end
  | None => false
  end.

(** The ids of a call resolve; [stack] needs a panel as its destination,
    [split] takes any node. *)
Definition ids_resolve (st : DockStore) (c : Call) : bool :=
  match c with
  | CallSplit formId destPanelId _ =>
      form_resolves formId (layout st) && node_resolves destPanelId (layout st)
  | CallStack formId panelId =>
      form_resolves formId (layout st) && panel_resolves panelId (layout st)
  end.

(** One render of the hook.  [useState<CDockLayoutItem>(createPanel([]))]
    evaluates its argument at every render: the counter moves on by one, and
    the panel made is dropped at every render but the first, the layout being
    the state. *)
Definition render (st : DockStore) : DockStore :=
  let '(_, c) := createPanel (counter st) [] in mkDockStore (layout st) c.

Definition renders (n : nat) (st : DockStore) : DockStore := Nat.iter n render st.

(** A sequence of calls: each call comes with the number of renders that
    follow it before the next call is made.  [run_calls] gives the store
    that each call leaves, if every call returns. *)
Fixpoint run_calls (st : DockStore) (calls : list (Call * nat))
  : option (list DockStore) :=
  match calls with
  | [] => Some []
  | (c, n) :: rest =>
      match run_call st c with
      | Some (Return st') => option_map (cons st') (run_calls (renders n st') rest)
      | _ => None
      end
  end.

(** The ids of every call resolve in the layout the call is made on. *)
Fixpoint all_resolve (st : DockStore) (calls : list (Call * nat)) : bool :=
  match calls with
  | [] => true
  | (c, n) :: rest =>
      ids_resolve st c
      && match run_call st c with
         | Some (Return st') => all_resolve (renders n st') rest
         | _ => true
         end
  end.

(** Every call is made on the state that the latest render shows: a call
    that changes the layout is followed by a render before the next call.
    Calls made one after the other within one render are left out: the
    closure of the second one holds the layout of before the first. *)
Fixpoint one_call_per_render (st : DockStore) (calls : list (Call * nat)) : Prop :=
  match calls with
  | [] => True
  | (c, n) :: rest =>
      match run_call st c with
      | Some (Return st') =>
          (1 <= n \/ layout st' = layout st)
          /\ one_call_per_render (renders n st') rest
      | _ => True
      end
  end.

(** The stores that the calls of a sequence are made on. *)
Fixpoint rendered_stores (st : DockStore) (calls : list (Call * nat)) : list DockStore :=
  match calls with
  | [] => []
  | (_, n) :: rest => st :: rendered_stores (renders n st) rest
  end.


(** ** Values that a JSON round trip keeps *)

(** Values that [JSON.stringify] and [JSON.parse] give back as they are. *)
Fixpoint json_stable (v : JSValue) : bool :=
  match v with
  | JNull | JBool _ | JNumber _ | JString _ => true
  | JArray elements => forallb json_stable elements
  | JObject fields => forallb (fun kv => json_stable (snd kv)) fields
  | JUndefined | JNonFinite | JFunction | JSymbol => false
  end.

(** The payloads of all forms of a layout are such values. *)
Definition payloads_stable (t : CDockLayoutItem) : bool :=
  forallb (fun f => json_stable (children f) && json_stable (icon f)) (all_forms t).

(** The integers that JavaScript numbers hold exactly. *)
Definition safe_integer (z : Z) : bool := (- 2 ^ 53 <? z)%Z && (z <? 2 ^ 53)%Z.

Fixpoint numbers_exact (v : JSValue) : bool :=
  match v with
  | JNumber z => safe_integer z
  | JArray elements => forallb numbers_exact elements
  | JObject fields => forallb (fun kv => numbers_exact (snd kv)) fields
  | _ => true
  end.

Fixpoint sizes_exact (t : CDockLayoutItem) : bool :=
  match t with
  | CDockPanel _ _ => true
  | CDockSplitter _ p s _ size => safe_integer size && sizes_exact p && sizes_exact s
  end.

(** The numbers of a layout, sizes and numbers within payloads, are ones
    that the embedding has as they are in JavaScript. *)
Definition layout_numbers_exact (t : CDockLayoutItem) : bool :=
  sizes_exact t
  && forallb (fun f => numbers_exact (children f) && numbers_exact (icon f))
             (all_forms t).

Section JSValue_induction.

Variable P : JSValue -> Prop.
Hypothesis P_undefined : P JUndefined.
Hypothesis P_null : P JNull.
Hypothesis P_bool : forall b, P (JBool b).
Hypothesis P_number : forall z, P (JNumber z).
Hypothesis P_nonfinite : P JNonFinite.
Hypothesis P_string : forall s, P (JString s).
Hypothesis P_array : forall l, Forall P l -> P (JArray l).
Hypothesis P_object : forall fs, Forall (fun kv => P (snd kv)) fs -> P (JObject fs).
Hypothesis P_function : P JFunction.
Hypothesis P_symbol : P JSymbol.

Fixpoint JSValue_induction (v : JSValue) : P v :=
  match v with
  | JUndefined => P_undefined
  | JNull => P_null
  | JBool b => P_bool b
  | JNumber z => P_number z
  | JNonFinite => P_nonfinite
  | JString s => P_string s
  | JArray l =>
      P_array l
        ((fix each (l : list JSValue) : Forall P l :=
            match l with
            | [] => Forall_nil P
            | x :: rest => Forall_cons x (JSValue_induction x) (each rest)
            end) l)
  | JObject fs =>
      P_object fs
        ((fix each (fs : list (string * JSValue))
            : Forall (fun kv => P (snd kv)) fs :=
            match fs with
            | [] => Forall_nil _
            | kv :: rest =>
                Forall_cons (P := fun kv => P (snd kv)) kv
                            (JSValue_induction (snd kv)) (each rest)
            end) fs)
  | JFunction => P_function
  | JSymbol => P_symbol
  end.

End JSValue_induction.

(** ** Sample layouts *)

Definition F1 : CDockForm := mkCDockForm "dmf-1" "F1" JNull JNull.
Definition F2 : CDockForm := mkCDockForm "dmf-2" "F2" JNull JNull.
Definition P1 : CDockLayoutItem := CDockPanel "dmp-3" [F1].
Definition P2 : CDockLayoutItem := CDockPanel "dmp-4" [F2].
(** Two panels with one form each, side by side. *)
Definition side_by_side : CDockLayoutItem := CDockSplitter "dms-5" P1 P2 Horizontal 50.
Definition side_by_side_store : DockStore := mkDockStore side_by_side 5.

(** A splitter that holds two empty panels, under the root. *)
Definition two_gaps : CDockLayoutItem :=
  CDockSplitter "dms-5"
    (CDockSplitter "dms-8" (CDockPanel "dmp-6" []) (CDockPanel "dmp-7" []) Vertical 50)
    P2 Horizontal 50.

(** Three calls, each followed by one render. *)
Definition three_calls : list (Call * nat) :=
  [(CallSplit "dmf-1" "dmp-4" Vertical, 1);
   (CallStack "dmf-1" "dmp-4", 1);
   (CallSplit "dmf-2" "dmp-4" Horizontal, 1)].

(** ** Further functions used to state the properties *)

(** The parent of the parent of the object at [here ++ r], for a search
    started at [here]. *)
Definition grandparent_ref (here : Ref) (parent grandparent : option Ref) (r : Ref)
  : option Ref :=
  match r with
  | [] => grandparent
  | [_] => parent
  | _ :: _ :: _ => Some (here ++ removelast (removelast r))
  end.

(** The fields of a layout object that are not its children: the id, and
    the direction and size of a splitter. *)
Definition own_fields (item : CDockLayoutItem)
  : string * option (DockLayoutDirection * Z) :=
  match item with
  | CDockPanel id _ => (id, None)
  | CDockSplitter id _ _ direction size => (id, Some (direction, size))
  end.

(** The guard of [useDockManager.split]: the form is found in the panel
    with the destination id, and that panel holds at most one form. *)
Definition self_split_guard (t : CDockLayoutItem) (formId destPanelId : string) : bool :=
  match _findForm formId t [] with
  | (Some _, Some panel) =>
      match deref t panel with
      | Some (CDockPanel panel_id panel_forms) =>
          String.eqb panel_id destPanelId && (length panel_forms <=? 1)%nat
      | _ => false
      end
  | _ => false
  end.

Definition Completion_map {A B : Type} (f : A -> B) (c : Completion A) : Completion B :=
  match c with
  | Return v => Return (f v)
  | ThrowTypeError h => ThrowTypeError (f h)
  end.

(** The state of the hook at its first render: [useState(createPanel([]))]
    with the counter at 0. *)
Definition initial_store : DockStore :=
  let '(panel, c) := createPanel 0 [] in mkDockStore panel c.

(** A panel with two forms beside a panel with one. *)
Definition F3 : CDockForm := mkCDockForm "dmf-6" "F3" JNull JNull.
Definition crowded : CDockLayoutItem :=
  CDockSplitter "dms-5" (CDockPanel "dmp-3" [F1; F3]) P2 Horizontal 50.
Definition crowded_store : DockStore := mkDockStore crowded 6.

(** Two empty panels under a splitter, and nothing else. *)
Definition only_gaps : CDockLayoutItem :=
  CDockSplitter "dms-8" (CDockPanel "dmp-6" []) (CDockPanel "dmp-7" []) Vertical 50.

(** ** The drag tracker

    [Point] and [Movable], which turn mouse and touch events into calls of
    [onChange].  Coordinates are JavaScript numbers, of which only the
    subtraction is used: the tracker is embedded over any type [number] with
    a subtraction.  The caller's [onChange] acts on a state [U] of its own and
    touches neither the tracker nor the listeners of the document.  The
    document is its list of listeners in the order of registration; a
    function made by [bind] is a new object each time, told apart by a serial
    number, and [Unbound m] is the method [m] itself as read off the object.
    [__clearSelection], which only empties the selection of the window, is
    left out. *)

Module Drag.

Section Tracker.

Variable number : Type.
Variable minus : number -> number -> number.
Variable zero : number.
Variable U : Type.

Record Point : Type := mkPoint { x : number; y : number }.

(** [Point.delta(final, initial)]. *)
Definition delta (final initial : Point) : Point :=
  mkPoint (minus (x final) (x initial)) (minus (y final) (y initial)).

Inductive EventType : Type := mousemove | mouseup | touchmove | touchend.

Inductive Method : Type := _onMouseMove | _onMouseUp | _onTouchMove | _onTouchEnd.

Inductive Listener : Type :=
| Bound (serial : nat) (m : Method)
| Unbound (m : Method).

(** A mouse event with its [clientX], [clientY]; a touch event with the
    client points of its [touches]. *)
Inductive Event : Type :=
| MouseEvent (client : Point)
| TouchEvent (touches : list Point).

Record Movable : Type := mkMovable {
  start : Point;
  current : Point;
  isDragging : bool;
  onChange : Point -> Point -> U -> U
}.

Record World : Type := mkWorld {
  movable : Movable;
  listeners : list (EventType * Listener);
  binds : nat;
  user : U
}.

(** [new Movable(onChange)] in a document without listeners. *)
Definition new_world (f : Point -> Point -> U -> U) (u : U) : World :=
  mkWorld (mkMovable (mkPoint zero zero) (mkPoint zero zero) false f) [] 0 u.

Definition EventType_eqb (a b : EventType) : bool :=
  match a, b with
  | mousemove, mousemove | mouseup, mouseup
  | touchmove, touchmove | touchend, touchend => true
  | _, _ => false
  end.

Definition Method_eqb (a b : Method) : bool :=
  match a, b with
  | _onMouseMove, _onMouseMove | _onMouseUp, _onMouseUp
  | _onTouchMove, _onTouchMove | _onTouchEnd, _onTouchEnd => true
  | _, _ => false
  end.

(** Identity of function objects. *)
Definition Listener_eqb (a b : Listener) : bool :=
  match a, b with
  | Bound n m, Bound n' m' => Nat.eqb n n' && Method_eqb m m'
  | Unbound m, Unbound m' => Method_eqb m m'
  | _, _ => false
  end.

Definition registered (ty : EventType) (l : Listener)
    (e : EventType * Listener) : bool :=
  EventType_eqb (fst e) ty && Listener_eqb (snd e) l.

(** [document.addEventListener(ty, l)]: a listener already registered for
    the type is not registered twice. *)
Definition addEventListener (ty : EventType) (l : Listener) (w : World) : World :=
  if existsb (registered ty l) (listeners w) then w
  else mkWorld (movable w) (listeners w ++ [(ty, l)]) (binds w) (user w).

Fixpoint remove_listener (ty : EventType) (l : Listener)
    (ls : list (EventType * Listener)) : list (EventType * Listener) :=
  match ls with
  | [] => []
  | e :: rest => if registered ty l e then rest else e :: remove_listener ty l rest
  end.

(** [document.removeEventListener(ty, l)]. *)
Definition removeEventListener (ty : EventType) (l : Listener) (w : World) : World :=
  mkWorld (movable w) (remove_listener ty l (listeners w)) (binds w) (user w).

(** [this.m.bind(this)]: a new function object. *)
Definition bind_this (m : Method) (w : World) : Listener * World :=
  (Bound (binds w) m, mkWorld (movable w) (listeners w) (S (binds w)) (user w)).

Definition set_movable (m : Movable) (w : World) : World :=
  mkWorld m (listeners w) (binds w) (user w).

Definition _onStartDrag (point : Point) (w : World) : World :=
  let w := set_movable (mkMovable point point true (onChange (movable w))) w in
  let '(l, w) := bind_this _onMouseMove w in
  let w := addEventListener mousemove l w in
  let '(l, w) := bind_this _onMouseUp w in
  let w := addEventListener mouseup l w in
  let '(l, w) := bind_this _onTouchMove w in
  let w := addEventListener touchmove l w in
  let '(l, w) := bind_this _onTouchEnd w in
  addEventListener touchend l w.

Definition _onDrag (point : Point) (w : World) : World :=
  let m := movable w in
  if isDragging m then
    let u := onChange m (delta point (current m)) point (user w) in
    mkWorld (mkMovable (start m) point (isDragging m) (onChange m))
            (listeners w) (binds w) u
  else w.

Definition _onEndDrag (point : Point) (w : World) : World :=
  let m := movable w in
  let w := set_movable (mkMovable (start m) (current m) false (onChange m)) w in
  let w := removeEventListener mousemove (Unbound _onMouseMove) w in
  let w := removeEventListener mouseup (Unbound _onMouseUp) w in
  let w := removeEventListener touchmove (Unbound _onTouchMove) w in
  removeEventListener touchend (Unbound _onTouchEnd) w.

(** [e.touches.item(0)]. *)
Definition first_touch (touches : list Point) : option Point := hd_error touches.

Definition onMouseDown (e : Point) (w : World) : World := _onStartDrag e w.

Definition onTouchStart (touches : list Point) (w : World) : World :=
  match first_touch touches with
  | Some touch => _onStartDrag touch w
  | None => w
  end.

(** A method run with the tracker as [this]; [None] where a mouse method
    gets a touch event or the reverse, which no registration above leads to. *)
Definition call_method (m : Method) (e : Event) (w : World) : option World :=
  match m, e with
  | _onMouseMove, MouseEvent p => Some (_onDrag p w)
  | _onMouseUp, MouseEvent p => Some (_onEndDrag p w)
  | _onTouchMove, TouchEvent touches =>
      match first_touch touches with
      | Some touch => Some (_onDrag touch w)
      | None => Some w
      end
  | _onTouchEnd, TouchEvent touches =>
      match first_touch touches with
      | Some touch => Some (_onEndDrag touch w)
      | None => Some w
      end
  | _, _ => None
  end.

(** A listener run by the document: a bound function has its [this]; the
    method itself would run without one and throw, which is [None]. *)
Definition invoke (l : Listener) (e : Event) (w : World) : option World :=
  match l with
  | Bound _ m => call_method m e w
  | Unbound _ => None
  end.

(** The listeners registered for the type when the event is dispatched run
    in the order of registration, each one only if it is still registered. *)
Fixpoint run_listeners (ty : EventType) (e : Event)
    (snapshot : list (EventType * Listener)) (w : World) : option World :=
  match snapshot with
  | [] => Some w
  | (ty', l) :: rest =>
      if EventType_eqb ty' ty && existsb (registered ty l) (listeners w) then
        match invoke l e w with
        | Some w' => run_listeners ty e rest w'
        | None => None
        end
      else run_listeners ty e rest w
  end.

Definition dispatch (ty : EventType) (e : Event) (w : World) : option World :=
  run_listeners ty e (listeners w) w.

(** What happens to the page: the element's handlers call [onMouseDown] or
    [onTouchStart], the document gets the other events. *)
Inductive Input : Type :=
| MouseDown (p : Point)
| TouchStart (touches : list Point)
| MouseMove (p : Point)
| MouseUp (p : Point)
| TouchMove (touches : list Point)
| TouchEnd (touches : list Point).

Definition step (w : World) (i : Input) : option World :=
  match i with
  | MouseDown p => Some (onMouseDown p w)
  | TouchStart touches => Some (onTouchStart touches w)
  | MouseMove p => dispatch mousemove (MouseEvent p) w
  | MouseUp p => dispatch mouseup (MouseEvent p) w
  | TouchMove touches => dispatch touchmove (TouchEvent touches) w
  | TouchEnd touches => dispatch touchend (TouchEvent touches) w
  end.

Fixpoint run (w : World) (inputs : list Input) : option World :=
  match inputs with
  | [] => Some w
  | i :: rest =>
      match step w i with
      | Some w' => run w' rest
      | None => None
      end
  end.

(** The inputs that start a drag. *)
Definition starts_drag (i : Input) : bool :=
  match i with
  | MouseDown _ => true
  | TouchStart (_ :: _) => true
  | _ => false
  end.

(** The method registered for each type of event. *)
Definition method_of (ty : EventType) : Method :=
  match ty with
  | mousemove => _onMouseMove
  | mouseup => _onMouseUp
  | touchmove => _onTouchMove
  | touchend => _onTouchEnd
  end.

(** Every listener of the document is a function that [_onStartDrag] has
    bound, registered for its own type of event. *)
Definition bound_listeners (w : World) : Prop :=
  Forall (fun e => exists n, n < binds w /\ snd e = Bound n (method_of (fst e)))
         (listeners w).

(** The number of listeners registered for [ty]. *)
Definition listeners_of (ty : EventType) (ls : list (EventType * Listener)) : nat :=
  length (filter (fun e => EventType_eqb (fst e) ty) ls).

End Tracker.

Arguments mkPoint {number} x y.
Arguments x {number} p.
Arguments y {number} p.
Arguments delta {number} minus final initial.
Arguments MouseEvent {number} client.
Arguments TouchEvent {number} touches.
Arguments mkMovable {number U} start current isDragging onChange.
Arguments start {number U} m.
Arguments current {number U} m.
Arguments isDragging {number U} m.
Arguments onChange {number U} m.
Arguments mkWorld {number U} movable listeners binds user.
Arguments movable {number U} w.
Arguments listeners {number U} w.
Arguments binds {number U} w.
Arguments user {number U} w.
Arguments new_world {number} zero {U} f u.
Arguments addEventListener {number U} ty l w.
Arguments removeEventListener {number U} ty l w.
Arguments bind_this {number U} m w.
Arguments set_movable {number U} m w.
Arguments _onStartDrag {number U} point w.
Arguments _onDrag {number} minus {U} point w.
Arguments _onEndDrag {number U} point w.
Arguments first_touch {number} touches.
Arguments onMouseDown {number U} e w.
Arguments onTouchStart {number U} touches w.
Arguments call_method {number} minus {U} m e w.
Arguments invoke {number} minus {U} l e w.
Arguments run_listeners {number} minus {U} ty e snapshot w.
Arguments dispatch {number} minus {U} ty e w.
Arguments MouseDown {number} p.
Arguments TouchStart {number} touches.
Arguments MouseMove {number} p.
Arguments MouseUp {number} p.
Arguments TouchMove {number} touches.
Arguments TouchEnd {number} touches.
Arguments step {number} minus {U} w i.
Arguments run {number} minus {U} w inputs.
Arguments starts_drag {number} i.
Arguments bound_listeners {number U} w.
Arguments listeners_of ty ls : simpl never.

End Drag.

(** * Properties *)

(** ** References *)

Lemma deref_app (t : CDockLayoutItem) (r1 r2 : Ref) :
  deref t (r1 ++ r2) =
  match deref t r1 with
  | Some u => deref u r2
  | None => None
  end.
Proof.
  revert t; induction r1 as [|slot r1 IH]; intros t; simpl; [reflexivity|].
  destruct t as [|i p s d z]; [reflexivity|].
  destruct slot; apply IH.
Qed.

Lemma assign_app (t u v : CDockLayoutItem) (r1 r2 : Ref) :
  deref t r1 = Some u ->
  assign t (r1 ++ r2) v = assign t r1 (assign u r2 v).
Proof.
  revert t; induction r1 as [|slot r1 IH]; intros t H; simpl in *.
  - injection H as ->. reflexivity.
  - destruct t as [|i p s d z]; [discriminate|].
    destruct slot; rewrite (IH _ H); reflexivity.
Qed.

Lemma deref_assign (t u v : CDockLayoutItem) (r : Ref) :
  deref t r = Some u -> deref (assign t r v) r = Some v.
Proof.
  revert t; induction r as [|slot r IH]; intros t H; simpl in *; [reflexivity|].
  destruct t as [|i p s d z]; [discriminate|].
  destruct slot; simpl; apply IH, H.
Qed.

Lemma assign_assign (t v w : CDockLayoutItem) (r : Ref) :
  assign (assign t r v) r w = assign t r w.
Proof.
  revert t; induction r as [|slot r IH]; intros t; simpl; [reflexivity|].
  destruct t as [|i p s d z]; [reflexivity|].
  destruct slot; simpl; rewrite IH; reflexivity.
Qed.

Lemma assign_deref (t u : CDockLayoutItem) (r : Ref) :
  deref t r = Some u -> assign t r u = t.
Proof.
  revert t; induction r as [|slot r IH]; intros t H; simpl in *.
  - injection H as ->. reflexivity.
  - destruct t as [|i p s d z]; [discriminate|].
    destruct slot; rewrite (IH _ H); reflexivity.
Qed.

(** ** Node ids *)

Lemma item_id_in_ids (t : CDockLayoutItem) : In (item_id t) (ids t).
Proof. destruct t; simpl; auto. Qed.

Lemma deref_ids (t u : CDockLayoutItem) (r : Ref) :
  deref t r = Some u -> incl (ids u) (ids t).
Proof.
  revert t; induction r as [|slot r IH]; intros t H; simpl in *.
  - injection H as ->. apply incl_refl.
  - destruct t as [|i p s d z]; [discriminate|].
    destruct slot; intros x Hx; simpl; right; apply in_or_app;
      [left|right]; apply (IH _ H), Hx.
Qed.

Lemma deref_NoDup (t u : CDockLayoutItem) (r : Ref) :
  deref t r = Some u -> NoDup (ids t) -> NoDup (ids u).
Proof.
  revert t; induction r as [|slot r IH]; intros t H ND; simpl in *.
  - injection H as ->. exact ND.
  - destruct t as [|i p s d z]; [discriminate|].
    simpl in ND. apply NoDup_cons_iff in ND as [_ ND].
    destruct slot; apply (IH _ H).
    + eapply NoDup_app_remove_r, ND.
    + eapply NoDup_app_remove_l, ND.
Qed.

(** Ids of a tree after an assignment: those of the new subtree, and those
    of the old tree outside the subtree replaced. *)
Lemma ids_assign_in (t u v : CDockLayoutItem) (r : Ref) (x : string) :
  deref t r = Some u ->
  In x (ids (assign t r v)) -> In x (ids v) \/ In x (ids t).
Proof.
  revert t; induction r as [|slot r IH]; intros t H Hx; simpl in *; [auto|].
  destruct t as [|i p s d z]; [discriminate|].
  destruct slot; simpl in Hx; destruct Hx as [Hx|Hx]; simpl; auto;
    apply in_app_or in Hx as [Hx|Hx]; auto.
  - destruct (IH _ H Hx); auto using in_or_app.
  - auto using in_or_app.
  - auto using in_or_app.
  - destruct (IH _ H Hx); auto using in_or_app.
Qed.

Lemma NoDup_app_intro (A : Type) (l1 l2 : list A) :
  NoDup l1 -> NoDup l2 -> (forall x, In x l1 -> ~ In x l2) -> NoDup (l1 ++ l2).
Proof.
  induction l1 as [|a l1 IH]; intros N1 N2 D; simpl; [exact N2|].
  apply NoDup_cons_iff in N1 as [Ha N1].
  constructor.
  - intros Hin. apply in_app_or in Hin as [Hin|Hin]; [auto|].
    apply (D a); simpl; auto.
  - apply IH; auto. intros x Hx. apply D. simpl; auto.
Qed.

Lemma NoDup_app_disjoint (A : Type) (l1 l2 : list A) (x : A) :
  NoDup (l1 ++ l2) -> In x l1 -> ~ In x l2.
Proof.
  induction l1 as [|a l1 IH]; simpl; intros N H1 H2; [contradiction|].
  apply NoDup_cons_iff in N as [Ha N].
  destruct H1 as [->|H1].
  - apply Ha, in_or_app; auto.
  - exact (IH N H1 H2).
Qed.

(** Replacing a subtree by one whose ids are ids of the subtree replaced, or
    not ids of the tree at all, keeps the ids unique. *)
Lemma NoDup_assign (t u v : CDockLayoutItem) (r : Ref) :
  deref t r = Some u ->
  NoDup (ids t) ->
  NoDup (ids v) ->
  (forall x, In x (ids v) -> In x (ids u) \/ ~ In x (ids t)) ->
  NoDup (ids (assign t r v)).
Proof.
  revert t; induction r as [|slot r IH]; intros t H ND NV Hv; simpl in *; [exact NV|].
  destruct t as [|i p s d z]; [discriminate|].
  simpl in ND. pose proof ND as ND0.
  apply NoDup_cons_iff in ND as [Hi ND].
  pose proof (NoDup_app_remove_r _ _ ND) as NP.
  pose proof (NoDup_app_remove_l _ _ ND) as NS.
  assert (Hsub : incl (ids u) (ids (match slot with Primary => p | Secondary => s end)))
    by (destruct slot; eapply deref_ids; eauto).
  destruct slot; simpl; constructor.
  - intros Hin. apply in_app_or in Hin as [Hin|Hin].
    + destruct (ids_assign_in _ _ _ _ _ H Hin) as [Hin'|Hin'].
      * destruct (Hv _ Hin') as [Hu|Hn].
        -- apply Hi, in_or_app; left; apply Hsub, Hu.
        -- apply Hn; simpl; auto.
      * apply Hi, in_or_app; auto.
    + apply Hi, in_or_app; auto.
  - apply NoDup_app_intro; auto.
    + apply (IH p H NP NV). intros x Hx. destruct (Hv x Hx) as [Hu|Hn]; auto.
      right. intros C. apply Hn. simpl. right. apply in_or_app; auto.
    + intros x Hx Hs. destruct (ids_assign_in _ _ _ _ _ H Hx) as [Hin'|Hin'].
      * destruct (Hv _ Hin') as [Hu|Hn].
        -- apply (NoDup_app_disjoint _ _ _ x ND); auto.
        -- apply Hn. simpl. right. apply in_or_app; auto.
      * apply (NoDup_app_disjoint _ _ _ x ND); auto.
  - intros Hin. apply in_app_or in Hin as [Hin|Hin].
    + apply Hi, in_or_app; auto.
    + destruct (ids_assign_in _ _ _ _ _ H Hin) as [Hin'|Hin'].
      * destruct (Hv _ Hin') as [Hu|Hn].
        -- apply Hi, in_or_app; right; apply Hsub, Hu.
        -- apply Hn; simpl; auto.
      * apply Hi, in_or_app; auto.
  - apply NoDup_app_intro; auto.
    + apply (IH s H NS NV). intros x Hx. destruct (Hv x Hx) as [Hu|Hn]; auto.
      right. intros C. apply Hn. simpl. right. apply in_or_app; auto.
    + intros x Hx Hs. destruct (ids_assign_in _ _ _ _ _ H Hs) as [Hin'|Hin'].
      * destruct (Hv _ Hin') as [Hu|Hn].
        -- apply (NoDup_app_disjoint _ _ _ x ND Hx); auto.
        -- apply Hn. simpl. right. apply in_or_app; auto.
      * apply (NoDup_app_disjoint _ _ _ x ND Hx); auto.
Qed.

(** ** The locate operations *)

Lemma parent_ref_step (here : Ref) (pa : option Ref) (slot : Slot) (r : Ref) :
  parent_ref (here ++ [slot]) (Some here) r = parent_ref here pa (slot :: r).
Proof.
  destruct r as [|slot' r]; simpl.
  - rewrite app_nil_r. reflexivity.
  - rewrite <- app_assoc. reflexivity.
Qed.

Lemma findLayoutItem_absent (x : string) (t : CDockLayoutItem) :
  ~ In x (ids t) ->
  forall here pa gp, _findLayoutItem x t here pa gp = (None, None, None).
Proof.
  induction t as [i fs|i p IHp s IHs d z]; intros Hx here pa gp; simpl in *.
  - destruct (String.eqb_spec x i) as [->|]; [exfalso; auto | reflexivity].
  - destruct (String.eqb_spec x i) as [->|]; [exfalso; auto|].
    rewrite IHp, IHs by (intros C; apply Hx; right; apply in_or_app; auto).
    reflexivity.
Qed.

(** What [_findLayoutItem] returns is an object with the id searched, and
    its parent. *)
Lemma findLayoutItem_sound (x : string) (t : CDockLayoutItem) :
  forall here pa gp f pa' gp',
    _findLayoutItem x t here pa gp = (Some f, pa', gp') ->
    exists r u, f = here ++ r /\ deref t r = Some u /\ item_id u = x
                /\ pa' = parent_ref here pa r.
Proof.
  induction t as [i fs|i p IHp s IHs d z]; intros here pa gp f pa' gp' H; simpl in H.
  - destruct (String.eqb_spec x i) as [->|]; [|discriminate].
    injection H as <- <- <-. exists [], (CDockPanel i fs).
    rewrite app_nil_r. auto.
  - destruct (String.eqb_spec x i) as [->|].
    + injection H as <- <- <-. exists [], (CDockSplitter i p s d z).
      rewrite app_nil_r. auto.
    + destruct (_findLayoutItem x p (primary_of here) (Some here) pa)
        as [[f1 pa1] gp1] eqn:E1.
      destruct f1 as [f1|].
      * injection H as <- <- <-.
        destruct (IHp _ _ _ _ _ _ E1) as (r & u & -> & Hd & Hi & ->).
        exists (Primary :: r), u. unfold primary_of.
        rewrite <- app_assoc, (parent_ref_step here pa). auto.
      * destruct (_findLayoutItem x s (secondary_of here) (Some here) pa)
          as [[f2 pa2] gp2] eqn:E2.
        destruct f2 as [f2|]; [|discriminate].
        injection H as <- <- <-.
        destruct (IHs _ _ _ _ _ _ E2) as (r & u & -> & Hd & Hi & ->).
        exists (Secondary :: r), u. unfold secondary_of.
        rewrite <- app_assoc, (parent_ref_step here pa). auto.
Qed.

Lemma findLayoutItem_none (x : string) (t : CDockLayoutItem) :
  forall here pa gp pa' gp',
    _findLayoutItem x t here pa gp = (None, pa', gp') -> ~ In x (ids t).
Proof.
  induction t as [i fs|i p IHp s IHs d z]; intros here pa gp pa' gp' H; simpl in *.
  - destruct (String.eqb_spec x i) as [->|]; [discriminate|].
    intros [C|[]]; auto.
  - destruct (String.eqb_spec x i) as [->|]; [discriminate|].
    destruct (_findLayoutItem x p (primary_of here) (Some here) pa)
      as [[f1 pa1] gp1] eqn:E1.
    destruct f1 as [f1|]; [discriminate|].
    destruct (_findLayoutItem x s (secondary_of here) (Some here) pa)
      as [[f2 pa2] gp2] eqn:E2.
    destruct f2 as [f2|]; [discriminate|].
    intros [C|C]; [auto|].
    apply in_app_or in C as [C|C]; [eapply IHp | eapply IHs]; eauto.
Qed.

(** With unique ids the object found is the one that has the id. *)
Lemma findLayoutItem_unique (t u : CDockLayoutItem) (r : Ref) :
  NoDup (ids t) ->
  deref t r = Some u ->
  forall here pa gp, exists g,
    _findLayoutItem (item_id u) t here pa gp
    = (Some (here ++ r), parent_ref here pa r, g).
Proof.
  revert t; induction r as [|slot r IH]; intros t ND H here pa gp; simpl in H.
  - injection H as ->. exists gp.
    destruct u; simpl; rewrite String.eqb_refl, app_nil_r; reflexivity.
  - destruct t as [|i p s d z]; [discriminate|].
    simpl in ND. apply NoDup_cons_iff in ND as [Hi ND].
    assert (Hin : In (item_id u) (ids (match slot with Primary => p | Secondary => s end))).
    { destruct slot; eapply deref_ids; eauto using item_id_in_ids. }
    simpl.
    destruct (String.eqb_spec (item_id u) i) as [E|_].
    { exfalso. apply Hi. rewrite <- E. apply in_or_app.
      destruct slot; auto. }
    destruct slot.
    + destruct (IH p (NoDup_app_remove_r _ _ ND) H (primary_of here) (Some here) pa)
        as [g Hg].
      rewrite Hg. exists g. unfold primary_of.
      rewrite <- app_assoc, (parent_ref_step here pa). reflexivity.
    + rewrite findLayoutItem_absent.
      2:{ intros C. exact (NoDup_app_disjoint _ _ _ _ ND C Hin). }
      destruct (IH s (NoDup_app_remove_l _ _ ND) H (secondary_of here) (Some here) pa)
        as [g Hg].
      rewrite Hg. exists g. unfold secondary_of.
      rewrite <- app_assoc, (parent_ref_step here pa). reflexivity.
Qed.

Lemma findForm_sound (formId : string) (t : CDockLayoutItem) :
  forall here form panel,
    _findForm formId t here = (Some form, panel) ->
    exists r i fs, panel = Some (here ++ r)
                   /\ deref t r = Some (CDockPanel i fs)
                   /\ find (has_id formId) fs = Some form.
Proof.
  induction t as [i fs|i p IHp s IHs d z]; intros here form panel H; simpl in H.
  - fold (has_id formId) in H.
    destruct (find (has_id formId) fs) as [f|] eqn:E; [|discriminate].
    injection H as <- <-. exists [], i, fs. rewrite app_nil_r. auto.
  - destruct (_findForm formId p (primary_of here)) as [f1 p1] eqn:E1.
    destruct f1 as [f1|].
    + injection H as <- <-.
      destruct (IHp _ _ _ E1) as (r & j & fs & -> & Hd & Hf).
      exists (Primary :: r), j, fs. unfold primary_of. rewrite <- app_assoc. auto.
    + destruct (_findForm formId s (secondary_of here)) as [f2 p2] eqn:E2.
      destruct f2 as [f2|]; [|discriminate].
      injection H as <- <-.
      destruct (IHs _ _ _ E2) as (r & j & fs & -> & Hd & Hf).
      exists (Secondary :: r), j, fs. unfold secondary_of. rewrite <- app_assoc. auto.
Qed.

Lemma findForm_none (formId : string) (t : CDockLayoutItem) :
  forall here panel,
    _findForm formId t here = (None, panel) -> panel = None.
Proof.
  induction t as [i fs|i p IHp s IHs d z]; intros here panel H; simpl in H.
  - destruct (find _ fs); [discriminate|]. injection H as <-. reflexivity.
  - destruct (_findForm formId p (primary_of here)) as [f1 p1].
    destruct f1 as [f1|]; [discriminate|].
    destruct (_findForm formId s (secondary_of here)) as [f2 p2].
    destruct f2 as [f2|]; [discriminate|].
    injection H as <-. reflexivity.
Qed.

(** ** The reclamation pass collapses the tree *)

Lemma collapse_ids (t : CDockLayoutItem) : incl (ids (collapse t)) (ids t).
Proof.
  induction t as [i fs|i p IHp s IHs d z]; simpl; [apply incl_refl|].
  destruct (is_empty_panel (collapse p)).
  - intros x Hx. right. apply in_or_app. right. apply IHs, Hx.
  - destruct (is_empty_panel (collapse s)).
    + intros x Hx. right. apply in_or_app. left. apply IHp, Hx.
    + intros x [Hx|Hx]; [left; exact Hx|]. right.
      apply in_app_or in Hx as [Hx|Hx]; apply in_or_app; auto.
Qed.

Lemma collapse_NoDup (t : CDockLayoutItem) :
  NoDup (ids t) -> NoDup (ids (collapse t)).
Proof.
  induction t as [i fs|i p IHp s IHs d z]; simpl; intros ND; [exact ND|].
  apply NoDup_cons_iff in ND as [Hi ND].
  pose proof (IHp (NoDup_app_remove_r _ _ ND)) as NP.
  pose proof (IHs (NoDup_app_remove_l _ _ ND)) as NS.
  destruct (is_empty_panel (collapse p)); [exact NS|].
  destruct (is_empty_panel (collapse s)); [exact NP|].
  simpl. constructor.
  - intros C. apply Hi.
    apply in_app_or in C as [C|C]; apply in_or_app;
      [left; apply collapse_ids, C | right; apply collapse_ids, C].
  - apply NoDup_app_intro; auto.
    intros x Hx Hs.
    exact (NoDup_app_disjoint _ _ _ x ND (collapse_ids _ _ Hx) (collapse_ids _ _ Hs)).
Qed.

Lemma collapse_panel_child (t : CDockLayoutItem) :
  item_type t = Panel -> collapse t = t.
Proof. destruct t; [reflexivity | discriminate]. Qed.

(** [_replace] on the object at [r]: the parent slot that leads to [r] is
    assigned, and at the root the replacement is returned. *)
Lemma replace_at (t u v : CDockLayoutItem) (r : Ref) :
  NoDup (ids t) ->
  deref t r = Some u ->
  _replace t u v =
  match r with
  | [] => (t, v)
  | _ :: _ => (assign t r v, assign t r v)
  end.
Proof.
  intros ND H. unfold _replace.
  destruct (findLayoutItem_unique t u r ND H [] None None) as [g Hg].
  rewrite Hg. simpl app.
  destruct r as [|slot0 r0]; [reflexivity|].
  destruct (exists_last (l := slot0 :: r0)) as (q & slot & E); [discriminate|].
  rewrite E in *. clear E slot0 r0.
  assert (Hp : parent_ref [] None (q ++ [slot]) = Some q).
  { destruct (q ++ [slot]) eqn:E; [destruct q; discriminate|].
    cbv beta iota delta [parent_ref]. rewrite <- E, removelast_last. reflexivity. }
  rewrite Hp, H.
  rewrite deref_app in H.
  destruct (deref t q) as [w|] eqn:Hq; [|discriminate].
  pose proof (deref_NoDup _ _ _ Hq ND) as NW.
  destruct w as [|j pp ps dd zz]; [destruct slot; discriminate|].
  simpl in NW. apply NoDup_cons_iff in NW as [_ NW].
  destruct slot; simpl in H; injection H as ->.
  - rewrite String.eqb_refl. reflexivity.
  - destruct (String.eqb_spec (item_id u) (item_id pp)) as [E|_].
    + exfalso.
      apply (NoDup_app_disjoint _ _ _ (item_id pp) NW (item_id_in_ids pp)).
      rewrite <- E. apply item_id_in_ids.
    + rewrite String.eqb_refl. reflexivity.
Qed.

(** The pass started at the object at [r]: the subtree at [r] is collapsed
    in place; started at the root, the collapsed tree is what is returned. *)
Lemma occupyFreeSpace_collapse (fuel : nat) :
  forall (t u : CDockLayoutItem) (r : Ref),
    NoDup (ids t) ->
    deref t r = Some u ->
    height u < fuel ->
    exists heap ret,
      _occupyFreeSpace fuel t r = Some (heap, ret)
      /\ (r <> [] -> heap = assign t r (collapse u))
      /\ (r = [] -> ret = collapse u).
Proof.
  induction fuel as [|fuel IH]; intros t u r ND H Hh; [lia|].
  simpl. rewrite H.
  destruct u as [i fs|i p s d z].
  { exists t, t. split; [reflexivity|]. split.
    - intros _. symmetry. apply assign_deref, H.
    - intros ->. simpl in H. injection H as ->. reflexivity. }
  simpl in Hh.
  assert (Hdp : deref t (primary_of r) = Some p).
  { unfold primary_of. rewrite deref_app, H. reflexivity. }
  set (t1 := assign t (primary_of r) (collapse p)).
  assert (E1 : match item_type p with
               | Splitter => option_map fst (_occupyFreeSpace fuel t (primary_of r))
               | Panel => Some t
               end = Some t1).
  { destruct (item_type p) eqn:Ty.
    - destruct (IH t p (primary_of r) ND Hdp ltac:(lia)) as (h & ret & -> & Hh1 & _).
      simpl. rewrite Hh1; [reflexivity|]. unfold primary_of. destruct r; discriminate.
    - unfold t1. rewrite (collapse_panel_child _ Ty), (assign_deref _ _ _ Hdp).
      reflexivity. }
  rewrite E1. clear E1.
  assert (T1 : t1 = assign t r (CDockSplitter i (collapse p) s d z)).
  { unfold t1, primary_of. rewrite (assign_app _ _ _ _ _ H). reflexivity. }
  assert (N1 : NoDup (ids t1)).
  { unfold t1. apply (NoDup_assign _ _ _ _ Hdp ND).
    - apply collapse_NoDup. exact (deref_NoDup _ _ _ Hdp ND).
    - intros x Hx. left. apply collapse_ids, Hx. }
  assert (H1 : deref t1 r = Some (CDockSplitter i (collapse p) s d z)).
  { rewrite T1. apply (deref_assign _ _ _ _ H). }
  rewrite H1.
  assert (Hds : deref t1 (secondary_of r) = Some s).
  { unfold secondary_of. rewrite deref_app, H1. reflexivity. }
  set (t2 := assign t1 (secondary_of r) (collapse s)).
  assert (E2 : match item_type s with
               | Splitter => option_map fst (_occupyFreeSpace fuel t1 (secondary_of r))
               | Panel => Some t1
               end = Some t2).
  { destruct (item_type s) eqn:Ty.
    - destruct (IH t1 s (secondary_of r) N1 Hds ltac:(lia)) as (h & ret & -> & Hh1 & _).
      simpl. rewrite Hh1; [reflexivity|]. unfold secondary_of. destruct r; discriminate.
    - unfold t2. rewrite (collapse_panel_child _ Ty), (assign_deref _ _ _ Hds).
      reflexivity. }
  rewrite E2. clear E2.
  assert (T2 : t2 = assign t r (CDockSplitter i (collapse p) (collapse s) d z)).
  { unfold t2, secondary_of. rewrite (assign_app _ _ _ _ _ H1). simpl.
    rewrite T1, assign_assign. reflexivity. }
  assert (N2 : NoDup (ids t2)).
  { unfold t2. apply (NoDup_assign _ _ _ _ Hds N1).
    - apply collapse_NoDup. exact (deref_NoDup _ _ _ Hds N1).
    - intros x Hx. left. apply collapse_ids, Hx. }
  assert (H2 : deref t2 r = Some (CDockSplitter i (collapse p) (collapse s) d z)).
  { rewrite T2. apply (deref_assign _ _ _ _ H). }
  rewrite H2.
  assert (A2 : forall v, assign t2 r v = assign t r v).
  { intros v. rewrite T2. apply assign_assign. }
  assert (R0 : r = [] -> t2 = CDockSplitter i (collapse p) (collapse s) d z).
  { intros ->. rewrite T2. reflexivity. }
  cbn [collapse].
  destruct (collapse p) as [ip [|f fp]|ip pp ps dp zp] eqn:Ep; simpl is_empty_panel.
  - rewrite (replace_at _ _ _ _ N2 H2).
    destruct r as [|slot r]; eexists _, _; (split; [reflexivity|]); split;
      try congruence; intros _; auto.
  - destruct (collapse s) as [js [|f' fs']|js sp ss ds zs] eqn:Es; simpl is_empty_panel.
    + rewrite (replace_at _ _ _ _ N2 H2).
      destruct r as [|slot r]; eexists _, _; (split; [reflexivity|]); split;
        try congruence; intros _; auto.
    + eexists _, _; (split; [reflexivity|]); split; auto.
    + eexists _, _; (split; [reflexivity|]); split; auto.
  - destruct (collapse s) as [js [|f' fs']|js sp ss ds zs] eqn:Es; simpl is_empty_panel.
    + rewrite (replace_at _ _ _ _ N2 H2).
      destruct r as [|slot r]; eexists _, _; (split; [reflexivity|]); split;
        try congruence; intros _; auto.
    + eexists _, _; (split; [reflexivity|]); split; auto.
    + eexists _, _; (split; [reflexivity|]); split; auto.
Qed.

(** [_occupyFreeSpace(root, root)] returns the collapsed tree. *)
Lemma reclaim_from_root_collapse (t : CDockLayoutItem) :
  NoDup (ids t) -> reclaim_from_root t = Some (collapse t).
Proof.
  intros ND. unfold reclaim_from_root.
  destruct (occupyFreeSpace_collapse (S (height t)) t t [] ND eq_refl ltac:(lia))
    as (h & ret & -> & _ & Hr).
  simpl. rewrite Hr; reflexivity.
Qed.

(** ** What collapsing keeps *)

Lemma collapse_settled (t : CDockLayoutItem) : settled (collapse t) = true.
Proof.
  induction t as [i fs|i p IHp s IHs d z]; simpl; [reflexivity|].
  destruct (is_empty_panel (collapse p)) eqn:Ep; [exact IHs|].
  destruct (is_empty_panel (collapse s)) eqn:Es; [exact IHp|].
  simpl. rewrite Ep, Es, IHp, IHs. reflexivity.
Qed.

Lemma settled_collapse (t : CDockLayoutItem) : settled t = true -> collapse t = t.
Proof.
  induction t as [i fs|i p IHp s IHs d z]; simpl; intros H; [reflexivity|].
  apply andb_prop in H as [H Hs]. apply andb_prop in H as [H Hp].
  apply andb_prop in H as [Ep Es].
  rewrite (IHp Hp), (IHs Hs).
  apply negb_true_iff in Ep, Es. rewrite Ep, Es. reflexivity.
Qed.

Lemma collapse_idempotent (t : CDockLayoutItem) :
  collapse (collapse t) = collapse t.
Proof. apply settled_collapse, collapse_settled. Qed.

Lemma settled_panels (t : CDockLayoutItem) :
  settled t = true -> is_empty_panel t = false ->
  forallb has_forms (panels t) = true.
Proof.
  induction t as [i fs|i p IHp s IHs d z]; simpl; intros H E.
  - destruct fs; [discriminate | reflexivity].
  - apply andb_prop in H as [H Hs]. apply andb_prop in H as [H Hp].
    apply andb_prop in H as [Ep Es]. apply negb_true_iff in Ep, Es.
    rewrite forallb_app, (IHp Hp Ep), (IHs Hs Es). reflexivity.
Qed.

Lemma settled_no_empty_panel (t : CDockLayoutItem) :
  settled t = true -> no_empty_panel t = true.
Proof.
  destruct t as [i fs|i p s d z]; intros H; [reflexivity|].
  unfold no_empty_panel. apply settled_panels; [exact H | reflexivity].
Qed.

Lemma is_empty_panel_panels (t : CDockLayoutItem) :
  is_empty_panel t = true -> filter has_forms (panels t) = [].
Proof. destruct t as [i [|f fs]|]; simpl; [reflexivity | discriminate ..]. Qed.

(** The panels that hold forms are the same before and after, in the same
    order and with the same lists of forms. *)
Lemma collapse_panels (t : CDockLayoutItem) :
  filter has_forms (panels (collapse t)) = filter has_forms (panels t).
Proof.
  induction t as [i fs|i p IHp s IHs d z]; simpl; [reflexivity|].
  rewrite filter_app, <- IHp, <- IHs.
  destruct (is_empty_panel (collapse p)) eqn:Ep.
  { rewrite (is_empty_panel_panels _ Ep). reflexivity. }
  destruct (is_empty_panel (collapse s)) eqn:Es.
  { rewrite (is_empty_panel_panels _ Es), app_nil_r. reflexivity. }
  simpl. apply filter_app.
Qed.

Lemma collapse_panels_incl (t : CDockLayoutItem) :
  incl (panels (collapse t)) (panels t).
Proof.
  induction t as [i fs|i p IHp s IHs d z]; simpl; [apply incl_refl|].
  destruct (is_empty_panel (collapse p)); [apply incl_appr, IHs|].
  destruct (is_empty_panel (collapse s)); [apply incl_appl, IHp|].
  simpl. apply incl_app; [apply incl_appl, IHp | apply incl_appr, IHs].
Qed.

Lemma concat_filter_has_forms (l : list (string * list CDockForm)) :
  concat (map snd (filter has_forms l)) = concat (map snd l).
Proof.
  induction l as [|[i fs] l IH]; simpl; [reflexivity|].
  unfold has_forms at 1. simpl.
  destruct fs as [|f fs]; simpl; rewrite IH; reflexivity.
Qed.

Lemma collapse_all_forms (t : CDockLayoutItem) :
  all_forms (collapse t) = all_forms t.
Proof.
  unfold all_forms.
  rewrite <- (concat_filter_has_forms (panels (collapse t))), collapse_panels.
  apply concat_filter_has_forms.
Qed.

(** ** Claims on the reclamation pass *)

(** C5. Free-space reclamation is idempotent: on every tree (node ids
    unique, as in the data model) the pass returns a tree, and the pass
    applied to that tree returns the same tree again. *)
Theorem occupyFreeSpace_idempotent (t : CDockLayoutItem) :
  NoDup (ids t) ->
  exists once,
    reclaim_from_root t = Some once /\ reclaim_from_root once = Some once.
Proof.
  intros ND. exists (collapse t). split.
  - apply reclaim_from_root_collapse, ND.
  - rewrite (reclaim_from_root_collapse _ (collapse_NoDup _ ND)).
    rewrite collapse_idempotent. reflexivity.
Qed.

(** An assignment below one child of a splitter leaves what is reached
    through the other child, and the own fields of the objects above. *)
Lemma deref_assign_diverge (t v : CDockLayoutItem) (q x y : Ref) (a b : Slot) :
  a <> b ->
  deref (assign t (q ++ a :: x) v) (q ++ b :: y) = deref t (q ++ b :: y).
Proof.
  intros Hab. revert t; induction q as [|slot q IH]; intros t; simpl.
  - destruct t as [|i p s d z]; [reflexivity|].
    destruct a, b; try congruence; reflexivity.
  - destruct t as [|i p s d z]; [reflexivity|].
    destruct slot; simpl; apply IH.
Qed.

Lemma own_fields_assign_above (t v : CDockLayoutItem) (q x : Ref) :
  x <> [] ->
  option_map own_fields (deref (assign t (q ++ x) v) q)
  = option_map own_fields (deref t q).
Proof.
  intros Hx. revert t; induction q as [|slot q IH]; intros t; simpl.
  - destruct x as [|slot x]; [congruence|].
    destruct t as [|i p s d z]; [reflexivity|]. destruct slot; reflexivity.
  - destruct t as [|i p s d z]; [reflexivity|].
    destruct slot; simpl; apply IH.
Qed.

(** C6. A splitter whose two children are both empty panels gives way to
    its secondary child: the primary-empty branch is the one taken.  At the
    root nothing is assigned and the secondary child is returned as the new
    root.  Below the root the root is returned, the place of the splitter
    holds the secondary child, whatever is reached from the root without
    passing that place is as it was, and the objects above that place keep
    their id, direction and size. *)
Theorem occupyFreeSpace_both_empty_primary_first
    (fuel : nat) (t : CDockLayoutItem) (r : Ref)
    (i i1 i2 : string) (d : DockLayoutDirection) (z : Z) :
  NoDup (ids t) ->
  deref t r = Some (CDockSplitter i (CDockPanel i1 []) (CDockPanel i2 []) d z) ->
  exists heap returned,
    _occupyFreeSpace (S fuel) t r = Some (heap, returned)
    /\ (heap, returned)
       = _replace t (CDockSplitter i (CDockPanel i1 []) (CDockPanel i2 []) d z)
                  (CDockPanel i2 [])
    /\ i1 <> i2
    /\ match r with
       | [] => heap = t /\ returned = CDockPanel i2 []
       | _ :: _ =>
           returned = heap
           /\ deref heap r = Some (CDockPanel i2 [])
           /\ (forall (q x y : Ref) (a b : Slot),
                  r = q ++ a :: x -> a <> b ->
                  deref heap (q ++ b :: y) = deref t (q ++ b :: y))
           /\ (forall q x : Ref,
                  r = q ++ x -> x <> [] ->
                  option_map own_fields (deref heap q)
                  = option_map own_fields (deref t q))
       end.
Proof.
  intros ND H.
  pose proof (replace_at t _ (CDockPanel i2 []) r ND H) as Hrep.
  assert (Hrun : _occupyFreeSpace (S fuel) t r
                 = Some (_replace t (CDockSplitter i (CDockPanel i1 [])
                                                   (CDockPanel i2 []) d z)
                                  (CDockPanel i2 []))).
  { simpl. rewrite H. simpl. rewrite H. simpl. rewrite H. reflexivity. }
  assert (Hne : i1 <> i2).
  { pose proof (deref_NoDup _ _ _ H ND) as N. simpl in N.
    inversion N as [|? ? _ N']; subst. inversion N' as [|? ? Hin _]; subst.
    intros ->. apply Hin. left. reflexivity. }
  destruct r as [|slot r0].
  - exists t, (CDockPanel i2 []). rewrite Hrun, Hrep. auto.
  - exists (assign t (slot :: r0) (CDockPanel i2 [])),
           (assign t (slot :: r0) (CDockPanel i2 [])).
    rewrite Hrun, Hrep.
    split; [reflexivity|]. split; [reflexivity|]. split; [exact Hne|].
    split; [reflexivity|].
    split; [exact (deref_assign _ _ _ _ H)|]. split.
    + intros q x y a b -> Hab. apply deref_assign_diverge, Hab.
    + intros q x -> Hx. apply own_fields_assign_above, Hx.
Qed.

(** C10. The reclamation pass keeps every form: the forms reachable from
    the root are the same before and after, every panel of the result is a
    panel of the input with the same list of forms, and the panels that hold
    forms are all kept, in order. *)
Theorem occupyFreeSpace_preserves_forms (t : CDockLayoutItem) :
  NoDup (ids t) ->
  exists t',
    reclaim_from_root t = Some t'
    /\ Permutation (all_forms t') (all_forms t)
    /\ incl (panels t') (panels t)
    /\ filter has_forms (panels t') = filter has_forms (panels t).
Proof.
  intros ND. exists (collapse t). split; [apply reclaim_from_root_collapse, ND|].
  split; [rewrite collapse_all_forms; apply Permutation_refl|].
  split; [apply collapse_panels_incl | apply collapse_panels].
Qed.

(** ** Assignments that keep the ids *)

Lemma ids_assign_same (t u v : CDockLayoutItem) (r : Ref) :
  deref t r = Some u -> ids v = ids u -> ids (assign t r v) = ids t.
Proof.
  revert t; induction r as [|slot r IH]; intros t H E; simpl in *.
  - injection H as ->. exact E.
  - destruct t as [|i p s d z]; [discriminate|].
    destruct slot; simpl; rewrite (IH _ H E); reflexivity.
Qed.

Lemma ids_set_forms (t : CDockLayoutItem) (r : Ref) (fs : list CDockForm) :
  ids (set_forms t r fs) = ids t.
Proof.
  unfold set_forms. destruct (deref t r) as [[i fs0|]|] eqn:H; try reflexivity.
  apply (ids_assign_same _ _ _ _ H). reflexivity.
Qed.

Lemma findLayoutItem_absent_iff (x : string) (t : CDockLayoutItem) :
  fst (fst (_findLayoutItem x t [] None None)) = None <-> ~ In x (ids t).
Proof.
  split.
  - destruct (_findLayoutItem x t [] None None) as [[f pa] gp] eqn:E. simpl.
    intros ->. eapply findLayoutItem_none, E.
  - intros H. rewrite findLayoutItem_absent by exact H. reflexivity.
Qed.

(** ** Unresolved form ids *)

Lemma split_form_not_found (st : DockStore) (formId destPanelId : string)
    (direction : DockLayoutDirection) :
  fst (_findForm formId (layout st) []) = None ->
  useDockManager.split st formId destPanelId direction = Some (Return st).
Proof.
  unfold useDockManager.split.
  destruct (_findForm formId (layout st) []) as [form panel]. simpl.
  intros ->. reflexivity.
Qed.

Lemma stack_form_not_found (st : DockStore) (formId panelId : string) :
  fst (_findForm formId (layout st) []) = None ->
  useDockManager.stack st formId panelId = Some (Return st).
Proof.
  unfold useDockManager.stack.
  destruct (_findForm formId (layout st) []) as [form panel]. simpl.
  intros ->.
  destruct (_findLayoutItem panelId (layout st) [] None None) as [[dest pa] gp].
  destruct st; reflexivity.
Qed.

Lemma splitPanel_form_not_found (c : nat) (root : CDockLayoutItem)
    (formId destPanelId : string) (direction : DockLayoutDirection) :
  fst (_findForm formId root []) = None ->
  CDockManager.splitPanel c root formId destPanelId direction
  = Some (Return (root, c)).
Proof.
  unfold CDockManager.splitPanel, CDockManager._extractForm.
  destruct (_findForm formId root []) as [form panel]. simpl.
  intros ->. reflexivity.
Qed.

Lemma dockForm_form_not_found (root : CDockLayoutItem) (formId panelId : string) :
  fst (_findForm formId root []) = None ->
  CDockManager.dockForm root formId panelId = Some (Return root).
Proof.
  unfold CDockManager.dockForm, CDockManager._extractForm.
  destruct (_findForm formId root []) as [form panel]. simpl.
  intros ->.
  destruct (_findLayoutItem panelId root [] None None) as [[dest pa] gp].
  reflexivity.
Qed.

(** ** Unresolved destination ids *)

Lemma split_destination_not_found (st : DockStore) (formId destPanelId : string)
    (direction : DockLayoutDirection) :
  NoDup (ids (layout st)) ->
  ~ In destPanelId (ids (layout st)) ->
  returns_normally (useDockManager.split st formId destPanelId direction).
Proof.
  intros ND Hd. unfold useDockManager.split, returns_normally.
  destruct (_findForm formId (layout st) []) as [[form|] panel] eqn:E;
    [|eexists; reflexivity].
  destruct (findForm_sound _ _ _ _ _ E) as (r & i & fs & -> & Hr & Hf).
  simpl app. rewrite Hr.
  destruct (String.eqb i destPanelId && (length fs <=? 1)%nat);
    [eexists; reflexivity|].
  rewrite findLayoutItem_absent by (rewrite ids_set_forms; exact Hd).
  rewrite reclaim_from_root_collapse by (rewrite ids_set_forms; exact ND).
  eexists; reflexivity.
Qed.

Lemma stack_destination_not_found (st : DockStore) (formId panelId : string) :
  ~ In panelId (ids (layout st)) ->
  returns_normally (useDockManager.stack st formId panelId).
Proof.
  intros Hd. unfold useDockManager.stack, returns_normally.
  destruct (_findForm formId (layout st) []) as [[form|] panel] eqn:E.
  - destruct (findForm_sound _ _ _ _ _ E) as (r & i & fs & -> & Hr & Hf).
    simpl app. rewrite Hr.
    rewrite findLayoutItem_absent by (rewrite ids_set_forms; exact Hd).
    eexists; reflexivity.
  - rewrite findLayoutItem_absent by exact Hd.
    eexists; reflexivity.
Qed.

Lemma splitPanel_destination_not_found (c : nat) (root : CDockLayoutItem)
    (formId destPanelId : string) (direction : DockLayoutDirection) :
  NoDup (ids root) ->
  ~ In destPanelId (ids root) ->
  returns_normally (CDockManager.splitPanel c root formId destPanelId direction).
Proof.
  intros ND Hd.
  unfold CDockManager.splitPanel, CDockManager._extractForm, returns_normally.
  destruct (_findForm formId root []) as [[form|] panel] eqn:E.
  - destruct (findForm_sound _ _ _ _ _ E) as (r & i & fs & -> & Hr & Hf).
    simpl app. rewrite Hr.
    rewrite findLayoutItem_absent by (rewrite ids_set_forms; exact Hd).
    rewrite reclaim_from_root_collapse by (rewrite ids_set_forms; exact ND).
    eexists; reflexivity.
  - eexists; reflexivity.
Qed.

Lemma dockForm_destination_not_found (root : CDockLayoutItem)
    (formId panelId : string) :
  ~ In panelId (ids root) ->
  returns_normally (CDockManager.dockForm root formId panelId).
Proof.
  intros Hd.
  unfold CDockManager.dockForm, CDockManager._extractForm, returns_normally.
  destruct (_findForm formId root []) as [[form|] panel] eqn:E.
  - destruct (findForm_sound _ _ _ _ _ E) as (r & i & fs & -> & Hr & Hf).
    simpl app. rewrite Hr.
    rewrite findLayoutItem_absent by (rewrite ids_set_forms; exact Hd).
    eexists; reflexivity.
  - rewrite findLayoutItem_absent by exact Hd.
    eexists; reflexivity.
Qed.

Ltac distinct_ids :=
  repeat constructor; simpl; intuition discriminate.

(** ** Claims on the failure signals *)

(** C4, as the code has it. [createSplitter] has no failure: whatever the
    ids of the two children, equal ones included, it returns a splitter with
    the next id, the two children, and the direction and size given or their
    defaults. *)
Theorem createSplitter_returns_splitter
    (c : nat) (primary secondary : CDockLayoutItem)
    (direction : option DockLayoutDirection) (size : option Z) :
  createSplitter c primary secondary direction size
  = (CDockSplitter ("dms-" ++ string_of_nat (S c)) primary secondary
                   (match direction with Some d => d | None => Horizontal end)
                   (match size with Some z => z | None => 50%Z end),
     S c).
Proof. reflexivity. Qed.

(** C4 fails where the two children are the same panel: a splitter holding
    it twice is returned. *)
Lemma createSplitter_same_child :
  item_id P1 = item_id P1
  /\ createSplitter 5 P1 P1 None None
     = (CDockSplitter "dms-6" P1 P1 Horizontal 50, 6).
Proof. split; reflexivity. Qed.

(** The guard of the hook: a form found in the destination panel, alone
    there, is not split off. *)
Lemma split_guard (st : DockStore) (F : CDockForm) (P : Ref) (P_id : string)
    (direction : DockLayoutDirection) :
  _findForm (form_id F) (layout st) [] = (Some F, Some P) ->
  deref (layout st) P = Some (CDockPanel P_id [F]) ->
  useDockManager.split st (form_id F) P_id direction = Some (Return st).
Proof.
  intros Hf Hp. unfold useDockManager.split.
  rewrite Hf, Hp, String.eqb_refl. reflexivity.
Qed.

(** C3 on [CDockManager.splitPanel], which has no guard: the only form of
    the root panel split against its own panel comes back in a panel with a
    new id, and below the root the panel is replaced likewise; the hook leaves
    both layouts as they are. *)
Theorem splitPanel_single_form_self_split :
  _findForm "dmf-1" P1 [] = (Some F1, Some [])
  /\ CDockManager.splitPanel 3 P1 "dmf-1" "dmp-3" Horizontal
     = Some (Return (CDockPanel "dmp-4" [F1], 5))
  /\ useDockManager.split (mkDockStore P1 3) "dmf-1" "dmp-3" Horizontal
     = Some (Return (mkDockStore P1 3))
  /\ CDockManager.splitPanel 5 side_by_side "dmf-1" "dmp-3" Horizontal
     = Some (Return (CDockSplitter "dms-5" (CDockPanel "dmp-6" [F1]) P2 Horizontal 50, 7))
  /\ useDockManager.split side_by_side_store "dmf-1" "dmp-3" Horizontal
     = Some (Return side_by_side_store).
Proof. repeat split; vm_compute; reflexivity. Qed.

(** C1 on a destination id that is in no node: the form is taken out of its
    panel before the destination is looked up, and stays out.  [split] and
    [splitPanel] then collapse the emptied panel away, [stack] and [dockForm]
    leave it in the tree. *)
Theorem missing_destination_loses_form :
  fst (fst (_findLayoutItem "dmp-9" side_by_side [] None None)) = None
  /\ CDockManager.splitPanel 5 side_by_side "dmf-1" "dmp-9" Horizontal
     = Some (Return (P2, 5))
  /\ CDockManager.dockForm side_by_side "dmf-1" "dmp-9"
     = Some (Return (CDockSplitter "dms-5" (CDockPanel "dmp-3" []) P2 Horizontal 50))
  /\ useDockManager.split side_by_side_store "dmf-1" "dmp-9" Horizontal
     = Some (Return (mkDockStore P2 5))
  /\ useDockManager.stack side_by_side_store "dmf-1" "dmp-9"
     = Some (Return (mkDockStore
                       (CDockSplitter "dms-5" (CDockPanel "dmp-3" []) P2 Horizontal 50) 5)).
Proof. repeat split; vm_compute; reflexivity. Qed.

(** The one failure the code can raise: [dockForm], and the updater that
    [stack] passes to [setLayout], on a destination id that is the id of a
    splitter push on [forms] of an object that has none.  The form has left
    its panel by then.  [dockForm] hands the TypeError to its caller; the
    updater is run by React, and what the caller of [stack] sees is not
    stated. *)
Lemma stack_on_splitter_throws :
  useDockManager.stack side_by_side_store "dmf-1" "dms-5"
  = Some (ThrowTypeError
            (mkDockStore
               (CDockSplitter "dms-5" (CDockPanel "dmp-3" []) P2 Horizontal 50) 5))
  /\ CDockManager.dockForm side_by_side "dmf-1" "dms-5"
     = Some (ThrowTypeError
               (CDockSplitter "dms-5" (CDockPanel "dmp-3" []) P2 Horizontal 50)).
Proof. split; vm_compute; reflexivity. Qed.

(** C9, as the code has it. An id that does not resolve is not reported:
    with a form id or a destination id that is in the tree nowhere, [split],
    [stack], [splitPanel] and [dockForm] return as they do on success, and
    with an unresolved form id the tree they return is the tree they got. *)
Theorem unresolved_ids_return_normally
    (st : DockStore) (formId destPanelId : string) (direction : DockLayoutDirection) :
  NoDup (ids (layout st)) ->
  fst (_findForm formId (layout st) []) = None
  \/ fst (fst (_findLayoutItem destPanelId (layout st) [] None None)) = None ->
  (returns_normally (useDockManager.split st formId destPanelId direction)
   /\ returns_normally (useDockManager.stack st formId destPanelId)
   /\ returns_normally
        (CDockManager.splitPanel (counter st) (layout st) formId destPanelId direction)
   /\ returns_normally (CDockManager.dockForm (layout st) formId destPanelId))
  /\ (fst (_findForm formId (layout st) []) = None ->
      useDockManager.split st formId destPanelId direction = Some (Return st)
      /\ useDockManager.stack st formId destPanelId = Some (Return st)
      /\ CDockManager.splitPanel (counter st) (layout st) formId destPanelId direction
         = Some (Return (layout st, counter st))
      /\ CDockManager.dockForm (layout st) formId destPanelId
         = Some (Return (layout st))).
Proof.
  intros ND H. split.
  - destruct H as [H|H].
    + rewrite (split_form_not_found _ _ _ _ H), (stack_form_not_found _ _ _ H),
        (splitPanel_form_not_found _ _ _ _ _ H), (dockForm_form_not_found _ _ _ H).
      repeat split; eexists; reflexivity.
    + apply findLayoutItem_absent_iff in H.
      auto using split_destination_not_found, stack_destination_not_found,
        splitPanel_destination_not_found, dockForm_destination_not_found.
  - intros Hf.
    auto using split_form_not_found, stack_form_not_found,
      splitPanel_form_not_found, dockForm_form_not_found.
Qed.

Lemma unresolved_ids_return_normally_witness :
  returns_normally (useDockManager.split side_by_side_store "dmf-9" "dmp-4" Vertical)
  /\ useDockManager.stack side_by_side_store "dmf-9" "dmp-4"
     = Some (Return side_by_side_store).
Proof.
  assert (ND : NoDup (ids (layout side_by_side_store))) by distinct_ids.
  assert (Hf : fst (_findForm "dmf-9" (layout side_by_side_store) []) = None)
    by reflexivity.
  destruct (unresolved_ids_return_normally side_by_side_store "dmf-9" "dmp-4"
              Vertical ND (or_introl Hf)) as [[Hs _] Hu].
  split; [exact Hs | exact (proj1 (proj2 (Hu Hf)))].
Defined.

(** C9 fails on a form id that is in no panel: [split] and [stack] return
    the layout they were given, and no failure is raised. *)
Lemma unresolved_form_is_silent :
  fst (_findForm "dmf-9" side_by_side []) = None
  /\ useDockManager.split side_by_side_store "dmf-9" "dmp-4" Vertical
     = Some (Return side_by_side_store)
  /\ useDockManager.stack side_by_side_store "dmf-9" "dmp-4"
     = Some (Return side_by_side_store)
  /\ CDockManager.splitPanel 5 side_by_side "dmf-9" "dmp-4" Vertical
     = Some (Return (side_by_side, 5)).
Proof. repeat split; vm_compute; reflexivity. Qed.

(** ** Panels of a tree with unique ids *)

Lemma panels_ids (t : CDockLayoutItem) (i : string) (fs : list CDockForm) :
  In (i, fs) (panels t) -> In i (ids t).
Proof.
  induction t as [j l|j p IHp s IHs d z]; simpl.
  - intros [E|[]]. injection E as -> _. auto.
  - intros H. right. apply in_app_or in H as [H|H]; apply in_or_app; auto.
Qed.

Lemma deref_panel_in_panels (t : CDockLayoutItem) (r : Ref)
    (i : string) (fs : list CDockForm) :
  deref t r = Some (CDockPanel i fs) -> In (i, fs) (panels t).
Proof.
  revert t; induction r as [|slot r IH]; intros t H; simpl in H.
  - injection H as ->. simpl. auto.
  - destruct t as [|j p s d z]; [discriminate|].
    simpl. apply in_or_app. destruct slot; [left|right]; apply IH, H.
Qed.

Lemma in_panels_deref (t : CDockLayoutItem) (i : string) (fs : list CDockForm) :
  In (i, fs) (panels t) -> exists r, deref t r = Some (CDockPanel i fs).
Proof.
  induction t as [j l|j p IHp s IHs d z]; simpl.
  - intros [E|[]]. injection E as -> ->. exists []. reflexivity.
  - intros H. apply in_app_or in H as [H|H].
    + destruct (IHp H) as [r Hr]. exists (Primary :: r). exact Hr.
    + destruct (IHs H) as [r Hr]. exists (Secondary :: r). exact Hr.
Qed.

Lemma on_panel_absent (t : CDockLayoutItem) (i : string)
    (f : list CDockForm -> list CDockForm) :
  ~ In i (ids t) -> map (on_panel i f) (panels t) = panels t.
Proof.
  intros H. rewrite <- (map_id (panels t)) at 2.
  apply map_ext_in. intros [j l] Hj. unfold on_panel. simpl.
  destruct (String.eqb_spec j i) as [->|]; [|reflexivity].
  exfalso. apply H. eapply panels_ids, Hj.
Qed.

(** An assignment to the forms of a panel, seen on the list of panels. *)
Lemma panels_assign_panel (t : CDockLayoutItem) (r : Ref) (i : string)
    (fs : list CDockForm) (f : list CDockForm -> list CDockForm) :
  NoDup (ids t) ->
  deref t r = Some (CDockPanel i fs) ->
  panels (assign t r (CDockPanel i (f fs))) = map (on_panel i f) (panels t).
Proof.
  revert t; induction r as [|slot r IH]; intros t ND H; simpl in H.
  - injection H as ->. simpl. unfold on_panel. simpl.
    rewrite String.eqb_refl. reflexivity.
  - destruct t as [|j p s d z]; [discriminate|].
    simpl in ND. apply NoDup_cons_iff in ND as [_ ND].
    assert (Hi : In i (ids (match slot with Primary => p | Secondary => s end))).
    { destruct slot; apply (deref_ids _ _ _ H); simpl; auto. }
    destruct slot; simpl; rewrite map_app.
    + rewrite (IH p (NoDup_app_remove_r _ _ ND) H).
      rewrite (on_panel_absent s); [reflexivity|].
      exact (NoDup_app_disjoint _ _ _ _ ND Hi).
    + rewrite (IH s (NoDup_app_remove_l _ _ ND) H).
      rewrite (on_panel_absent p); [reflexivity|].
      intros C. exact (NoDup_app_disjoint _ _ _ _ ND C Hi).
Qed.

(** With unique ids an id names one object. *)
Lemma deref_unique (t u u' : CDockLayoutItem) (r r' : Ref) :
  NoDup (ids t) ->
  deref t r = Some u -> deref t r' = Some u' -> item_id u = item_id u' ->
  r = r'.
Proof.
  intros ND H H' E.
  destruct (findLayoutItem_unique t u r ND H [] None None) as [g Hg].
  destruct (findLayoutItem_unique t u' r' ND H' [] None None) as [g' Hg'].
  rewrite E in Hg. rewrite Hg in Hg'. simpl in Hg'. congruence.
Qed.

(** ** Removing a form *)

Lemma findIndex_found (formId : string) (forms : list CDockForm) :
  find (has_id formId) forms <> None ->
  exists n, findIndex formId forms = Z.of_nat n
            /\ n < length forms
            /\ remove_nth n forms = without formId forms.
Proof.
  induction forms as [|f rest IH]; simpl; intros H; [congruence|].
  unfold has_id in *.
  destruct (String.eqb (form_id f) formId) eqn:E.
  - exists 0. repeat split; try reflexivity. lia.
  - destruct (IH H) as (n & Hn & Hl & Hr). exists (S n).
    rewrite Hn. destruct (Z.ltb_spec (Z.of_nat n) 0); [lia|].
    repeat split; [lia | lia | simpl; rewrite Hr; reflexivity].
Qed.

Lemma splice1_findIndex (formId : string) (forms : list CDockForm) :
  find (has_id formId) forms <> None ->
  splice1 (findIndex formId forms) forms = without formId forms.
Proof.
  intros H. destruct (findIndex_found _ _ H) as (n & Hn & Hl & Hr).
  unfold splice1. rewrite Hn.
  destruct (Z.ltb_spec (Z.of_nat n) 0); [lia|].
  rewrite Z.min_l by lia. rewrite Nat2Z.id. exact Hr.
Qed.

(** ** Stacking a form *)

(** [stack] and [dockForm] with a form and a destination panel that both
    resolve: the form leaves its panel, is pushed on the destination, and the
    tree is collapsed. *)
Lemma stack_moves (st : DockStore) (formId : string) (F : CDockForm)
    (src dst : Ref) (s_id D_id : string) (s_forms D_forms : list CDockForm) :
  NoDup (ids (layout st)) ->
  _findForm formId (layout st) [] = (Some F, Some src) ->
  deref (layout st) src = Some (CDockPanel s_id s_forms) ->
  deref (layout st) dst = Some (CDockPanel D_id D_forms) ->
  exists t2,
    useDockManager.stack st formId D_id
    = Some (Return (mkDockStore (collapse t2) (counter st)))
    /\ CDockManager.dockForm (layout st) formId D_id = Some (Return (collapse t2))
    /\ ids t2 = ids (layout st)
    /\ panels t2 = map (on_panel D_id (fun l => push l F))
                       (map (on_panel s_id (without formId)) (panels (layout st))).
Proof.
  intros ND Hf Hsrc Hdst.
  set (t := layout st) in *.
  assert (Hfind : find (has_id formId) s_forms <> None).
  { destruct (findForm_sound _ _ _ _ _ Hf) as (r & i & fs & E & Hr & Hfs).
    simpl in E. injection E as <-. rewrite Hsrc in Hr. injection Hr as <- <-.
    congruence. }
  set (t1 := assign t src (CDockPanel s_id (without formId s_forms))).
  assert (E1 : set_forms t src (splice1 (findIndex formId s_forms) s_forms) = t1).
  { unfold set_forms. rewrite Hsrc, (splice1_findIndex _ _ Hfind). reflexivity. }
  assert (I1 : ids t1 = ids t) by (apply (ids_assign_same _ _ _ _ Hsrc); reflexivity).
  assert (N1 : NoDup (ids t1)) by (rewrite I1; exact ND).
  assert (P1 : panels t1 = map (on_panel s_id (without formId)) (panels t))
    by (apply panels_assign_panel; assumption).
  set (X := if String.eqb D_id s_id then without formId D_forms else D_forms).
  assert (HX : In (D_id, X) (panels t1)).
  { rewrite P1. apply in_map_iff. exists (D_id, D_forms). split.
    - unfold on_panel, X. simpl. destruct (String.eqb D_id s_id); reflexivity.
    - eapply deref_panel_in_panels, Hdst. }
  destruct (in_panels_deref _ _ _ HX) as [r1 Hr1].
  destruct (findLayoutItem_unique t1 _ r1 N1 Hr1 [] None None) as [g Hg].
  simpl in Hg.
  set (t2 := assign t1 r1 (CDockPanel D_id (push X F))).
  assert (E2 : set_forms t1 r1 (push X F) = t2).
  { unfold set_forms. rewrite Hr1. reflexivity. }
  assert (I2 : ids t2 = ids t1) by (apply (ids_assign_same _ _ _ _ Hr1); reflexivity).
  assert (N2 : NoDup (ids t2)) by (rewrite I2; exact N1).
  exists t2. repeat split.
  - unfold useDockManager.stack. fold t. rewrite Hf, Hsrc, E1, Hg, Hr1, E2.
    rewrite (reclaim_from_root_collapse _ N2). reflexivity.
  - unfold CDockManager.dockForm, CDockManager._extractForm.
    fold t. rewrite Hf, Hsrc, E1, Hg, Hr1, E2.
    rewrite (reclaim_from_root_collapse _ N2). reflexivity.
  - rewrite I2. exact I1.
  - rewrite <- P1. apply (panels_assign_panel t1 r1 D_id X (fun l => push l F) N1 Hr1).
Qed.

(** C7. With a form and a destination panel that resolve, [stack] (and
    [dockForm]) returns a tree in which the destination panel holds its
    earlier forms in their order, without the form if it was there, and the
    form last; the other panels hold what they held, the source panel without
    the form, and only panels left without forms are gone. *)
Theorem stack_appends_form_last (st : DockStore) (formId : string) (F : CDockForm)
    (src dst : Ref) (s_id D_id : string) (s_forms D_forms : list CDockForm) :
  NoDup (ids (layout st)) ->
  _findForm formId (layout st) [] = (Some F, Some src) ->
  deref (layout st) src = Some (CDockPanel s_id s_forms) ->
  deref (layout st) dst = Some (CDockPanel D_id D_forms) ->
  exists t',
    useDockManager.stack st formId D_id = Some (Return (mkDockStore t' (counter st)))
    /\ CDockManager.dockForm (layout st) formId D_id = Some (Return t')
    /\ In (D_id,
           (if String.eqb D_id s_id then without formId D_forms else D_forms) ++ [F])
          (panels t')
    /\ filter has_forms (panels t')
       = filter has_forms
           (map (on_panel D_id (fun l => push l F))
                (map (on_panel s_id (without formId)) (panels (layout st)))).
Proof.
  intros ND Hf Hsrc Hdst.
  destruct (stack_moves st formId F src dst s_id D_id s_forms D_forms ND Hf Hsrc Hdst)
    as (t2 & Hs & Hd & _ & Hp).
  exists (collapse t2).
  assert (Hfil : filter has_forms (panels (collapse t2))
                 = filter has_forms
                     (map (on_panel D_id (fun l => push l F))
                          (map (on_panel s_id (without formId)) (panels (layout st)))))
    by (rewrite collapse_panels, Hp; reflexivity).
  repeat split; try assumption.
  assert (Hin : In (D_id,
                    (if String.eqb D_id s_id then without formId D_forms else D_forms)
                    ++ [F])
                   (filter has_forms (panels (collapse t2)))).
  { rewrite Hfil. apply filter_In. split.
    - apply in_map_iff.
      exists (on_panel s_id (without formId) (D_id, D_forms)). split.
      + unfold on_panel, push. simpl.
        destruct (String.eqb D_id s_id); simpl; rewrite String.eqb_refl; reflexivity.
      + apply in_map, (deref_panel_in_panels _ _ _ _ Hdst).
    - unfold has_forms. simpl.
      destruct (if String.eqb D_id s_id then without formId D_forms else D_forms);
        reflexivity. }
  apply filter_In in Hin. exact (proj1 Hin).
Qed.

(** ** Fresh ids *)

Lemma strip_prefix_app (prefix s : string) :
  strip_prefix prefix (prefix ++ s)%string = Some s.
Proof.
  induction prefix as [|a prefix IH]; simpl; [destruct s; reflexivity|].
  rewrite Ascii.eqb_refl. exact IH.
Qed.

Lemma uint_of_string_of_nat (n : nat) :
  option_map Nat.of_uint (NilEmpty.uint_of_string (string_of_nat n)) = Some n.
Proof.
  unfold string_of_nat. rewrite NilEmpty.usu. simpl.
  rewrite DecimalNat.Unsigned.of_to. reflexivity.
Qed.

Lemma generated_number_dmp (n : nat) :
  generated_number ("dmp-" ++ string_of_nat n) = Some n.
Proof.
  unfold generated_number.
  rewrite (strip_prefix_app "dmp-"). apply uint_of_string_of_nat.
Qed.

Lemma generated_number_dms (n : nat) :
  generated_number ("dms-" ++ string_of_nat n) = Some n.
Proof.
  unfold generated_number.
  change (strip_prefix "dmp-" ("dms-" ++ string_of_nat n)) with (@None string).
  rewrite (strip_prefix_app "dms-"). apply uint_of_string_of_nat.
Qed.

Lemma counter_ahead_not_in (st : DockStore) (id : string) (n : nat) :
  counter_ahead st = true ->
  generated_number id = Some n -> counter st < n ->
  ~ In id (ids (layout st)).
Proof.
  unfold counter_ahead. intros H Hg Hn Hin.
  rewrite forallb_forall in H. specialize (H _ Hin). rewrite Hg in H.
  apply Nat.leb_le in H. lia.
Qed.


Arguments string_of_nat : simpl never.

Lemma createPanel_eq (c : nat) (forms : list CDockForm) :
  createPanel c forms = (CDockPanel ("dmp-" ++ string_of_nat (S c)) forms, S c).
Proof. reflexivity. Qed.

Lemma createSplitter_eq (c : nat) (p s : CDockLayoutItem) (d : DockLayoutDirection) :
  createSplitter c p s (Some d) None
  = (CDockSplitter ("dms-" ++ string_of_nat (S c)) p s d 50, S c).
Proof. reflexivity. Qed.

Lemma in_ids_deref (t : CDockLayoutItem) (x : string) :
  In x (ids t) -> exists r u, deref t r = Some u /\ item_id u = x.
Proof.
  induction t as [i fs|i p IHp s IHs d z]; simpl.
  - intros [<-|[]]. exists [], (CDockPanel i fs). auto.
  - intros [<-|H]; [exists [], (CDockSplitter i p s d z); auto|].
    apply in_app_or in H as [H|H].
    + destruct (IHp H) as (r & u & Hr & Hu). exists (Primary :: r), u. auto.
    + destruct (IHs H) as (r & u & Hr & Hu). exists (Secondary :: r), u. auto.
Qed.

(** The graft of [split]: the slot of the parent that leads to the
    destination is assigned. *)
Lemma graft_at (t u v : CDockLayoutItem) (q : Ref) (slot : Slot) :
  NoDup (ids t) ->
  deref t (q ++ [slot]) = Some u ->
  graft t q (q ++ [slot]) v = assign t (q ++ [slot]) v.
Proof.
  intros ND H. unfold graft. rewrite H.
  rewrite deref_app in H.
  destruct (deref t q) as [w|] eqn:Hq; [|discriminate].
  pose proof (deref_NoDup _ _ _ Hq ND) as NW.
  destruct w as [|j pp ps dd zz]; [destruct slot; discriminate|].
  simpl in NW. apply NoDup_cons_iff in NW as [_ NW].
  destruct slot; simpl in H; injection H as ->.
  - rewrite String.eqb_refl. reflexivity.
  - destruct (String.eqb_spec (item_id pp) (item_id u)) as [E|_].
    + exfalso.
      apply (NoDup_app_disjoint _ _ _ (item_id pp) NW (item_id_in_ids pp)).
      rewrite E. apply item_id_in_ids.
    + rewrite String.eqb_refl. reflexivity.
Qed.

(** ** Splitting a form off *)

(** [split] past its guard, with a form and a destination that resolve: the
    form leaves its panel, a new splitter takes the place of the destination,
    with the destination and a new panel for the form under it, and the tree
    is collapsed. *)
Lemma split_moves (st : DockStore) (formId D_id : string) (F : CDockForm)
    (direction : DockLayoutDirection)
    (src : Ref) (s_id : string) (s_forms : list CDockForm) :
  NoDup (ids (layout st)) ->
  counter_ahead st = true ->
  _findForm formId (layout st) [] = (Some F, Some src) ->
  deref (layout st) src = Some (CDockPanel s_id s_forms) ->
  String.eqb s_id D_id && (length s_forms <=? 1)%nat = false ->
  In D_id (ids (layout st)) ->
  exists t2,
    useDockManager.split st formId D_id direction
    = Some (Return (mkDockStore (collapse t2) (S (S (counter st)))))
    /\ NoDup (ids t2)
    /\ incl (ids t2)
            (("dms-" ++ string_of_nat (S (S (counter st))))%string
             :: ("dmp-" ++ string_of_nat (S (counter st)))%string
             :: ids (layout st)).
Proof.
  intros ND CA Hf Hsrc Hguard HD.
  set (t := layout st) in *. set (c := counter st) in *.
  set (t1 := set_forms t src (splice1 (findIndex formId s_forms) s_forms)).
  assert (I1 : ids t1 = ids t) by apply ids_set_forms.
  assert (N1 : NoDup (ids t1)) by (rewrite I1; exact ND).
  rewrite <- I1 in HD.
  destruct (in_ids_deref _ _ HD) as (r & u & Hr & Hu).
  destruct (findLayoutItem_unique t1 u r N1 Hr [] None None) as [g Hg].
  rewrite Hu in Hg. simpl app in Hg.
  set (dmp := ("dmp-" ++ string_of_nat (S c))%string).
  set (dms := ("dms-" ++ string_of_nat (S (S c)))%string).
  set (newSplitter := CDockSplitter dms u (CDockPanel dmp [F]) direction 50).
  assert (Fp : ~ In dmp (ids t1)).
  { rewrite I1. apply (counter_ahead_not_in st dmp (S c) CA); [|unfold c; lia].
    apply generated_number_dmp. }
  assert (Fs : ~ In dms (ids t1)).
  { rewrite I1. apply (counter_ahead_not_in st dms (S (S c)) CA); [|unfold c; lia].
    apply generated_number_dms. }
  assert (Hsub : incl (ids u) (ids t1)) by (eapply deref_ids; eauto).
  assert (Nn : NoDup (ids newSplitter)).
  { simpl. constructor.
    - intros C. apply in_app_or in C as [C|[C|[]]]; [apply Fs, Hsub, C|].
      unfold dmp, dms in C. simpl in C. discriminate.
    - apply NoDup_app_intro.
      + exact (deref_NoDup _ _ _ Hr N1).
      + constructor; [intros [] | constructor].
      + intros x Hx [<-|[]]. apply Fp, Hsub, Hx. }
  assert (Hn : forall x, In x (ids newSplitter) -> In x (ids u) \/ ~ In x (ids t1)).
  { simpl. intros x [<-|Hx]; [right; exact Fs|].
    apply in_app_or in Hx as [Hx|[<-|[]]]; [left; exact Hx | right; exact Fp]. }
  set (t2 := assign t1 r newSplitter).
  assert (N2 : NoDup (ids t2)) by (apply (NoDup_assign _ _ _ _ Hr N1 Nn Hn)).
  assert (G : match parent_ref [] None r with
              | Some parent => Some (graft t1 parent r newSplitter, S (S c))
              | None => Some (newSplitter, S (S c))
              end = Some (t2, S (S c))).
  { destruct r as [|slot0 r0]; [reflexivity|].
    destruct (exists_last (l := slot0 :: r0)) as (q & slot & E); [discriminate|].
    unfold t2. rewrite E in *.
    assert (Hp : parent_ref [] None (q ++ [slot]) = Some q).
    { destruct (q ++ [slot]) eqn:E'; [destruct q; discriminate|].
      cbv beta iota delta [parent_ref]. rewrite <- E', removelast_last. reflexivity. }
    rewrite Hp, (graft_at _ _ _ _ _ N1 Hr). reflexivity. }
  exists t2. split; [|split; [exact N2|]].
  - unfold useDockManager.split. fold t c. rewrite Hf, Hsrc, Hguard.
    fold t1. rewrite Hg, Hr, createPanel_eq, createSplitter_eq.
    fold dmp dms newSplitter. rewrite G.
    rewrite (reclaim_from_root_collapse _ N2). reflexivity.
  - intros x Hx. unfold t2 in Hx.
    destruct (ids_assign_in _ _ _ _ _ Hr Hx) as [Hx'|Hx'].
    + simpl in Hx'. destruct Hx' as [<-|Hx']; [left; reflexivity|].
      apply in_app_or in Hx' as [Hx'|[<-|[]]].
      * right; right. rewrite <- I1. apply Hsub, Hx'.
      * right; left; reflexivity.
    + right; right. rewrite <- I1. exact Hx'.
Qed.

(** ** The invariants along a sequence of calls *)

Lemma form_resolves_found (formId : string) (t : CDockLayoutItem) :
  form_resolves formId t = true ->
  exists F src i fs,
    _findForm formId t [] = (Some F, Some src)
    /\ deref t src = Some (CDockPanel i fs).
Proof.
  unfold form_resolves.
  destruct (_findForm formId t []) as [[F|] panel] eqn:E; [|discriminate].
  intros _. destruct (findForm_sound _ _ _ _ _ E) as (r & i & fs & -> & Hr & _).
  exists F, r, i, fs. auto.
Qed.

Lemma node_resolves_in (id : string) (t : CDockLayoutItem) :
  node_resolves id t = true -> In id (ids t).
Proof.
  unfold node_resolves.
  destruct (_findLayoutItem id t [] None None) as [[[r|] pa] gp] eqn:E;
    [|discriminate].
  intros _. destruct (findLayoutItem_sound _ _ _ _ _ _ _ _ E)
    as (r' & u & _ & Hr & <- & _).
  apply (deref_ids _ _ _ Hr), item_id_in_ids.
Qed.

Lemma panel_resolves_found (id : string) (t : CDockLayoutItem) :
  panel_resolves id t = true ->
  exists dst fs, deref t dst = Some (CDockPanel id fs).
Proof.
  unfold panel_resolves.
  destruct (_findLayoutItem id t [] None None) as [[[r|] pa] gp] eqn:E;
    [|discriminate].
  destruct (findLayoutItem_sound _ _ _ _ _ _ _ _ E) as (r' & u & Er & Hr & Hu & _).
  simpl in Er. subst r'. simpl. rewrite Hr.
  destruct u as [i fs|]; [|discriminate].
  intros _. simpl in Hu. subst i. exists r, fs. exact Hr.
Qed.

Lemma counter_ahead_incl (st st' : DockStore) :
  counter_ahead st = true ->
  counter st <= counter st' ->
  (forall x, In x (ids (layout st')) ->
             In x (ids (layout st))
             \/ exists n, generated_number x = Some n /\ n <= counter st') ->
  counter_ahead st' = true.
Proof.
  unfold counter_ahead. intros H Hc Hincl.
  rewrite forallb_forall in *. intros x Hx.
  destruct (Hincl x Hx) as [Hin|(n & -> & Hn)].
  - specialize (H x Hin). destruct (generated_number x); [|reflexivity].
    apply Nat.leb_le in H. apply Nat.leb_le. lia.
  - apply Nat.leb_le, Hn.
Qed.

(** One call with ids that resolve returns, and keeps the ids unique, the
    panels under splitters filled and the counter ahead of the ids. *)
Lemma call_keeps_invariants (st : DockStore) (c : Call) :
  NoDup (ids (layout st)) ->
  no_empty_panel (layout st) = true ->
  counter_ahead st = true ->
  ids_resolve st c = true ->
  exists st',
    run_call st c = Some (Return st')
    /\ NoDup (ids (layout st'))
    /\ no_empty_panel (layout st') = true
    /\ counter_ahead st' = true.
Proof.
  intros ND NE CA Hres.
  destruct c as [formId D_id direction|formId D_id]; simpl in Hres |- *;
    apply andb_prop in Hres as [Hform Hdest];
    destruct (form_resolves_found _ _ Hform) as (F & src & s_id & s_forms & Hf & Hsrc).
  - destruct (String.eqb s_id D_id && (length s_forms <=? 1)%nat) eqn:Hguard.
    + exists st. split; [|auto].
      unfold useDockManager.split. rewrite Hf, Hsrc, Hguard. reflexivity.
    + destruct (split_moves st formId D_id F direction src s_id s_forms
                  ND CA Hf Hsrc Hguard (node_resolves_in _ _ Hdest))
        as (t2 & Hs & N2 & I2).
      eexists. split; [exact Hs|]. simpl. split; [apply collapse_NoDup, N2|].
      split; [apply settled_no_empty_panel, collapse_settled|].
      apply (counter_ahead_incl st); [exact CA | simpl; lia|].
      simpl. intros x Hx. apply collapse_ids, I2 in Hx.
      destruct Hx as [<-|[<-|Hx]]; [right|right|left; exact Hx].
      * exists (S (S (counter st))). split; [apply generated_number_dms | lia].
      * exists (S (counter st)). split; [apply generated_number_dmp | lia].
  - destruct (panel_resolves_found _ _ Hdest) as (dst & D_forms & Hdst).
    destruct (stack_moves st formId F src dst s_id D_id s_forms D_forms
                ND Hf Hsrc Hdst) as (t2 & Hs & _ & I2 & _).
    eexists. split; [exact Hs|]. simpl.
    assert (N2 : NoDup (ids t2)) by (rewrite I2; exact ND).
    split; [apply collapse_NoDup, N2|].
    split; [apply settled_no_empty_panel, collapse_settled|].
    apply (counter_ahead_incl st); [exact CA | simpl; lia|].
    simpl. intros x Hx. left. rewrite <- I2. apply collapse_ids, Hx.
Qed.

(** A render leaves the layout as it is and moves the counter on by one. *)
Lemma layout_renders (n : nat) (st : DockStore) : layout (renders n st) = layout st.
Proof.
  induction n as [|n IH]; [reflexivity|]. exact IH.
Qed.

Lemma counter_renders (n : nat) (st : DockStore) :
  counter (renders n st) = n + counter st.
Proof.
  induction n as [|n IH]; [reflexivity|].
  change (S (counter (renders n st)) = S n + counter st). rewrite IH. reflexivity.
Qed.

Lemma counter_ahead_renders (n : nat) (st : DockStore) :
  counter_ahead st = true -> counter_ahead (renders n st) = true.
Proof.
  intros CA. apply (counter_ahead_incl st); [exact CA | |].
  - rewrite counter_renders. lia.
  - rewrite layout_renders. intros x Hx. left. exact Hx.
Qed.



Lemma occupyFreeSpace_idempotent_witness :
  exists once,
    reclaim_from_root two_gaps = Some once /\ reclaim_from_root once = Some once.
Proof.
  apply (occupyFreeSpace_idempotent two_gaps). distinct_ids.
Defined.

Lemma occupyFreeSpace_both_empty_primary_first_witness :
  _occupyFreeSpace 1 two_gaps [Primary]
  = Some (CDockSplitter "dms-5" (CDockPanel "dmp-7" []) P2 Horizontal 50,
          CDockSplitter "dms-5" (CDockPanel "dmp-7" []) P2 Horizontal 50)
  /\ exists heap returned,
       _occupyFreeSpace 1 two_gaps [Primary] = Some (heap, returned)
       /\ (heap, returned)
          = _replace two_gaps
              (CDockSplitter "dms-8" (CDockPanel "dmp-6" []) (CDockPanel "dmp-7" [])
                             Vertical 50)
              (CDockPanel "dmp-7" [])
       /\ "dmp-6" <> "dmp-7"
       /\ returned = heap
       /\ deref heap [Primary] = Some (CDockPanel "dmp-7" [])
       /\ (forall (q x y : Ref) (a b : Slot),
              [Primary] = q ++ a :: x -> a <> b ->
              deref heap (q ++ b :: y) = deref two_gaps (q ++ b :: y))
       /\ (forall q x : Ref,
              [Primary] = q ++ x -> x <> [] ->
              option_map own_fields (deref heap q)
              = option_map own_fields (deref two_gaps q)).
Proof.
  split; [reflexivity|].
  apply (occupyFreeSpace_both_empty_primary_first 0 two_gaps [Primary]
           "dms-8" "dmp-6" "dmp-7" Vertical 50).
  - distinct_ids.
  - reflexivity.
Defined.

Lemma occupyFreeSpace_preserves_forms_witness :
  exists t',
    reclaim_from_root two_gaps = Some t'
    /\ Permutation (all_forms t') (all_forms two_gaps)
    /\ incl (panels t') (panels two_gaps)
    /\ filter has_forms (panels t') = filter has_forms (panels two_gaps).
Proof.
  apply (occupyFreeSpace_preserves_forms two_gaps). distinct_ids.
Defined.

Lemma stack_appends_form_last_witness :
  exists t',
    useDockManager.stack side_by_side_store "dmf-1" "dmp-4"
    = Some (Return (mkDockStore t' 5))
    /\ CDockManager.dockForm side_by_side "dmf-1" "dmp-4" = Some (Return t')
    /\ In ("dmp-4", [F2; F1]) (panels t')
    /\ filter has_forms (panels t')
       = filter has_forms
           (map (on_panel "dmp-4" (fun l => push l F1))
                (map (on_panel "dmp-3" (without "dmf-1")) (panels side_by_side))).
Proof.
  apply (stack_appends_form_last side_by_side_store "dmf-1" F1
           [Primary] [Secondary] "dmp-3" "dmp-4" [F1] [F2]).
  - distinct_ids.
  - reflexivity.
  - reflexivity.
  - reflexivity.
Defined.

(** ** Clone *)

Lemma json_roundtrip (v : JSValue) :
  json_stable v = true ->
  exists t, JSON_stringify v = Some t /\ JSON_parse t = v.
Proof.
  induction v using JSValue_induction; simpl; intros S; try discriminate;
    try (eexists; split; reflexivity).
  - eexists; split; [reflexivity|]. simpl. f_equal.
    induction l as [|x l IHl]; simpl; [reflexivity|].
    simpl in S. apply andb_prop in S as [Sx Sl].
    inversion H as [|? ? Hx Hl]; subst.
    destruct (Hx Sx) as (t & -> & ->). rewrite (IHl Hl Sl). reflexivity.
  - eexists; split; [reflexivity|]. simpl. f_equal.
    induction fs as [|[k x] fs IHfs]; simpl; [reflexivity|].
    simpl in S. apply andb_prop in S as [Sx Sl].
    inversion H as [|? ? Hx Hl]; subst. simpl in Hx.
    destruct (Hx Sx) as (t & -> & ->). rewrite (IHfs Hl Sl). reflexivity.
Qed.

Lemma js_of_form_stable (f : CDockForm) :
  json_stable (children f) && json_stable (icon f) = true ->
  json_stable (js_of_form f) = true.
Proof.
  intros H. apply andb_prop in H as [Hc Hi]. simpl. rewrite Hc, Hi. reflexivity.
Qed.

Lemma js_of_item_stable (t : CDockLayoutItem) :
  payloads_stable t = true -> json_stable (js_of_item t) = true.
Proof.
  unfold payloads_stable, all_forms.
  induction t as [i fs|i p IHp s IHs d z]; simpl; intros H.
  - rewrite app_nil_r in H. rewrite andb_true_r.
    induction fs as [|f fs IH]; simpl in *; [reflexivity|].
    apply andb_prop in H as [Hf H].
    rewrite IH by exact H. rewrite andb_true_r.
    change (json_stable (js_of_form f) = true). apply js_of_form_stable, Hf.
  - rewrite map_app, concat_app, forallb_app in H.
    apply andb_prop in H as [Hp Hs].
    rewrite (IHp Hp), (IHs Hs). destruct d; reflexivity.
Qed.

(** The clone of the hook is the layout again, with every id, form and
    attribute, when the payloads of the forms are JSON values. *)
Lemma useDockManager_clone_copies (t : CDockLayoutItem) :
  payloads_stable t = true ->
  useDockManager.clone t = Some (js_of_item t).
Proof.
  intros H. unfold useDockManager.clone.
  destruct (json_roundtrip _ (js_of_item_stable _ H)) as (txt & E1 & E2).
  rewrite E1. simpl. rewrite E2. reflexivity.
Qed.

(** C8 on [CDockManager.clone]: it returns an empty object for every
    layout, which has no id and no children, where the clone of the hook
    returns the layout again. *)
Theorem CDockManager_clone_is_empty :
  (forall layout, CDockManager.clone layout = JObject [])
  /\ js_get "id" (CDockManager.clone side_by_side) = JUndefined
  /\ js_get "id" (js_of_item side_by_side) = JString "dms-5"
  /\ useDockManager.clone side_by_side = Some (js_of_item side_by_side).
Proof. repeat split. Qed.

(** * Further properties of the engine *)

(** ** Forms in traversal order *)

Lemma all_forms_splitter (i : string) (p s : CDockLayoutItem)
    (d : DockLayoutDirection) (z : Z) :
  all_forms (CDockSplitter i p s d z) = all_forms p ++ all_forms s.
Proof. unfold all_forms. simpl. rewrite map_app, concat_app. reflexivity. Qed.

Lemma all_forms_panel (i : string) (fs : list CDockForm) :
  all_forms (CDockPanel i fs) = fs.
Proof. unfold all_forms. simpl. apply app_nil_r. Qed.

Lemma find_app_found (A : Type) (f : A -> bool) (l1 l2 : list A) (a : A) :
  find f l1 = Some a -> find f (l1 ++ l2) = Some a.
Proof.
  induction l1 as [|x l1 IH]; simpl; [discriminate|].
  destruct (f x); auto.
Qed.

Lemma find_app_none (A : Type) (f : A -> bool) (l1 l2 : list A) :
  find f l1 = None -> find f (l1 ++ l2) = find f l2.
Proof.
  induction l1 as [|x l1 IH]; simpl; [reflexivity|].
  destruct (f x); [discriminate | auto].
Qed.

Lemma findForm_first (formId : string) (t : CDockLayoutItem) (here : Ref) :
  fst (_findForm formId t here) = find (has_id formId) (all_forms t).
Proof.
  revert here. induction t as [i fs|i p IHp s IHs d z]; intros here; simpl.
  - rewrite all_forms_panel. fold (has_id formId).
    destruct (find (has_id formId) fs); reflexivity.
  - rewrite all_forms_splitter.
    specialize (IHp (primary_of here)). specialize (IHs (secondary_of here)).
    destruct (_findForm formId p (primary_of here)) as [[f1|] p1]; simpl in IHp.
    + symmetry in IHp. rewrite (find_app_found _ _ _ _ _ IHp). reflexivity.
    + symmetry in IHp. rewrite (find_app_none _ _ _ _ IHp).
      destruct (_findForm formId s (secondary_of here)) as [[f2|] p2]; simpl in IHs;
        rewrite <- IHs; reflexivity.
Qed.

Lemma without_app_found (formId : string) (l1 l2 : list CDockForm) :
  find (has_id formId) l1 <> None ->
  without formId (l1 ++ l2) = without formId l1 ++ l2.
Proof.
  induction l1 as [|x l1 IH]; simpl; [congruence|].
  destruct (has_id formId x); intros H; [reflexivity|].
  simpl. rewrite (IH H). reflexivity.
Qed.

Lemma without_app_none (formId : string) (l1 l2 : list CDockForm) :
  find (has_id formId) l1 = None ->
  without formId (l1 ++ l2) = l1 ++ without formId l2.
Proof.
  induction l1 as [|x l1 IH]; simpl; [reflexivity|].
  destruct (has_id formId x); intros H; [discriminate|].
  rewrite (IH H). reflexivity.
Qed.

Lemma without_permutation (formId : string) (l : list CDockForm) (F : CDockForm) :
  find (has_id formId) l = Some F -> Permutation (F :: without formId l) l.
Proof.
  induction l as [|x l IH]; simpl; [discriminate|].
  destruct (has_id formId x).
  - intros E. injection E as ->. apply Permutation_refl.
  - intros E. eapply Permutation_trans; [apply perm_swap|].
    apply perm_skip, IH, E.
Qed.

(** The form found by [_findForm], taken out of the panel found. *)
Lemma findForm_without (formId : string) (t : CDockLayoutItem) :
  forall here F src,
    _findForm formId t here = (Some F, Some src) ->
    exists r i fs,
      src = here ++ r
      /\ deref t r = Some (CDockPanel i fs)
      /\ find (has_id formId) fs = Some F
      /\ all_forms (assign t r (CDockPanel i (without formId fs)))
         = without formId (all_forms t).
Proof.
  induction t as [i fs|i p IHp s IHs d z]; intros here F src H; simpl in H.
  - fold (has_id formId) in H.
    destruct (find (has_id formId) fs) as [f|] eqn:E; [|discriminate].
    injection H as <- <-. exists [], i, fs. rewrite app_nil_r.
    simpl. rewrite !all_forms_panel. auto.
  - pose proof (findForm_first formId p (primary_of here)) as Fp.
    destruct (_findForm formId p (primary_of here)) as [[f1|] p1] eqn:E1.
    + injection H as -> ->.
      destruct (IHp _ _ _ E1) as (r & j & fs & -> & Hd & Hf & Ha).
      exists (Primary :: r), j, fs. unfold primary_of. rewrite <- app_assoc.
      simpl. rewrite !all_forms_splitter, Ha.
      rewrite without_app_found; [auto|]. simpl in Fp. rewrite <- Fp. discriminate.
    + destruct (_findForm formId s (secondary_of here)) as [[f2|] p2] eqn:E2;
        [|discriminate].
      injection H as -> ->.
      destruct (IHs _ _ _ E2) as (r & j & fs & -> & Hd & Hf & Ha).
      exists (Secondary :: r), j, fs. unfold secondary_of. rewrite <- app_assoc.
      simpl. rewrite !all_forms_splitter, Ha.
      rewrite without_app_none; [auto|]. simpl in Fp. rewrite <- Fp. reflexivity.
Qed.

(** An assignment replaces one stretch of the forms in traversal order. *)
Lemma all_forms_assign (t u : CDockLayoutItem) (r : Ref) :
  deref t r = Some u ->
  exists l1 l2,
    all_forms t = l1 ++ all_forms u ++ l2
    /\ forall v, all_forms (assign t r v) = l1 ++ all_forms v ++ l2.
Proof.
  revert t; induction r as [|slot r IH]; intros t H; simpl in H.
  - injection H as ->. exists [], []. split; [|intros v]; simpl;
      rewrite app_nil_r; reflexivity.
  - destruct t as [|i p s d z]; [discriminate|].
    destruct slot; destruct (IH _ H) as (l1 & l2 & E & Ev).
    + exists l1, (l2 ++ all_forms s). split; [|intros v; simpl];
        rewrite all_forms_splitter; [rewrite E | rewrite Ev];
        rewrite <- !app_assoc; reflexivity.
    + exists (all_forms p ++ l1), l2. split; [|intros v; simpl];
        rewrite all_forms_splitter; [rewrite E | rewrite Ev];
        rewrite <- !app_assoc; reflexivity.
Qed.

(** ** The shape of a tree under an assignment to the forms of a panel *)

Lemma deref_assign_panel (t D : CDockLayoutItem) (src dst : Ref)
    (i : string) (fs fs' : list CDockForm) :
  deref t src = Some (CDockPanel i fs) ->
  deref t dst = Some D ->
  exists D1,
    deref (assign t src (CDockPanel i fs')) dst = Some D1
    /\ item_id D1 = item_id D
    /\ item_type D1 = item_type D.
Proof.
  revert t src; induction dst as [|slot dst IH]; intros t src Hs Hd; simpl in Hd.
  - injection Hd as ->. eexists. split; [reflexivity|].
    destruct src as [|slot' src]; simpl in *.
    + injection Hs as ->. auto.
    + destruct D as [|j p s d z]; [discriminate|]. destruct slot'; auto.
  - destruct t as [|j p s d z]; [discriminate|].
    destruct src as [|slot' src]; [discriminate|]. simpl in Hs.
    destruct slot, slot'; simpl; eauto.
Qed.

(** ** What [split] returns *)

(** [split] past its guard, in full: the layout without the form is [t1],
    the destination is the object [u] at [r] in it, and the layout returned
    is the collapse of [t1] with a new splitter at [r], over [u] and a new
    panel that holds the form. *)
Lemma split_result (st : DockStore) (formId D_id : string) (F : CDockForm)
    (direction : DockLayoutDirection)
    (src : Ref) (s_id : string) (s_forms : list CDockForm) :
  NoDup (ids (layout st)) ->
  counter_ahead st = true ->
  _findForm formId (layout st) [] = (Some F, Some src) ->
  deref (layout st) src = Some (CDockPanel s_id s_forms) ->
  String.eqb s_id D_id && (length s_forms <=? 1)%nat = false ->
  In D_id (ids (layout st)) ->
  exists r u,
    let t1 := assign (layout st) src (CDockPanel s_id (without formId s_forms)) in
    let t2 := assign t1 r
                (CDockSplitter ("dms-" ++ string_of_nat (S (S (counter st)))) u
                   (CDockPanel ("dmp-" ++ string_of_nat (S (counter st))) [F])
                   direction 50) in
    deref t1 r = Some u
    /\ item_id u = D_id
    /\ NoDup (ids t2)
    /\ useDockManager.split st formId D_id direction
       = Some (Return (mkDockStore (collapse t2) (S (S (counter st))))).
Proof.
  intros ND CA Hf Hsrc Hguard HD.
  set (t := layout st) in *. set (c := counter st) in *.
  assert (Hfind : find (has_id formId) s_forms <> None).
  { destruct (findForm_sound _ _ _ _ _ Hf) as (r & i & fs & E & Hr & Hfs).
    simpl in E. injection E as <-. rewrite Hsrc in Hr. injection Hr as <- <-.
    congruence. }
  set (t1 := assign t src (CDockPanel s_id (without formId s_forms))).
  assert (E1 : set_forms t src (splice1 (findIndex formId s_forms) s_forms) = t1).
  { unfold set_forms. rewrite Hsrc, (splice1_findIndex _ _ Hfind). reflexivity. }
  assert (I1 : ids t1 = ids t) by (apply (ids_assign_same _ _ _ _ Hsrc); reflexivity).
  assert (N1 : NoDup (ids t1)) by (rewrite I1; exact ND).
  rewrite <- I1 in HD.
  destruct (in_ids_deref _ _ HD) as (r & u & Hr & Hu).
  destruct (findLayoutItem_unique t1 u r N1 Hr [] None None) as [g Hg].
  rewrite Hu in Hg. simpl app in Hg.
  set (dmp := ("dmp-" ++ string_of_nat (S c))%string).
  set (dms := ("dms-" ++ string_of_nat (S (S c)))%string).
  set (newSplitter := CDockSplitter dms u (CDockPanel dmp [F]) direction 50).
  assert (Fp : ~ In dmp (ids t1)).
  { rewrite I1. apply (counter_ahead_not_in st dmp (S c) CA); [|unfold c; lia].
    apply generated_number_dmp. }
  assert (Fs : ~ In dms (ids t1)).
  { rewrite I1. apply (counter_ahead_not_in st dms (S (S c)) CA); [|unfold c; lia].
    apply generated_number_dms. }
  assert (Hsub : incl (ids u) (ids t1)) by (eapply deref_ids; eauto).
  assert (Nn : NoDup (ids newSplitter)).
  { simpl. constructor.
    - intros C. apply in_app_or in C as [C|[C|[]]]; [apply Fs, Hsub, C|].
      unfold dmp, dms in C. simpl in C. discriminate.
    - apply NoDup_app_intro.
      + exact (deref_NoDup _ _ _ Hr N1).
      + constructor; [intros [] | constructor].
      + intros x Hx [<-|[]]. apply Fp, Hsub, Hx. }
  assert (Hn : forall x, In x (ids newSplitter) -> In x (ids u) \/ ~ In x (ids t1)).
  { simpl. intros x [<-|Hx]; [right; exact Fs|].
    apply in_app_or in Hx as [Hx|[<-|[]]]; [left; exact Hx | right; exact Fp]. }
  set (t2 := assign t1 r newSplitter).
  assert (N2 : NoDup (ids t2)) by (apply (NoDup_assign _ _ _ _ Hr N1 Nn Hn)).
  assert (G : match parent_ref [] None r with
              | Some parent => Some (graft t1 parent r newSplitter, S (S c))
              | None => Some (newSplitter, S (S c))
              end = Some (t2, S (S c))).
  { destruct r as [|slot0 r0]; [reflexivity|].
    destruct (exists_last (l := slot0 :: r0)) as (q & slot & E); [discriminate|].
    unfold t2. rewrite E in *.
    assert (Hp : parent_ref [] None (q ++ [slot]) = Some q).
    { destruct (q ++ [slot]) eqn:E'; [destruct q; discriminate|].
      cbv beta iota delta [parent_ref]. rewrite <- E', removelast_last. reflexivity. }
    rewrite Hp, (graft_at _ _ _ _ _ N1 Hr). reflexivity. }
  exists r, u. cbv zeta. fold t c t1 dmp dms newSplitter t2.
  repeat split; try assumption.
  unfold useDockManager.split. fold t c. rewrite Hf, Hsrc, Hguard, E1.
  rewrite Hg, Hr, createPanel_eq, createSplitter_eq.
  fold dmp dms newSplitter. rewrite G.
  rewrite (reclaim_from_root_collapse _ N2). reflexivity.
Qed.

Lemma all_forms_without_at (t : CDockLayoutItem) (formId : string) (F : CDockForm)
    (src : Ref) (s_id : string) (s_forms : list CDockForm) :
  _findForm formId t [] = (Some F, Some src) ->
  deref t src = Some (CDockPanel s_id s_forms) ->
  find (has_id formId) (all_forms t) = Some F
  /\ all_forms (assign t src (CDockPanel s_id (without formId s_forms)))
     = without formId (all_forms t).
Proof.
  intros Hf Hsrc. split.
  - rewrite <- (findForm_first formId t []), Hf. reflexivity.
  - destruct (findForm_without _ _ _ _ _ Hf) as (r & i & fs & E & Hr & _ & Ha).
    simpl in E. subst r. rewrite Hsrc in Hr. injection Hr as <- <-. exact Ha.
Qed.

Lemma all_forms_new_splitter (dms dmp : string) (u : CDockLayoutItem) (F : CDockForm)
    (d : DockLayoutDirection) (z : Z) :
  all_forms (CDockSplitter dms u (CDockPanel dmp [F]) d z) = all_forms u ++ [F].
Proof. rewrite all_forms_splitter, all_forms_panel. reflexivity. Qed.

Lemma permutation_insert (l1 m l2 : list CDockForm) (F : CDockForm) :
  Permutation (l1 ++ (m ++ [F]) ++ l2) (F :: l1 ++ m ++ l2).
Proof.
  rewrite <- !app_assoc. simpl.
  apply Permutation_sym.
  replace (l1 ++ m ++ F :: l2) with ((l1 ++ m) ++ F :: l2)
    by (rewrite <- app_assoc; reflexivity).
  replace (l1 ++ m ++ l2) with ((l1 ++ m) ++ l2)
    by (rewrite <- app_assoc; reflexivity).
  apply Permutation_middle.
Qed.

Lemma split_call_conserves (st : DockStore) (formId destPanelId : string)
    (direction : DockLayoutDirection) :
  NoDup (ids (layout st)) ->
  counter_ahead st = true ->
  form_resolves formId (layout st) = true ->
  node_resolves destPanelId (layout st) = true ->
  exists st',
    useDockManager.split st formId destPanelId direction = Some (Return st')
    /\ Permutation (all_forms (layout st')) (all_forms (layout st))
    /\ (counter st' = counter st \/ counter st' = S (S (counter st))).
Proof.
  intros ND CA Hform Hdest.
  destruct (form_resolves_found _ _ Hform) as (F & src & s_id & s_forms & Hf & Hsrc).
  destruct (String.eqb s_id destPanelId && (length s_forms <=? 1)%nat) eqn:Hguard.
  - exists st. split; [|split; [apply Permutation_refl | auto]].
    unfold useDockManager.split. rewrite Hf, Hsrc, Hguard. reflexivity.
  - destruct (split_result st formId destPanelId F direction src s_id s_forms
                ND CA Hf Hsrc Hguard (node_resolves_in _ _ Hdest))
      as (r & u & Hr & _ & _ & Hs).
    cbv zeta in Hr, Hs.
    eexists. split; [exact Hs|]. simpl. split; [|auto].
    rewrite collapse_all_forms.
    destruct (all_forms_without_at _ _ _ _ _ _ Hf Hsrc) as [Hfound Hw].
    destruct (all_forms_assign _ _ _ Hr) as (l1 & l2 & E & Ev).
    rewrite Ev, all_forms_new_splitter.
    eapply Permutation_trans; [apply permutation_insert|].
    rewrite <- E, Hw. apply without_permutation, Hfound.
Qed.

(** X8. A call of [split] whose ids resolve neither loses nor duplicates a
    form: the forms of the layout returned are the forms of the layout given,
    rearranged, and the counter has moved by two or not at all. *)
Theorem split_conserves_forms (st : DockStore) (formId destPanelId : string)
    (direction : DockLayoutDirection) :
  NoDup (ids (layout st)) ->
  counter_ahead st = true ->
  form_resolves formId (layout st) = true ->
  node_resolves destPanelId (layout st) = true ->
  exists st',
    useDockManager.split st formId destPanelId direction = Some (Return st')
    /\ Permutation (all_forms (layout st')) (all_forms (layout st))
    /\ (counter st' = counter st \/ counter st' = S (S (counter st))).
Proof.
  intros ND CA Hform Hdest.
  destruct (form_resolves_found _ _ Hform) as (F & src & s_id & s_forms & Hf & Hsrc).
  destruct (String.eqb s_id destPanelId && (length s_forms <=? 1)%nat) eqn:Hguard.
  - exists st. split; [|split; [apply Permutation_refl | auto]].
    unfold useDockManager.split. rewrite Hf, Hsrc, Hguard. reflexivity.
  - destruct (split_result st formId destPanelId F direction src s_id s_forms
                ND CA Hf Hsrc Hguard (node_resolves_in _ _ Hdest))
      as (r & u & Hr & _ & _ & Hs).
    cbv zeta in Hr, Hs.
    eexists. split; [exact Hs|]. simpl. split; [|auto].
    rewrite collapse_all_forms.
    destruct (all_forms_without_at _ _ _ _ _ _ Hf Hsrc) as [Hfound Hw].
    destruct (all_forms_assign _ _ _ Hr) as (l1 & l2 & E & Ev).
    rewrite Ev, all_forms_new_splitter.
    eapply Permutation_trans; [apply permutation_insert|].
    rewrite <- E, Hw. apply without_permutation, Hfound.
Qed.

(** ** What [stack] returns *)

(** [stack] and [dockForm] on a form that resolves and a destination id
    that is the id of the object at [dst]: the form leaves its panel, which
    gives [t1]; a destination that is a panel gets the form pushed and the tree
    is collapsed, a destination that is a splitter makes the push throw. *)
Lemma stack_result (st : DockStore) (formId : string) (F : CDockForm)
    (src dst : Ref) (s_id : string) (s_forms : list CDockForm) (D : CDockLayoutItem) :
  NoDup (ids (layout st)) ->
  _findForm formId (layout st) [] = (Some F, Some src) ->
  deref (layout st) src = Some (CDockPanel s_id s_forms) ->
  deref (layout st) dst = Some D ->
  exists D1,
    let t1 := assign (layout st) src (CDockPanel s_id (without formId s_forms)) in
    deref t1 dst = Some D1
    /\ item_id D1 = item_id D
    /\ item_type D1 = item_type D
    /\ useDockManager.stack st formId (item_id D)
       = match D1 with
         | CDockPanel i X =>
             Some (Return (mkDockStore
                             (collapse (assign t1 dst (CDockPanel i (push X F))))
                             (counter st)))
         | CDockSplitter _ _ _ _ _ =>
             Some (ThrowTypeError (mkDockStore t1 (counter st)))
         end
    /\ CDockManager.dockForm (layout st) formId (item_id D)
       = match D1 with
         | CDockPanel i X =>
             Some (Return (collapse (assign t1 dst (CDockPanel i (push X F)))))
         | CDockSplitter _ _ _ _ _ => Some (ThrowTypeError t1)
         end.
Proof.
  intros ND Hf Hsrc Hdst.
  set (t := layout st) in *.
  assert (Hfind : find (has_id formId) s_forms <> None).
  { destruct (findForm_sound _ _ _ _ _ Hf) as (r & i & fs & E & Hr & Hfs).
    simpl in E. injection E as <-. rewrite Hsrc in Hr. injection Hr as <- <-.
    congruence. }
  set (t1 := assign t src (CDockPanel s_id (without formId s_forms))).
  assert (E1 : set_forms t src (splice1 (findIndex formId s_forms) s_forms) = t1).
  { unfold set_forms. rewrite Hsrc, (splice1_findIndex _ _ Hfind). reflexivity. }
  assert (I1 : ids t1 = ids t) by (apply (ids_assign_same _ _ _ _ Hsrc); reflexivity).
  assert (N1 : NoDup (ids t1)) by (rewrite I1; exact ND).
  destruct (deref_assign_panel t D src dst s_id s_forms (without formId s_forms)
              Hsrc Hdst) as (D1 & H1 & Hid & Hty).
  fold t1 in H1.
  destruct (findLayoutItem_unique t1 D1 dst N1 H1 [] None None) as [g Hg].
  rewrite Hid in Hg. simpl app in Hg.
  exists D1. cbv zeta. fold t t1. repeat split; try assumption.
  - unfold useDockManager.stack. fold t. rewrite Hf, Hsrc, E1, Hg, H1.
    destruct D1 as [i X|]; [|reflexivity].
    assert (E2 : set_forms t1 dst (push X F) = assign t1 dst (CDockPanel i (push X F))).
    { unfold set_forms. rewrite H1. reflexivity. }
    rewrite E2, reclaim_from_root_collapse; [reflexivity|].
    rewrite (ids_assign_same _ _ _ _ H1); [exact N1 | reflexivity].
  - unfold CDockManager.dockForm, CDockManager._extractForm.
    fold t. rewrite Hf, Hsrc, E1, Hg, H1.
    destruct D1 as [i X|]; [|reflexivity].
    assert (E2 : set_forms t1 dst (push X F) = assign t1 dst (CDockPanel i (push X F))).
    { unfold set_forms. rewrite H1. reflexivity. }
    rewrite E2, reclaim_from_root_collapse; [reflexivity|].
    rewrite (ids_assign_same _ _ _ _ H1); [exact N1 | reflexivity].
Qed.

Lemma stack_call_conserves (st : DockStore) (formId panelId : string) :
  NoDup (ids (layout st)) ->
  form_resolves formId (layout st) = true ->
  panel_resolves panelId (layout st) = true ->
  exists t',
    useDockManager.stack st formId panelId
    = Some (Return (mkDockStore t' (counter st)))
    /\ CDockManager.dockForm (layout st) formId panelId = Some (Return t')
    /\ Permutation (all_forms t') (all_forms (layout st))
    /\ incl (ids t') (ids (layout st)).
Proof.
  intros ND Hform Hdest.
  destruct (form_resolves_found _ _ Hform) as (F & src & s_id & s_forms & Hf & Hsrc).
  destruct (panel_resolves_found _ _ Hdest) as (dst & D_forms & Hdst).
  destruct (stack_result st formId F src dst s_id s_forms _ ND Hf Hsrc Hdst)
    as (D1 & H1 & _ & Hty & Hs & Hd).
  cbv zeta in H1, Hs, Hd. simpl item_id in Hs, Hd.
  destruct D1 as [i X|]; [|discriminate].
  eexists. split; [exact Hs|]. split; [exact Hd|]. split.
  - rewrite collapse_all_forms.
    destruct (all_forms_without_at _ _ _ _ _ _ Hf Hsrc) as [Hfound Hw].
    destruct (all_forms_assign _ _ _ H1) as (l1 & l2 & E & Ev).
    rewrite Ev, !all_forms_panel in *. unfold push.
    eapply Permutation_trans; [apply permutation_insert|].
    rewrite <- E, Hw. apply without_permutation, Hfound.
  - intros x Hx. apply collapse_ids in Hx.
    rewrite (ids_assign_same _ _ _ _ H1) in Hx by reflexivity.
    rewrite (ids_assign_same _ _ _ _ Hsrc) in Hx by reflexivity. exact Hx.
Qed.

(** X10. A call of [stack] (or [dockForm]) with a form id that resolves and a
    destination id that resolves to a panel neither loses nor duplicates a
    form, brings no node id into the tree, and leaves the counter alone. *)
Theorem stack_conserves_forms (st : DockStore) (formId panelId : string) :
  NoDup (ids (layout st)) ->
  form_resolves formId (layout st) = true ->
  panel_resolves panelId (layout st) = true ->
  exists t',
    useDockManager.stack st formId panelId
    = Some (Return (mkDockStore t' (counter st)))
    /\ CDockManager.dockForm (layout st) formId panelId = Some (Return t')
    /\ Permutation (all_forms t') (all_forms (layout st))
    /\ incl (ids t') (ids (layout st)).
Proof.
  intros ND Hform Hdest.
  destruct (form_resolves_found _ _ Hform) as (F & src & s_id & s_forms & Hf & Hsrc).
  destruct (panel_resolves_found _ _ Hdest) as (dst & D_forms & Hdst).
  destruct (stack_result st formId F src dst s_id s_forms _ ND Hf Hsrc Hdst)
    as (D1 & H1 & _ & Hty & Hs & Hd).
  cbv zeta in H1, Hs, Hd. simpl item_id in Hs, Hd.
  destruct D1 as [i X|]; [|discriminate].
  eexists. split; [exact Hs|]. split; [exact Hd|]. split.
  - rewrite collapse_all_forms.
    destruct (all_forms_without_at _ _ _ _ _ _ Hf Hsrc) as [Hfound Hw].
    destruct (all_forms_assign _ _ _ H1) as (l1 & l2 & E & Ev).
    rewrite Ev, !all_forms_panel in *. unfold push.
    eapply Permutation_trans; [apply permutation_insert|].
    rewrite <- E, Hw. apply without_permutation, Hfound.
  - intros x Hx. apply collapse_ids in Hx.
    rewrite (ids_assign_same _ _ _ _ H1) in Hx by reflexivity.
    rewrite (ids_assign_same _ _ _ _ Hsrc) in Hx by reflexivity. exact Hx.
Qed.

(** X11. [CDockManager.dockForm] with a destination id that is the id of a
    splitter throws, and by then the form is out of its panel: the tree left
    behind has the same nodes and all forms but the one to move. *)
Theorem dockForm_onto_splitter_throws (t : CDockLayoutItem) (formId : string)
    (dst : Ref) (D_id : string) (p s : CDockLayoutItem)
    (d : DockLayoutDirection) (z : Z) :
  NoDup (ids t) ->
  form_resolves formId t = true ->
  deref t dst = Some (CDockSplitter D_id p s d z) ->
  exists t1,
    CDockManager.dockForm t formId D_id = Some (ThrowTypeError t1)
    /\ ids t1 = ids t
    /\ all_forms t1 = without formId (all_forms t)
    /\ length (all_forms t) = S (length (all_forms t1)).
Proof.
  intros ND Hform Hdst.
  destruct (form_resolves_found _ _ Hform) as (F & src & s_id & s_forms & Hf & Hsrc).
  destruct (stack_result (mkDockStore t 0) formId F src dst s_id s_forms _ ND Hf Hsrc Hdst)
    as (D1 & H1 & _ & Hty & _ & Hd).
  cbv zeta in H1, Hd. simpl item_id in Hd. simpl layout in *.
  destruct D1 as [|]; [discriminate|].
  destruct (all_forms_without_at _ _ _ _ _ _ Hf Hsrc) as [Hfound Hw].
  eexists. split; [exact Hd|]. split; [|split].
  - apply (ids_assign_same _ _ _ _ Hsrc). reflexivity.
  - exact Hw.
  - rewrite Hw.
    rewrite <- (Permutation_length (without_permutation _ _ _ Hfound)). reflexivity.
Qed.

(** ** Trees without gaps *)

Lemma panels_settled (t : CDockLayoutItem) :
  forallb has_forms (panels t) = true ->
  settled t = true /\ is_empty_panel t = false.
Proof.
  induction t as [i fs|i p IHp s IHs d z]; simpl; intros H.
  - destruct fs; [discriminate | auto].
  - rewrite forallb_app in H. apply andb_prop in H as [Hp Hs].
    destruct (IHp Hp) as [Sp Ep]. destruct (IHs Hs) as [Ss Es].
    rewrite Sp, Ss, Ep, Es. auto.
Qed.

Lemma no_empty_panel_settled (t : CDockLayoutItem) :
  no_empty_panel t = true -> settled t = true.
Proof.
  destruct t as [i fs|i p s d z]; [reflexivity|].
  unfold no_empty_panel. intros H. apply (panels_settled _ H).
Qed.

Lemma settled_deref (t u : CDockLayoutItem) (r : Ref) :
  settled t = true -> deref t r = Some u ->
  settled u = true /\ (r <> [] -> is_empty_panel u = false).
Proof.
  revert t; induction r as [|slot r IH]; intros t S H; simpl in H.
  - injection H as ->. split; [exact S | congruence].
  - destruct t as [|i p s d z]; [discriminate|]. simpl in S.
    apply andb_prop in S as [S Ss]. apply andb_prop in S as [S Sp].
    apply andb_prop in S as [Ep Es]. apply negb_true_iff in Ep, Es.
    destruct slot.
    + destruct (IH _ Sp H) as [Su Eu]. split; [exact Su|]. intros _.
      destruct r; [simpl in H; injection H as <-; exact Ep | apply Eu; discriminate].
    + destruct (IH _ Ss H) as [Su Eu]. split; [exact Su|]. intros _.
      destruct r; [simpl in H; injection H as <-; exact Es | apply Eu; discriminate].
Qed.

Lemma assign_not_empty_panel (t u v : CDockLayoutItem) (r : Ref) :
  deref t r = Some u -> is_empty_panel v = false ->
  is_empty_panel (assign t r v) = false.
Proof.
  destruct r as [|slot r]; simpl; intros H E; [exact E|].
  destruct t as [|i p s d z]; [discriminate|]. destruct slot; reflexivity.
Qed.

Lemma settled_assign (t u v : CDockLayoutItem) (r : Ref) :
  settled t = true -> deref t r = Some u ->
  settled v = true -> is_empty_panel v = false ->
  settled (assign t r v) = true.
Proof.
  revert t; induction r as [|slot r IH]; intros t S H Sv Ev; simpl in *; [exact Sv|].
  destruct t as [|i p s d z]; [discriminate|]. simpl in S.
  apply andb_prop in S as [S Ss]. apply andb_prop in S as [S Sp].
  apply andb_prop in S as [Ep Es].
  destruct slot; simpl.
  - rewrite (IH _ Sp H Sv Ev), Ss, Es, (assign_not_empty_panel _ _ _ _ H Ev).
    reflexivity.
  - rewrite (IH _ Ss H Sv Ev), Sp, Ep, (assign_not_empty_panel _ _ _ _ H Ev).
    reflexivity.
Qed.

Lemma without_length (formId : string) (l : list CDockForm) :
  length l <= S (length (without formId l)).
Proof.
  induction l as [|x l IH]; simpl; [lia|].
  destruct (has_id formId x); simpl; lia.
Qed.

(** X9. [split] of a form off a panel that keeps another form, in a layout
    without empty panels: nothing collapses, and the layout returned is the
    layout without the form in which a new splitter stands where the
    destination stood, with the destination as primary, a new panel holding
    the form alone as secondary, the direction asked for and size 50. *)
Theorem split_grafts_splitter (st : DockStore) (formId : string) (F : CDockForm)
    (direction : DockLayoutDirection) (src dst : Ref)
    (s_id : string) (s_forms : list CDockForm) (D : CDockLayoutItem) :
  NoDup (ids (layout st)) ->
  counter_ahead st = true ->
  no_empty_panel (layout st) = true ->
  _findForm formId (layout st) [] = (Some F, Some src) ->
  deref (layout st) src = Some (CDockPanel s_id s_forms) ->
  2 <= length s_forms ->
  deref (layout st) dst = Some D ->
  exists D1,
    let t1 := assign (layout st) src (CDockPanel s_id (without formId s_forms)) in
    deref t1 dst = Some D1
    /\ item_id D1 = item_id D
    /\ useDockManager.split st formId (item_id D) direction
       = Some (Return
                 (mkDockStore
                    (assign t1 dst
                       (CDockSplitter ("dms-" ++ string_of_nat (S (S (counter st))))
                          D1
                          (CDockPanel ("dmp-" ++ string_of_nat (S (counter st))) [F])
                          direction 50))
                    (S (S (counter st))))).
Proof.
  intros ND CA NE Hf Hsrc Hlen Hdst.
  assert (Hguard : String.eqb s_id (item_id D) && (length s_forms <=? 1)%nat = false).
  { destruct (Nat.leb_spec (length s_forms) 1); [lia|]. apply andb_false_r. }
  assert (HD : In (item_id D) (ids (layout st))).
  { apply (deref_ids _ _ _ Hdst), item_id_in_ids. }
  destruct (split_result st formId (item_id D) F direction src s_id s_forms
              ND CA Hf Hsrc Hguard HD) as (r & u & Hr & Hu & N2 & Hs).
  destruct (deref_assign_panel _ D src dst s_id s_forms (without formId s_forms)
              Hsrc Hdst) as (D1 & H1 & Hid & _).
  cbv zeta in Hr, Hs, N2 |- *.
  set (t1 := assign (layout st) src (CDockPanel s_id (without formId s_forms))) in *.
  assert (N1 : NoDup (ids t1)).
  { unfold t1. rewrite (ids_assign_same _ _ _ _ Hsrc); [exact ND | reflexivity]. }
  assert (Er : r = dst).
  { apply (deref_unique t1 u D1 r dst N1 Hr H1). congruence. }
  subst r. rewrite H1 in Hr. injection Hr as <-.
  assert (Ew : is_empty_panel (CDockPanel s_id (without formId s_forms)) = false).
  { pose proof (without_length formId s_forms). simpl.
    destruct (without formId s_forms); [simpl in *; lia | reflexivity]. }
  assert (S1 : settled t1 = true).
  { apply (settled_assign _ _ _ _ (no_empty_panel_settled _ NE) Hsrc);
      [reflexivity | exact Ew]. }
  assert (E1 : is_empty_panel D1 = false).
  { destruct dst as [|slot dst].
    - simpl in H1. injection H1 as <-.
      apply (assign_not_empty_panel _ _ _ _ Hsrc Ew).
    - apply (settled_deref _ _ _ S1 H1). discriminate. }
  exists D1. split; [exact H1|]. split; [exact Hid|].
  rewrite Hs. f_equal. f_equal. f_equal.
  apply settled_collapse, (settled_assign _ _ _ _ S1 H1); [|reflexivity].
  simpl. rewrite E1, (proj1 (settled_deref _ _ _ S1 H1)). reflexivity.
Qed.

(** ** More on the reclamation pass *)

(** X5. After the reclamation pass no splitter has an empty panel as a
    child: the tree returned has no empty panel, unless it is one panel; its
    node ids are ids of the tree given, still unique. *)
Theorem occupyFreeSpace_leaves_no_gap (t : CDockLayoutItem) :
  NoDup (ids t) ->
  exists t',
    reclaim_from_root t = Some t'
    /\ no_empty_panel t' = true
    /\ settled t' = true
    /\ incl (ids t') (ids t)
    /\ NoDup (ids t').
Proof.
  intros ND. exists (collapse t).
  split; [apply reclaim_from_root_collapse, ND|].
  split; [apply settled_no_empty_panel, collapse_settled|].
  split; [apply collapse_settled|].
  split; [apply collapse_ids | apply collapse_NoDup, ND].
Qed.

(** X6. On a layout without empty panels the reclamation pass changes
    nothing. *)
Theorem occupyFreeSpace_fixes_clean_layout (t : CDockLayoutItem) :
  NoDup (ids t) ->
  no_empty_panel t = true ->
  reclaim_from_root t = Some t.
Proof.
  intros ND NE. rewrite (reclaim_from_root_collapse _ ND).
  f_equal. apply settled_collapse, no_empty_panel_settled, NE.
Qed.

Lemma panels_not_nil (t : CDockLayoutItem) : panels t <> [].
Proof.
  induction t as [i fs|i p IHp s IHs d z]; simpl; [discriminate|].
  intros C. apply app_eq_nil in C as [C _]. exact (IHp C).
Qed.

Lemma last_app_right (A : Type) (l1 l2 : list A) (d : A) :
  l2 <> [] -> last (l1 ++ l2) d = last l2 d.
Proof.
  intros H. induction l1 as [|a l1 IH]; simpl; [reflexivity|].
  destruct (l1 ++ l2) eqn:E; [|exact IH].
  apply app_eq_nil in E as [_ E]. contradiction.
Qed.

Lemma collapse_no_forms (t : CDockLayoutItem) :
  all_forms t = [] ->
  is_empty_panel (collapse t) = true
  /\ panels (collapse t) = [last (panels t) (""%string, [])].
Proof.
  induction t as [i fs|i p IHp s IHs d z]; intros H.
  - rewrite all_forms_panel in H. subst fs. simpl. auto.
  - rewrite all_forms_splitter in H. apply app_eq_nil in H as [Hp Hs].
    destruct (IHp Hp) as [Ep _]. destruct (IHs Hs) as [Es Ps].
    simpl. rewrite Ep. split; [exact Es|]. rewrite Ps.
    rewrite last_app_right; [reflexivity | apply panels_not_nil].
Qed.

(** X7. A layout in which no panel holds a form collapses to one panel:
    the pass returns the last panel of the tree in traversal order, empty. *)
Theorem occupyFreeSpace_without_forms (t : CDockLayoutItem) :
  NoDup (ids t) ->
  all_forms t = [] ->
  reclaim_from_root t
  = Some (CDockPanel (fst (last (panels t) (""%string, []))) []).
Proof.
  intros ND H. rewrite (reclaim_from_root_collapse _ ND). f_equal.
  destruct (collapse_no_forms t H) as [E P].
  destruct (collapse t) as [i [|f fs]|]; try discriminate.
  simpl in P. injection P as <-. reflexivity.
Qed.

(** ** The locate operations, in full *)

Lemma grandparent_ref_step (here : Ref) (pa gp : option Ref) (slot : Slot) (r : Ref) :
  grandparent_ref (here ++ [slot]) (Some here) pa r
  = grandparent_ref here pa gp (slot :: r).
Proof.
  destruct r as [|a [|b r]]; simpl.
  - reflexivity.
  - rewrite app_nil_r. reflexivity.
  - rewrite <- app_assoc. reflexivity.
Qed.

Lemma findLayoutItem_relatives (x : string) (t : CDockLayoutItem) :
  forall here pa gp f pa' gp',
    _findLayoutItem x t here pa gp = (Some f, pa', gp') ->
    exists r, f = here ++ r
              /\ pa' = parent_ref here pa r
              /\ gp' = grandparent_ref here pa gp r.
Proof.
  induction t as [i fs|i p IHp s IHs d z]; intros here pa gp f pa' gp' H; simpl in H.
  - destruct (String.eqb x i); [|discriminate].
    injection H as <- <- <-. exists []. rewrite app_nil_r. auto.
  - destruct (String.eqb x i).
    + injection H as <- <- <-. exists []. rewrite app_nil_r. auto.
    + destruct (_findLayoutItem x p (primary_of here) (Some here) pa)
        as [[f1 pa1] gp1] eqn:E1.
      destruct f1 as [f1|].
      * injection H as <- <- <-.
        destruct (IHp _ _ _ _ _ _ E1) as (r & -> & -> & ->).
        exists (Primary :: r). unfold primary_of.
        rewrite <- app_assoc, (parent_ref_step here pa),
          (grandparent_ref_step here pa gp). auto.
      * destruct (_findLayoutItem x s (secondary_of here) (Some here) pa)
          as [[f2 pa2] gp2] eqn:E2.
        destruct f2 as [f2|]; [|discriminate].
        injection H as <- <- <-.
        destruct (IHs _ _ _ _ _ _ E2) as (r & -> & -> & ->).
        exists (Secondary :: r). unfold secondary_of.
        rewrite <- app_assoc, (parent_ref_step here pa),
          (grandparent_ref_step here pa gp). auto.
Qed.

Lemma parent_ref_root_two (q : Ref) (slot' slot : Slot) :
  parent_ref [] None (q ++ [slot'; slot]) = Some (q ++ [slot']).
Proof.
  unfold parent_ref.
  destruct (q ++ [slot'; slot]) as [|c l] eqn:E; [destruct q; discriminate|].
  rewrite <- E. change [slot'; slot] with ([slot'] ++ [slot]).
  rewrite app_assoc, removelast_last. reflexivity.
Qed.

Lemma grandparent_ref_root_two (q : Ref) (slot' slot : Slot) :
  grandparent_ref [] None None (q ++ [slot'; slot]) = Some q.
Proof.
  unfold grandparent_ref.
  destruct (q ++ [slot'; slot]) as [|c [|e l]] eqn:E.
  - destruct q; discriminate.
  - destruct q as [|? [|? ?]]; discriminate.
  - rewrite <- E. change [slot'; slot] with ([slot'] ++ [slot]).
    rewrite app_assoc, !removelast_last. reflexivity.
Qed.

(** X1. [_findLayoutItem] from the root finds a node exactly when the id
    searched is the id of a node of the tree.  What it returns is a node with
    that id, with no parent if it is the root, else with the splitter one
    step above as parent, and as grandparent the splitter two steps above,
    if there is one. *)
Theorem findLayoutItem_complete (x : string) (t : CDockLayoutItem) :
  match _findLayoutItem x t [] None None with
  | (Some f, parent, grandparent) =>
      In x (ids t)
      /\ (exists u, deref t f = Some u /\ item_id u = x)
      /\ ((f = [] /\ parent = None /\ grandparent = None)
          \/ (exists slot, f = [slot] /\ parent = Some [] /\ grandparent = None)
          \/ (exists q slot' slot,
                f = q ++ [slot'; slot]
                /\ parent = Some (q ++ [slot'])
                /\ grandparent = Some q))
  | (None, parent, grandparent) =>
      ~ In x (ids t) /\ parent = None /\ grandparent = None
  end.
Proof.
  destruct (_findLayoutItem x t [] None None) as [[[f|] pa] gp] eqn:E.
  - destruct (findLayoutItem_sound _ _ _ _ _ _ _ _ E) as (r & u & Er & Hr & Hu & _).
    simpl in Er. subst r.
    destruct (findLayoutItem_relatives _ _ _ _ _ _ _ _ E) as (r & Er & -> & ->).
    simpl in Er. subst r.
    split; [rewrite <- Hu; apply (deref_ids _ _ _ Hr), item_id_in_ids|].
    split; [eauto|].
    destruct f as [|a f]; [left; auto|]. right.
    destruct (exists_last (l := a :: f)) as (q1 & slot & E1); [discriminate|].
    rewrite E1. clear E1 a f Hr E.
    destruct q1 as [|b q1].
    + left. exists slot. auto.
    + right. destruct (exists_last (l := b :: q1)) as (q & slot' & E2); [discriminate|].
      rewrite E2. clear E2. exists q, slot', slot.
      rewrite <- app_assoc. simpl app.
      split; [reflexivity|].
      split; [apply parent_ref_root_two | apply grandparent_ref_root_two].
  - pose proof (findLayoutItem_none _ _ _ _ _ _ _ E) as Hn.
    rewrite (findLayoutItem_absent _ _ Hn) in E. injection E as <- <-. auto.
Qed.

(** X2. [_findForm] returns the first form with the id searched, in the
    order in which the panels are traversed (primary before secondary), and
    the panel that holds it; it returns nothing exactly when no form of the
    tree has the id. *)
Theorem findForm_complete (formId : string) (t : CDockLayoutItem) :
  match _findForm formId t [] with
  | (Some F, Some panel) =>
      find (has_id formId) (all_forms t) = Some F
      /\ form_id F = formId
      /\ exists i fs, deref t panel = Some (CDockPanel i fs)
                      /\ find (has_id formId) fs = Some F
  | (None, None) => forall F, In F (all_forms t) -> form_id F <> formId
  | _ => False
  end.
Proof.
  pose proof (findForm_first formId t []) as Hfirst.
  destruct (_findForm formId t []) as [[F|] panel] eqn:E; simpl in Hfirst.
  - destruct (findForm_sound _ _ _ _ _ E) as (r & i & fs & -> & Hr & Hf).
    simpl. split; [auto|]. split; [|eauto].
    apply find_some in Hf. destruct Hf as [_ Hf]. unfold has_id in Hf.
    apply String.eqb_eq, Hf.
  - rewrite (findForm_none _ _ _ _ E). intros F HF C.
    symmetry in Hfirst.
    pose proof (find_none _ _ Hfirst F HF) as Hn. unfold has_id in Hn.
    rewrite C, String.eqb_refl in Hn. discriminate.
Qed.

(** X3. [_extractForm] takes out of the tree the first form with the id, in
    traversal order, and returns it with its panel: the other forms stay
    where they are and no node changes its id.  With no such form the tree
    stays as it is. *)
Theorem extractForm_removes_first (formId : string) (t : CDockLayoutItem) :
  match CDockManager._extractForm t formId with
  | Some (Some F, Some source, t') =>
      find (has_id formId) (all_forms t) = Some F
      /\ all_forms t' = without formId (all_forms t)
      /\ ids t' = ids t
      /\ exists i fs, deref t source = Some (CDockPanel i fs)
                      /\ deref t' source = Some (CDockPanel i (without formId fs))
  | Some (None, None, t') =>
      t' = t /\ find (has_id formId) (all_forms t) = None
  | _ => False
  end.
Proof.
  unfold CDockManager._extractForm.
  pose proof (findForm_first formId t []) as Hfirst.
  destruct (_findForm formId t []) as [[F|] panel] eqn:E; simpl in Hfirst.
  - destruct (findForm_sound _ _ _ _ _ E) as (r & i & fs & -> & Hr & Hf).
    simpl app in *. rewrite Hr.
    destruct (all_forms_without_at _ _ _ _ _ _ E Hr) as [Hfound Hw].
    unfold set_forms. rewrite Hr, splice1_findIndex by congruence.
    split; [exact Hfound|]. split; [exact Hw|].
    split; [apply (ids_assign_same _ _ _ _ Hr); reflexivity|].
    exists i, fs. split; [reflexivity | apply (deref_assign _ _ _ _ Hr)].
  - rewrite (findForm_none _ _ _ _ E). auto.
Qed.

(** ** The id factory *)

Lemma string_of_nat_inj (n m : nat) : string_of_nat n = string_of_nat m -> n = m.
Proof.
  intros E. pose proof (uint_of_string_of_nat n) as Hn.
  rewrite E, uint_of_string_of_nat in Hn. congruence.
Qed.

Lemma append_inj_l (p s1 s2 : string) : (p ++ s1 = p ++ s2)%string -> s1 = s2.
Proof.
  induction p as [|a p IH]; simpl; intros E; [exact E|].
  injection E as E. exact (IH E).
Qed.

(** X4. Ids made with one prefix at different values of the counter are
    different, each call moves the counter by one, and ids made for forms,
    panels and splitters never coincide. *)
Theorem hash_ids_distinct (prefix : string) (c1 c2 : nat) :
  c1 <> c2 ->
  fst (_hash c1 prefix) <> fst (_hash c2 prefix)
  /\ snd (_hash c1 prefix) = S c1
  /\ fst (_hash c1 "dmf") <> fst (_hash c2 "dmp")
  /\ fst (_hash c1 "dmf") <> fst (_hash c2 "dms")
  /\ fst (_hash c1 "dmp") <> fst (_hash c2 "dms").
Proof.
  intros Hc. unfold _hash. simpl fst. simpl snd. split; [|split; [reflexivity|]].
  - intros E. apply append_inj_l in E. simpl in E. injection E as E.
    apply string_of_nat_inj in E. lia.
  - simpl. repeat split; discriminate.
Qed.

Lemma hash_ids_distinct_witness :
  fst (_hash 1 "dmp") <> fst (_hash 2 "dmp")
  /\ snd (_hash 1 "dmp") = 2
  /\ fst (_hash 1 "dmf") <> fst (_hash 2 "dmp")
  /\ fst (_hash 1 "dmf") <> fst (_hash 2 "dms")
  /\ fst (_hash 1 "dmp") <> fst (_hash 2 "dms").
Proof.
  apply (hash_ids_distinct "dmp" 1 2). discriminate.
Defined.

(** ** The two front ends side by side *)

(** X12. Whenever [CDockManager.dockForm] returns, the updater of
    [useDockManager.stack] returns on the same layout, form id and
    destination id, with the same tree and the counter as it was.  The case
    in which [dockForm] throws is left out. *)
Theorem stack_agrees_with_dockForm (st : DockStore) (formId panelId : string)
    (t' : CDockLayoutItem) :
  CDockManager.dockForm (layout st) formId panelId = Some (Return t') ->
  useDockManager.stack st formId panelId
  = Some (Return (mkDockStore t' (counter st))).
Proof.
  unfold useDockManager.stack, CDockManager.dockForm, CDockManager._extractForm.
  destruct (_findForm formId (layout st) []) as [[F|] [src|]];
    try destruct (deref (layout st) src) as [[i fs|]|]; try discriminate;
    try (intros [= <-]; reflexivity);
    match goal with
    | |- context [_findLayoutItem panelId ?t [] None None] =>
        destruct (_findLayoutItem panelId t [] None None) as [[[dst|] pa] gp];
        try (intros [= <-]; reflexivity);
        destruct (deref t dst) as [[j gs|]|]; try discriminate;
        match goal with
        | |- context [reclaim_from_root ?u] =>
            destruct (reclaim_from_root u); [|discriminate];
            intros [= <-]; reflexivity
        end
    end.
Qed.

Lemma stack_agrees_with_dockForm_witness :
  useDockManager.stack side_by_side_store "dmf-1" "dmp-4"
  = Some (Return (mkDockStore (CDockPanel "dmp-4" [F2; F1])
                              (counter side_by_side_store))).
Proof.
  apply (stack_agrees_with_dockForm side_by_side_store "dmf-1" "dmp-4").
  reflexivity.
Defined.

(** X13. Where the guard of the hook does not apply, [CDockManager.splitPanel]
    and [useDockManager.split] do the same: the same tree and the same
    counter come back. *)
Theorem splitPanel_agrees_with_split (st : DockStore) (formId destPanelId : string)
    (direction : DockLayoutDirection) :
  self_split_guard (layout st) formId destPanelId = false ->
  useDockManager.split st formId destPanelId direction
  = option_map (Completion_map (fun lc => mkDockStore (fst lc) (snd lc)))
      (CDockManager.splitPanel (counter st) (layout st) formId destPanelId direction).
Proof.
  unfold self_split_guard, useDockManager.split, CDockManager.splitPanel,
    CDockManager._extractForm.
  destruct (_findForm formId (layout st) []) as [[F|] panel] eqn:E.
  - destruct (findForm_sound _ _ _ _ _ E) as (r & i & fs & -> & Hr & _).
    simpl app. rewrite Hr. intros ->.
    destruct (_findLayoutItem destPanelId _ [] None None) as [[[dst|] pa] gp].
    + match goal with
      | |- context [deref ?t dst] => destruct (deref t dst) as [D|]
      end; [|reflexivity].
      rewrite createPanel_eq, createSplitter_eq.
      destruct pa as [pa|];
        match goal with
        | |- context [reclaim_from_root ?u] =>
            destruct (reclaim_from_root u); reflexivity
        end.
    + match goal with
      | |- context [reclaim_from_root ?u] =>
          destruct (reclaim_from_root u); reflexivity
      end.
  - intros _. destruct st; reflexivity.
Qed.

Lemma splitPanel_agrees_with_split_witness :
  useDockManager.split side_by_side_store "dmf-1" "dmp-4" Vertical
  = option_map (Completion_map (fun lc => mkDockStore (fst lc) (snd lc)))
      (CDockManager.splitPanel 5 side_by_side "dmf-1" "dmp-4" Vertical).
Proof.
  apply (splitPanel_agrees_with_split side_by_side_store "dmf-1" "dmp-4" Vertical).
  reflexivity.
Defined.

(** ** Layouts without forms *)

(** X14. [split] and [stack] move forms that are in the layout and bring
    none in: on a layout in which no panel holds a form, as the layout of the
    first render is, every call of a sequence returns the store it was made
    on.  The layout stays as it was; the counter moves with the renders
    between the calls, and with nothing else. *)
Theorem calls_on_layout_without_forms (calls : list (Call * nat)) :
  forall st : DockStore,
    all_forms (layout st) = [] ->
    run_calls st calls = Some (rendered_stores st calls)
    /\ Forall (fun st' => layout st' = layout st /\ counter st <= counter st')
              (rendered_stores st calls).
Proof.
  induction calls as [|[c n] rest IH]; intros st H; simpl;
    [split; [reflexivity | constructor]|].
  assert (Hnone : forall formId, fst (_findForm formId (layout st) []) = None).
  { intros formId. rewrite findForm_first, H. reflexivity. }
  assert (Hrun : run_call st c = Some (Return st)).
  { destruct c as [formId d dir|formId d]; simpl.
    - apply split_form_not_found, Hnone.
    - apply stack_form_not_found, Hnone. }
  rewrite Hrun.
  destruct (IH (renders n st)) as [Hs Hall]; [rewrite layout_renders; exact H|].
  rewrite Hs. split; [reflexivity|].
  constructor; [split; [reflexivity | lia]|].
  apply (Forall_impl _ (P := fun st' => layout st' = layout (renders n st)
                                        /\ counter (renders n st) <= counter st'));
    [|exact Hall].
  intros st' [Hl Hc]. rewrite layout_renders in Hl. rewrite counter_renders in Hc.
  split; [exact Hl | lia].
Qed.

Lemma calls_on_layout_without_forms_witness :
  layout initial_store = CDockPanel "dmp-1" []
  /\ run_calls initial_store three_calls
     = Some [mkDockStore (CDockPanel "dmp-1" []) 1;
             mkDockStore (CDockPanel "dmp-1" []) 2;
             mkDockStore (CDockPanel "dmp-1" []) 3].
Proof.
  split; [reflexivity|].
  apply (calls_on_layout_without_forms three_calls initial_store). reflexivity.
Defined.

(** ** Forms along a sequence of calls *)

Lemma call_conserves (st : DockStore) (c : Call) :
  NoDup (ids (layout st)) ->
  no_empty_panel (layout st) = true ->
  counter_ahead st = true ->
  ids_resolve st c = true ->
  exists st',
    run_call st c = Some (Return st')
    /\ NoDup (ids (layout st'))
    /\ no_empty_panel (layout st') = true
    /\ counter_ahead st' = true
    /\ Permutation (all_forms (layout st')) (all_forms (layout st)).
Proof.
  intros ND NE CA Hres.
  destruct (call_keeps_invariants st c ND NE CA Hres) as (st' & Hrun & ND' & NE' & CA').
  exists st'. repeat split; try assumption.
  destruct c as [formId d dir|formId d]; simpl in Hres, Hrun;
    apply andb_prop in Hres as [Hform Hdest].
  - destruct (split_call_conserves st formId d dir ND CA Hform Hdest)
      as (st2 & Hs & Hp & _).
    rewrite Hrun in Hs. injection Hs as <-. exact Hp.
  - destruct (stack_call_conserves st formId d ND Hform Hdest)
      as (t2 & Hs & _ & Hp & _).
    rewrite Hrun in Hs. injection Hs as ->. exact Hp.
Qed.

(** X20. A sequence of [split] and [stack] calls whose ids resolve, each
    made on the state that the latest render shows, loses or duplicates no
    form, however many renders lie between two calls: from a store with
    unique node ids, no empty panel under a splitter and its counter ahead of
    the ids, every call returns and the forms of the layout after each call
    are the forms the layout had at the start, rearranged.  Calls made one
    after the other within one render are left out. *)
Theorem calls_conserve_forms (calls : list (Call * nat)) :
  forall st : DockStore,
    NoDup (ids (layout st)) ->
    no_empty_panel (layout st) = true ->
    counter_ahead st = true ->
    all_resolve st calls = true ->
    one_call_per_render st calls ->
    exists stores,
      run_calls st calls = Some stores
      /\ length stores = length calls
      /\ Forall (fun st' => Permutation (all_forms (layout st')) (all_forms (layout st)))
                stores.
Proof.
  induction calls as [|[c n] rest IH]; intros st ND NE CA Hall Hone; simpl in *.
  - exists []. repeat split. constructor.
  - apply andb_prop in Hall as [Hres Hrest].
    destruct (call_conserves st c ND NE CA Hres) as (st' & Hrun & ND' & NE' & CA' & Hp).
    rewrite Hrun in *. destruct Hone as [_ Hone].
    destruct (IH (renders n st')) as (stores & Hs & Hl & Hall).
    + rewrite layout_renders. exact ND'.
    + rewrite layout_renders. exact NE'.
    + apply counter_ahead_renders, CA'.
    + exact Hrest.
    + exact Hone.
    + exists (st' :: stores). rewrite Hs. simpl. repeat split.
      * f_equal. exact Hl.
      * constructor; [exact Hp|].
        eapply Forall_impl; [|exact Hall].
        intros a Ha. rewrite layout_renders in Ha. exact (Permutation_trans Ha Hp).
Qed.

Lemma calls_conserve_forms_witness :
  exists stores,
    run_calls side_by_side_store three_calls = Some stores
    /\ length stores = length three_calls
    /\ Forall (fun st' => Permutation (all_forms (layout st'))
                                      (all_forms (layout side_by_side_store)))
              stores.
Proof.
  apply (calls_conserve_forms three_calls side_by_side_store).
  - distinct_ids.
  - reflexivity.
  - vm_compute. reflexivity.
  - vm_compute. reflexivity.
  - vm_compute. repeat (split; [left; lia|]). exact I.
Defined.

(** ** The further properties on the sample layouts *)

Lemma split_conserves_forms_witness :
  exists st',
    useDockManager.split side_by_side_store "dmf-1" "dmp-4" Vertical
    = Some (Return st')
    /\ Permutation (all_forms (layout st')) (all_forms (layout side_by_side_store))
    /\ (counter st' = counter side_by_side_store
        \/ counter st' = S (S (counter side_by_side_store))).
Proof.
  apply (split_conserves_forms side_by_side_store "dmf-1" "dmp-4" Vertical).
  - distinct_ids.
  - vm_compute. reflexivity.
  - reflexivity.
  - reflexivity.
Defined.

Lemma stack_conserves_forms_witness :
  exists t',
    useDockManager.stack side_by_side_store "dmf-1" "dmp-4"
    = Some (Return (mkDockStore t' (counter side_by_side_store)))
    /\ CDockManager.dockForm (layout side_by_side_store) "dmf-1" "dmp-4"
       = Some (Return t')
    /\ Permutation (all_forms t') (all_forms (layout side_by_side_store))
    /\ incl (ids t') (ids (layout side_by_side_store)).
Proof.
  apply (stack_conserves_forms side_by_side_store "dmf-1" "dmp-4").
  - distinct_ids.
  - reflexivity.
  - reflexivity.
Defined.

Lemma dockForm_onto_splitter_throws_witness :
  exists t1,
    CDockManager.dockForm side_by_side "dmf-1" "dms-5" = Some (ThrowTypeError t1)
    /\ ids t1 = ids side_by_side
    /\ all_forms t1 = without "dmf-1" (all_forms side_by_side)
    /\ length (all_forms side_by_side) = S (length (all_forms t1)).
Proof.
  apply (dockForm_onto_splitter_throws side_by_side "dmf-1" []
           "dms-5" P1 P2 Horizontal 50).
  - distinct_ids.
  - reflexivity.
  - reflexivity.
Defined.

Lemma split_grafts_splitter_witness :
  exists D1,
    deref (assign crowded [Primary] (CDockPanel "dmp-3" (without "dmf-1" [F1; F3])))
          [Secondary] = Some D1
    /\ item_id D1 = item_id P2
    /\ useDockManager.split crowded_store "dmf-1" (item_id P2) Vertical
       = Some (Return
                 (mkDockStore
                    (assign
                       (assign crowded [Primary]
                          (CDockPanel "dmp-3" (without "dmf-1" [F1; F3])))
                       [Secondary]
                       (CDockSplitter ("dms-" ++ string_of_nat 8) D1
                          (CDockPanel ("dmp-" ++ string_of_nat 7) [F1])
                          Vertical 50))
                    8)).
Proof.
  apply (split_grafts_splitter crowded_store "dmf-1" F1 Vertical
           [Primary] [Secondary] "dmp-3" [F1; F3] P2).
  - distinct_ids.
  - vm_compute. reflexivity.
  - reflexivity.
  - reflexivity.
  - reflexivity.
  - simpl. lia.
  - reflexivity.
Defined.

Lemma occupyFreeSpace_leaves_no_gap_witness :
  exists t',
    reclaim_from_root two_gaps = Some t'
    /\ no_empty_panel t' = true
    /\ settled t' = true
    /\ incl (ids t') (ids two_gaps)
    /\ NoDup (ids t').
Proof.
  apply (occupyFreeSpace_leaves_no_gap two_gaps). distinct_ids.
Defined.

Lemma occupyFreeSpace_fixes_clean_layout_witness :
  reclaim_from_root side_by_side = Some side_by_side.
Proof.
  apply (occupyFreeSpace_fixes_clean_layout side_by_side).
  - distinct_ids.
  - reflexivity.
Defined.

Lemma occupyFreeSpace_without_forms_witness :
  reclaim_from_root only_gaps
  = Some (CDockPanel (fst (last (panels only_gaps) (""%string, []))) []).
Proof.
  apply (occupyFreeSpace_without_forms only_gaps).
  - distinct_ids.
  - reflexivity.
Defined.

(** X15. The clone of the hook is a copy of the whole layout when the
    payloads of the forms are JSON values and the numbers of the layout, the
    sizes of the splitters and the numbers within the payloads, are integers
    of magnitude below 2^53: every node with its id, type, direction and
    size, and every form of every panel, in order, with its id, title and
    payload.  Sizes that are NaN, infinite, the negative zero or not an
    integer are left out. *)
Theorem useDockManager_clone_round_trip (t : CDockLayoutItem) :
  payloads_stable t = true ->
  layout_numbers_exact t = true ->
  useDockManager.clone t = Some (js_of_item t)
  /\ option_map (js_get "id") (useDockManager.clone t) = Some (JString (item_id t)).
Proof.
  intros H _. rewrite (useDockManager_clone_copies t H). split; [reflexivity|].
  destruct t; reflexivity.
Qed.

Lemma useDockManager_clone_round_trip_witness :
  useDockManager.clone side_by_side = Some (js_of_item side_by_side)
  /\ option_map (js_get "id") (useDockManager.clone side_by_side)
     = Some (JString (item_id side_by_side)).
Proof.
  apply (useDockManager_clone_round_trip side_by_side); reflexivity.
Defined.

(** * Properties of the drag tracker *)

Section DragProperties.

Variable number : Type.
Variable minus : number -> number -> number.
Variable zero : number.
Variable U : Type.

Lemma EventType_eqb_refl (ty : Drag.EventType) : Drag.EventType_eqb ty ty = true.
Proof. destruct ty; reflexivity. Qed.

Lemma EventType_eqb_eq (a b : Drag.EventType) :
  Drag.EventType_eqb a b = true -> a = b.
Proof. destruct a, b; simpl; congruence. Qed.

Lemma Method_eqb_refl (m : Drag.Method) : Drag.Method_eqb m m = true.
Proof. destruct m; reflexivity. Qed.

(** A function bound now is not among the listeners bound before. *)
Lemma fresh_bound_not_registered (ls : list (Drag.EventType * Drag.Listener))
    (b n : nat) (ty : Drag.EventType) (m : Drag.Method) :
  Forall (fun e => exists k, k < b /\ snd e = Drag.Bound k (Drag.method_of (fst e))) ls ->
  b <= n ->
  existsb (Drag.registered ty (Drag.Bound n m)) ls = false.
Proof.
  induction 1 as [|[ty' l] ls (k & Hk & Hl) _ IH]; intros Hn; simpl; [reflexivity|].
  rewrite (IH Hn), orb_false_r. simpl in Hl. subst l.
  unfold Drag.registered. simpl.
  destruct (Nat.eqb_spec k n); [lia|]. simpl. apply andb_false_r.
Qed.

(** The method itself is not among the bound listeners. *)
Lemma remove_unbound (ls : list (Drag.EventType * Drag.Listener))
    (b : nat) (ty : Drag.EventType) (m : Drag.Method) :
  Forall (fun e => exists k, k < b /\ snd e = Drag.Bound k (Drag.method_of (fst e))) ls ->
  Drag.remove_listener ty (Drag.Unbound m) ls = ls.
Proof.
  induction 1 as [|[ty' l] ls (k & Hk & Hl) _ IH]; simpl; [reflexivity|].
  simpl in Hl. subst l. unfold Drag.registered at 1. simpl.
  rewrite andb_false_r, IH. reflexivity.
Qed.

Lemma onEndDrag_world (p : Drag.Point number) (w : Drag.World number U) :
  Drag.bound_listeners w ->
  Drag._onEndDrag p w
  = Drag.mkWorld
      (Drag.mkMovable (Drag.start (Drag.movable w)) (Drag.current (Drag.movable w))
                      false (Drag.onChange (Drag.movable w)))
      (Drag.listeners w) (Drag.binds w) (Drag.user w).
Proof.
  intros B. unfold Drag._onEndDrag, Drag.removeEventListener, Drag.set_movable.
  simpl. rewrite !(remove_unbound _ _ _ _ B). reflexivity.
Qed.

Lemma onStartDrag_world (p : Drag.Point number) (w : Drag.World number U) :
  Drag.bound_listeners w ->
  Drag._onStartDrag p w
  = Drag.mkWorld
      (Drag.mkMovable p p true (Drag.onChange (Drag.movable w)))
      (Drag.listeners w
       ++ [(Drag.mousemove, Drag.Bound (Drag.binds w) Drag._onMouseMove);
           (Drag.mouseup, Drag.Bound (S (Drag.binds w)) Drag._onMouseUp);
           (Drag.touchmove, Drag.Bound (S (S (Drag.binds w))) Drag._onTouchMove);
           (Drag.touchend, Drag.Bound (S (S (S (Drag.binds w)))) Drag._onTouchEnd)])
      (S (S (S (S (Drag.binds w))))) (Drag.user w).
Proof.
  intros B. unfold Drag.bound_listeners in B.
  set (b := Drag.binds w) in *.
  unfold Drag._onStartDrag, Drag.bind_this, Drag.addEventListener, Drag.set_movable.
  cbn [Drag.listeners Drag.binds Drag.movable Drag.user].
  fold b.
  rewrite (fresh_bound_not_registered _ b b _ _ B) by lia.
  cbn [Drag.listeners Drag.binds Drag.movable Drag.user].
  rewrite !existsb_app, (fresh_bound_not_registered _ b (S b) _ _ B) by lia.
  cbn.
  rewrite !existsb_app, (fresh_bound_not_registered _ b (S (S b)) _ _ B) by lia.
  cbn.
  rewrite !existsb_app, (fresh_bound_not_registered _ b (S (S (S b))) _ _ B) by lia.
  cbn.
  rewrite <- !app_assoc. reflexivity.
Qed.

Lemma listeners_of_cons (ty ty' : Drag.EventType) (l : Drag.Listener)
    (ls : list (Drag.EventType * Drag.Listener)) :
  Drag.listeners_of ty ((ty', l) :: ls)
  = if Drag.EventType_eqb ty' ty then S (Drag.listeners_of ty ls)
    else Drag.listeners_of ty ls.
Proof.
  unfold Drag.listeners_of. simpl. destruct (Drag.EventType_eqb ty' ty); reflexivity.
Qed.

Lemma listeners_of_start (ty : Drag.EventType)
    (ls : list (Drag.EventType * Drag.Listener)) (b : nat) :
  Drag.listeners_of ty
    (ls ++ [(Drag.mousemove, Drag.Bound b Drag._onMouseMove);
            (Drag.mouseup, Drag.Bound (S b) Drag._onMouseUp);
            (Drag.touchmove, Drag.Bound (S (S b)) Drag._onTouchMove);
            (Drag.touchend, Drag.Bound (S (S (S b))) Drag._onTouchEnd)])
  = S (Drag.listeners_of ty ls).
Proof.
  unfold Drag.listeners_of. rewrite filter_app, length_app.
  destruct ty; simpl; lia.
Qed.

Lemma onStartDrag_bound (p : Drag.Point number) (w : Drag.World number U) :
  Drag.bound_listeners w -> Drag.bound_listeners (Drag._onStartDrag p w).
Proof.
  intros B. rewrite (onStartDrag_world p w B).
  unfold Drag.bound_listeners in *. cbn [Drag.listeners Drag.binds].
  apply Forall_app. split.
  - eapply Forall_impl; [|exact B]. intros e (k & Hk & He). exists k. split; [lia|auto].
  - repeat constructor; cbn [fst snd];
      eexists; (split; [|reflexivity]); lia.
Qed.

(** The listeners of one type run one after the other, each as the handler
    of that type, as long as the handler leaves the listeners alone. *)
Lemma run_listeners_iter (ty : Drag.EventType) (e : Drag.Event number)
    (handler : Drag.World number U -> Drag.World number U) :
  (forall w, Drag.call_method minus (Drag.method_of ty) e w = Some (handler w)) ->
  (forall w, Drag.bound_listeners w ->
             Drag.listeners (handler w) = Drag.listeners w
             /\ Drag.binds (handler w) = Drag.binds w) ->
  forall snapshot w,
    Drag.bound_listeners w ->
    incl snapshot (Drag.listeners w) ->
    Drag.run_listeners minus ty e snapshot w
    = Some (Nat.iter (Drag.listeners_of ty snapshot) handler w).
Proof.
  intros Hcall Hkeep. induction snapshot as [|[ty' l] rest IH]; intros w B Hin.
  - reflexivity.
  - rewrite listeners_of_cons. cbn [Drag.run_listeners].
    assert (Hrest : incl rest (Drag.listeners w))
      by (intros a Ha; apply Hin; right; exact Ha).
    destruct (Drag.EventType_eqb ty' ty) eqn:Ety; cbn [andb].
    + apply EventType_eqb_eq in Ety. subst ty'.
      assert (Hmem : In (ty, l) (Drag.listeners w)) by (apply Hin; left; reflexivity).
      unfold Drag.bound_listeners in B. rewrite Forall_forall in B.
      destruct (B _ Hmem) as (k & Hk & Hl). cbn [fst snd] in Hl. subst l.
      assert (Hreg : existsb (Drag.registered ty (Drag.Bound k (Drag.method_of ty)))
                             (Drag.listeners w) = true).
      { apply existsb_exists. eexists. split; [exact Hmem|].
        unfold Drag.registered. cbn.
        rewrite EventType_eqb_refl, Nat.eqb_refl, Method_eqb_refl. reflexivity. }
      rewrite Hreg. cbn [Drag.invoke]. rewrite Hcall.
      assert (B0 : Drag.bound_listeners w) by (apply Forall_forall, B).
      destruct (Hkeep w B0) as [Kl Kb].
      rewrite IH.
      * rewrite <- Nat.iter_succ_r. reflexivity.
      * unfold Drag.bound_listeners. rewrite Kl, Kb. apply Forall_forall, B.
      * rewrite Kl. exact Hrest.
    + apply IH; assumption.
Qed.

Lemma dispatch_iter (ty : Drag.EventType) (e : Drag.Event number)
    (handler : Drag.World number U -> Drag.World number U) (w : Drag.World number U) :
  (forall w, Drag.call_method minus (Drag.method_of ty) e w = Some (handler w)) ->
  (forall w, Drag.bound_listeners w ->
             Drag.listeners (handler w) = Drag.listeners w
             /\ Drag.binds (handler w) = Drag.binds w) ->
  Drag.bound_listeners w ->
  Drag.dispatch minus ty e w
  = Some (Nat.iter (Drag.listeners_of ty (Drag.listeners w)) handler w).
Proof.
  intros Hcall Hkeep B. unfold Drag.dispatch.
  apply (run_listeners_iter ty e handler Hcall Hkeep); [exact B | apply incl_refl].
Qed.

Lemma onDrag_keeps (p : Drag.Point number) (w : Drag.World number U) :
  Drag.bound_listeners w ->
  Drag.listeners (Drag._onDrag minus p w) = Drag.listeners w
  /\ Drag.binds (Drag._onDrag minus p w) = Drag.binds w.
Proof.
  intros _. unfold Drag._onDrag. destruct (Drag.isDragging (Drag.movable w)); auto.
Qed.

Lemma onEndDrag_keeps (p : Drag.Point number) (w : Drag.World number U) :
  Drag.bound_listeners w ->
  Drag.listeners (Drag._onEndDrag p w) = Drag.listeners w
  /\ Drag.binds (Drag._onEndDrag p w) = Drag.binds w.
Proof. intros B. rewrite (onEndDrag_world p w B). auto. Qed.

Lemma keeps_bound (h : Drag.World number U -> Drag.World number U)
    (w : Drag.World number U) :
  Drag.listeners (h w) = Drag.listeners w /\ Drag.binds (h w) = Drag.binds w ->
  Drag.bound_listeners w -> Drag.bound_listeners (h w).
Proof. intros [Kl Kb] B. unfold Drag.bound_listeners. rewrite Kl, Kb. exact B. Qed.

Lemma iter_keeps (h : Drag.World number U -> Drag.World number U) (n : nat) :
  (forall w, Drag.bound_listeners w ->
             Drag.listeners (h w) = Drag.listeners w
             /\ Drag.binds (h w) = Drag.binds w) ->
  forall w, Drag.bound_listeners w ->
            Drag.bound_listeners (Nat.iter n h w)
            /\ Drag.listeners (Nat.iter n h w) = Drag.listeners w
            /\ Drag.binds (Nat.iter n h w) = Drag.binds w.
Proof.
  intros Hkeep w B. induction n as [|n (Bn & Ln & Kn)]; simpl; [auto|].
  destruct (Hkeep _ Bn) as [Kl Kb].
  split; [apply keeps_bound; auto|]. split; congruence.
Qed.

(** The moves of one event while a drag is on: the first listener reports
    the step from the point before, the others a step from the point to
    itself. *)
Lemma iter_onDrag (p : Drag.Point number) (k : nat) (w : Drag.World number U) :
  Drag.isDragging (Drag.movable w) = true ->
  Nat.iter (S k) (Drag._onDrag minus p) w
  = Drag.mkWorld
      (Drag.mkMovable (Drag.start (Drag.movable w)) p true
                      (Drag.onChange (Drag.movable w)))
      (Drag.listeners w) (Drag.binds w)
      (Nat.iter k (Drag.onChange (Drag.movable w) (Drag.delta minus p p) p)
         (Drag.onChange (Drag.movable w)
            (Drag.delta minus p (Drag.current (Drag.movable w))) p (Drag.user w))).
Proof.
  intros Hd. induction k as [|k IH].
  - simpl. unfold Drag._onDrag. rewrite Hd. reflexivity.
  - rewrite Nat.iter_succ, IH. unfold Drag._onDrag. reflexivity.
Qed.

Lemma iter_onDrag_idle (p : Drag.Point number) (k : nat) (w : Drag.World number U) :
  Drag.isDragging (Drag.movable w) = false ->
  Nat.iter k (Drag._onDrag minus p) w = w.
Proof.
  intros Hd. induction k as [|k IH]; [reflexivity|].
  rewrite Nat.iter_succ, IH. unfold Drag._onDrag. rewrite Hd. reflexivity.
Qed.

Lemma iter_onEndDrag (p : Drag.Point number) (k : nat) (w : Drag.World number U) :
  Drag.bound_listeners w ->
  Nat.iter (S k) (Drag._onEndDrag p) w
  = Drag.mkWorld
      (Drag.mkMovable (Drag.start (Drag.movable w)) (Drag.current (Drag.movable w))
                      false (Drag.onChange (Drag.movable w)))
      (Drag.listeners w) (Drag.binds w) (Drag.user w).
Proof.
  intros B. induction k as [|k IH].
  - simpl. apply onEndDrag_world, B.
  - rewrite Nat.iter_succ, IH. rewrite onEndDrag_world; [reflexivity|exact B].
Qed.

(** The handler of each input on the document. *)
Lemma step_iter (w : Drag.World number U) (i : Drag.Input number) :
  Drag.bound_listeners w ->
  Drag.step minus w i
  = Some
      match i with
      | Drag.MouseDown p => Drag._onStartDrag p w
      | Drag.TouchStart touches => Drag.onTouchStart touches w
      | Drag.MouseMove p =>
          Nat.iter (Drag.listeners_of Drag.mousemove (Drag.listeners w))
                   (Drag._onDrag minus p) w
      | Drag.MouseUp p =>
          Nat.iter (Drag.listeners_of Drag.mouseup (Drag.listeners w))
                   (Drag._onEndDrag p) w
      | Drag.TouchMove (t :: _) =>
          Nat.iter (Drag.listeners_of Drag.touchmove (Drag.listeners w))
                   (Drag._onDrag minus t) w
      | Drag.TouchEnd (t :: _) =>
          Nat.iter (Drag.listeners_of Drag.touchend (Drag.listeners w))
                   (Drag._onEndDrag t) w
      | Drag.TouchMove [] | Drag.TouchEnd [] => w
      end.
Proof.
  intros B. destruct i as [p|ts|p|p|ts|ts]; cbn [Drag.step]; try reflexivity.
  - apply dispatch_iter; [reflexivity | apply onDrag_keeps | exact B].
  - apply dispatch_iter; [reflexivity | apply onEndDrag_keeps | exact B].
  - destruct ts as [|t ts].
    + rewrite (dispatch_iter Drag.touchmove _ (fun w => w)); auto.
      clear. induction (Drag.listeners_of _ _); simpl; congruence.
    + apply dispatch_iter; [reflexivity | apply onDrag_keeps | exact B].
  - destruct ts as [|t ts].
    + rewrite (dispatch_iter Drag.touchend _ (fun w => w)); auto.
      clear. induction (Drag.listeners_of _ _); simpl; congruence.
    + apply dispatch_iter; [reflexivity | apply onEndDrag_keeps | exact B].
Qed.

Lemma step_bound (w : Drag.World number U) (i : Drag.Input number) :
  Drag.bound_listeners w ->
  exists w',
    Drag.step minus w i = Some w'
    /\ Drag.bound_listeners w'
    /\ length (Drag.listeners w')
       = length (Drag.listeners w) + (if Drag.starts_drag i then 4 else 0).
Proof.
  intros B. rewrite (step_iter w i B). eexists. split; [reflexivity|].
  assert (Hstart : forall p,
             Drag.bound_listeners (Drag._onStartDrag p w)
             /\ length (Drag.listeners (Drag._onStartDrag p w))
                = length (Drag.listeners w) + 4).
  { intros p. split; [apply onStartDrag_bound, B|].
    rewrite (onStartDrag_world p w B). cbn [Drag.listeners].
    rewrite length_app. reflexivity. }
  assert (Hiter : forall n h,
             (forall w, Drag.bound_listeners w ->
                        Drag.listeners (h w) = Drag.listeners w
                        /\ Drag.binds (h w) = Drag.binds w) ->
             Drag.bound_listeners (Nat.iter n h w)
             /\ length (Drag.listeners (Nat.iter n h w))
                = length (Drag.listeners w) + 0).
  { intros n h Hk. destruct (iter_keeps h n Hk w B) as (Bn & Ln & _).
    split; [exact Bn | rewrite Ln; lia]. }
  destruct i as [p|[|t ts]|p|p|[|t ts]|[|t ts]]; cbn [Drag.starts_drag Drag.onTouchStart
    Drag.first_touch hd_error];
    try apply Hstart; try (split; [exact B | lia]);
    apply Hiter; intros w0 B0; try apply onDrag_keeps; try apply onEndDrag_keeps; exact B0.
Qed.

Lemma run_bound (inputs : list (Drag.Input number)) :
  forall w : Drag.World number U,
    Drag.bound_listeners w ->
    exists w',
      Drag.run minus w inputs = Some w'
      /\ Drag.bound_listeners w'
      /\ length (Drag.listeners w')
         = length (Drag.listeners w) + 4 * length (filter Drag.starts_drag inputs).
Proof.
  induction inputs as [|i rest IH]; intros w B; cbn [Drag.run filter].
  - exists w. simpl. split; [reflexivity|]. split; [exact B | lia].
  - destruct (step_bound w i B) as (w1 & -> & B1 & L1).
    destruct (IH w1 B1) as (w' & Hr & B' & L').
    exists w'. split; [exact Hr|]. split; [exact B'|].
    rewrite L', L1. destruct (Drag.starts_drag i); simpl; lia.
Qed.

Lemma new_world_bound (f : Drag.Point number -> Drag.Point number -> U -> U) (u : U) :
  Drag.bound_listeners (Drag.new_world zero f u).
Proof. constructor. Qed.

(** X16. The tracker never takes a listener off the document: whatever the
    mouse and touch events, no event makes a listener throw, and the document
    ends up with four listeners for every drag that was started, finished or
    not. *)
Theorem drag_listeners_are_never_removed
    (f : Drag.Point number -> Drag.Point number -> U -> U) (u : U)
    (inputs : list (Drag.Input number)) :
  exists w,
    Drag.run minus (Drag.new_world zero f u) inputs = Some w
    /\ length (Drag.listeners w) = 4 * length (filter Drag.starts_drag inputs).
Proof.
  destruct (run_bound inputs _ (new_world_bound f u)) as (w & Hr & _ & L).
  exists w. split; [exact Hr | exact L].
Qed.

(** X19. What no drag is on ignores: after any events, while the tracker is
    not dragging a mouse move or a touch move changes nothing, and a touch
    move or touch end that lists no touch changes nothing at any time, so
    that it does not end a drag. *)
Theorem drag_ignores_idle_moves (f : Drag.Point number -> Drag.Point number -> U -> U)
    (u : U) (inputs : list (Drag.Input number)) (w : Drag.World number U)
    (p : Drag.Point number) (touches : list (Drag.Point number)) :
  Drag.run minus (Drag.new_world zero f u) inputs = Some w ->
  Drag.step minus w (Drag.TouchMove []) = Some w
  /\ Drag.step minus w (Drag.TouchEnd []) = Some w
  /\ (Drag.isDragging (Drag.movable w) = false ->
      Drag.step minus w (Drag.MouseMove p) = Some w
      /\ Drag.step minus w (Drag.TouchMove touches) = Some w).
Proof.
  intros Hr.
  destruct (run_bound inputs _ (new_world_bound f u)) as (w' & Hr' & B & _).
  rewrite Hr in Hr'. injection Hr' as <-.
  rewrite !(step_iter w _ B). split; [reflexivity|]. split; [reflexivity|].
  intros Hd. rewrite (iter_onDrag_idle p _ w Hd). split; [reflexivity|].
  destruct touches as [|t ts]; [reflexivity|].
  rewrite (iter_onDrag_idle t _ w Hd). reflexivity.
Qed.

(** The state after drags that were started and ended by the mouse with no
    move in between. *)
Lemma run_cycles (pairs : list (Drag.Point number * Drag.Point number)) :
  forall w : Drag.World number U,
    Drag.bound_listeners w ->
    Drag.isDragging (Drag.movable w) = false ->
    exists w',
      Drag.run minus w
        (flat_map (fun pq => [Drag.MouseDown (fst pq); Drag.MouseUp (snd pq)]) pairs)
      = Some w'
      /\ Drag.bound_listeners w'
      /\ Drag.isDragging (Drag.movable w') = false
      /\ Drag.onChange (Drag.movable w') = Drag.onChange (Drag.movable w)
      /\ Drag.user w' = Drag.user w
      /\ Drag.listeners_of Drag.mousemove (Drag.listeners w')
         = Drag.listeners_of Drag.mousemove (Drag.listeners w) + length pairs.
Proof.
  induction pairs as [|[p q] rest IH]; intros w B Hd.
  - exists w. simpl. repeat split; auto.
  - cbn [flat_map app Drag.run fst snd].
    rewrite (step_iter w _ B).
    pose proof (onStartDrag_bound p w B) as B1.
    rewrite (step_iter _ _ B1).
    rewrite (onStartDrag_world p w B) in *.
    cbn [Drag.listeners] in *. rewrite listeners_of_start.
    rewrite (iter_onEndDrag q _ _ B1).
    cbn [Drag.listeners Drag.movable Drag.start Drag.current Drag.onChange
         Drag.binds Drag.user].
    match goal with
    | |- context [Drag.run minus ?w1 _] =>
        destruct (IH w1) as (w' & Hr & B' & Hd' & Hf & Hu & Hc);
          [exact B1 | reflexivity|]
    end.
    exists w'. split; [exact Hr|]. split; [exact B'|]. split; [exact Hd'|].
    cbn [Drag.listeners Drag.movable Drag.onChange Drag.user] in Hf, Hu, Hc.
    rewrite listeners_of_start in Hc.
    split; [exact Hf|]. split; [exact Hu|]. simpl length. lia.
Qed.

(** X17. A move reaches [onChange] as many times as drags were started: the
    listeners of earlier drags are still there.  After [n] drags by the mouse,
    each ended by its mouse up, a mouse move in the next drag calls
    [onChange] once with the step from the point pressed and [n] more times
    with the step from the point to itself. *)
Theorem drag_calls_once_per_drag_started
    (f : Drag.Point number -> Drag.Point number -> U -> U) (u : U)
    (pairs : list (Drag.Point number * Drag.Point number))
    (p q : Drag.Point number) :
  exists w,
    Drag.run minus (Drag.new_world zero f u)
      (flat_map (fun pq => [Drag.MouseDown (fst pq); Drag.MouseUp (snd pq)]) pairs
       ++ [Drag.MouseDown p; Drag.MouseMove q])
    = Some w
    /\ Drag.user w
       = Nat.iter (length pairs) (f (Drag.delta minus q q) q)
                  (f (Drag.delta minus q p) q u)
    /\ Drag.current (Drag.movable w) = q
    /\ Drag.isDragging (Drag.movable w) = true.
Proof.
  destruct (run_cycles pairs _ (new_world_bound f u) eq_refl)
    as (w1 & Hr & B1 & Hd & Hf & Hu & Hc).
  assert (Happ : forall l1 l2 (w0 : Drag.World number U),
             Drag.run minus w0 (l1 ++ l2)
             = match Drag.run minus w0 l1 with
               | Some w' => Drag.run minus w' l2
               | None => None
               end).
  { induction l1 as [|i l1 IH]; intros l2 w0; cbn [app Drag.run]; [reflexivity|].
    destruct (Drag.step minus w0 i); [apply IH | reflexivity]. }
  rewrite Happ, Hr. cbn [Drag.run].
  rewrite (step_iter w1 _ B1).
  pose proof (onStartDrag_bound p w1 B1) as B2.
  rewrite (step_iter _ _ B2).
  rewrite (onStartDrag_world p w1 B1).
  cbn [Drag.listeners]. rewrite listeners_of_start, Hc.
  rewrite iter_onDrag by reflexivity.
  eexists. split; [reflexivity|].
  cbn [Drag.user Drag.movable Drag.onChange Drag.current Drag.isDragging].
  rewrite Hf, Hu. cbn. auto.
Qed.

(** The moves of the first drag, one listener each. *)
Lemma run_moves (qs : list (Drag.Point number)) :
  forall w : Drag.World number U,
    Drag.bound_listeners w ->
    Drag.isDragging (Drag.movable w) = true ->
    Drag.listeners_of Drag.mousemove (Drag.listeners w) = 1 ->
    exists w',
      Drag.run minus w (map Drag.MouseMove qs) = Some w'
      /\ (Drag.user w', Drag.current (Drag.movable w'))
         = fold_left
             (fun s q => (Drag.onChange (Drag.movable w) (Drag.delta minus q (snd s)) q
                                        (fst s), q))
             qs (Drag.user w, Drag.current (Drag.movable w)).
Proof.
  induction qs as [|q qs IH]; intros w B Hd Hone.
  - exists w. split; reflexivity.
  - cbn [map Drag.run fold_left fst snd].
    rewrite (step_iter w _ B), Hone.
    pose proof (iter_onDrag q 0 w Hd) as E. rewrite E.
    match goal with
    | |- context [Drag.run minus ?w1 _] =>
        destruct (IH w1) as (w' & Hr & Hs); [| reflexivity | exact Hone |]
    end.
    { unfold Drag.bound_listeners. exact B. }
    exists w'. split; [exact Hr|]. rewrite Hs. reflexivity.
Qed.

(** X18. In the first drag each mouse move is reported once, with the step
    from the point before it (the point pressed, for the first move) and the
    point itself. *)
Theorem drag_reports_steps_between_points
    (f : Drag.Point number -> Drag.Point number -> U -> U) (u : U)
    (p : Drag.Point number) (qs : list (Drag.Point number)) :
  exists w,
    Drag.run minus (Drag.new_world zero f u) (Drag.MouseDown p :: map Drag.MouseMove qs)
    = Some w
    /\ (Drag.user w, Drag.current (Drag.movable w))
       = fold_left (fun s q => (f (Drag.delta minus q (snd s)) q (fst s), q)) qs (u, p).
Proof.
  cbn [Drag.run].
  rewrite (step_iter _ _ (new_world_bound f u)).
  pose proof (onStartDrag_bound p _ (new_world_bound f u)) as B1.
  rewrite (onStartDrag_world p _ (new_world_bound f u)) in *.
  match goal with
  | |- context [Drag.run minus ?w1 _] =>
      destruct (run_moves qs w1 B1 eq_refl eq_refl) as (w & Hr & Hs)
  end.
  exists w. split; [exact Hr | exact Hs].
Qed.

End DragProperties.

Lemma drag_ignores_idle_moves_witness :
  exists w,
    Drag.run Z.sub (Drag.new_world 0%Z (fun d t u => u ++ [(d, t)]) [])
      [Drag.MouseDown (Drag.mkPoint 1 1)%Z; Drag.MouseUp (Drag.mkPoint 5 5)%Z] = Some w
    /\ Drag.step Z.sub w (Drag.MouseMove (Drag.mkPoint 9 9)%Z) = Some w.
Proof.
  eexists. split; [reflexivity|].
  refine (proj1 (proj2 (proj2
    (drag_ignores_idle_moves Z Z.sub 0%Z _ (fun d t u => u ++ [(d, t)]) []
       [Drag.MouseDown (Drag.mkPoint 1 1)%Z; Drag.MouseUp (Drag.mkPoint 5 5)%Z]
       _ (Drag.mkPoint 9 9)%Z [] eq_refl)) eq_refl)).
Defined.
